(* ===== verification/_CoqProject ===== *)
-Q . S2P
Prelude.v
ObjectId.v
Js.v
Models.v
Votes.v
Concurrency.v
Auth.v
Guard.v
Upload.v
Comments.v
Wp.v
Queries.v
Users.v
Validation.v
Router.v
Server.v
