(* ===== verification/Prelude.v ===== *)
(** * A verification development of the Hospyta community API

    The program (src/src of the repository) is an Express + Mongoose REST
    API for a health-discussion forum.  A request passes the application
    middleware of index.ts (JSON and cookie parsing, CORS), is routed by
    routes/*.ts through its route middleware (middleware/auth.ts
    [verifyToken], the express-validator chains of middleware/validation.ts,
    multer) to a controller of controllers/*.ts, which reads and writes the
    Mongoose collections of models/*.ts.  The files of the development, in
    dependency order, and what they model:

    - [Prelude.v] (this file): the state-and-outcome monad [M] every handler
      is written in.  A handler continues with a value ([Cont]), returns
      early with [res.status(..).json(..)] ([Reply]) or throws ([Raise]);
      [run_handler] is a controller's [catch], turning [Raise] into the
      generic 500 and keeping the writes made before the throw.  Also the
      array helpers ([includes], [filter]) and the tactics shared by all
      files.
    - [ObjectId.v]: bson's ObjectId as a 96-bit [N], its 24-digit hex
      [toString] and Mongoose's cast of a string ([castObjectId]), with the
      round trip and the bound that make the string id comparisons sound.
    - [Js.v]: JavaScript values ([jsval]), the JSON round trip a token payload
      makes ([json_value]), property reads that throw on [undefined]
      ([get_prop]), and jsonwebtoken's [sign]/[verify] against the class
      [JwtSecret].
    - [Models.v]: models/User.ts, models/Post.ts and the comment model the
      controllers use, as records with the save-time schema checks; the
      database [World] (three [gmap]s keyed by id, the id generator, the
      clock); the response type; the store operations.
    - [Votes.v]: upvotePost/downvotePost.  Refinement of the spec's
      per-(post, user) vote state machine, the invariant [vote_wf] and its
      preservation, the error paths, the mirror equivalence of the two.
    - [Concurrency.v]: the two [await]s of a vote request (the [findById]
      read, then the update with [post.save()]) as two atomic phases, and
      schedules that interleave the phases of requests in flight.  Two
      votes on the same post interleaved after the read raise its counter
      by one where run in turn they raise it by two (the lost update the
      spec's section 5 rules out); votes on different posts commute under
      every interleaving.
    - [Auth.v]: registerUser, loginUser, logoutUser and verifyToken against
      the class [PasswordHasher] (bcrypt, 72-byte compare); conflicts,
      invalid credentials, login after register, and the registration
      token that carries no user.
    - [Guard.v]: createPost, editPost, deletePost and their ownership checks.
    - [Upload.v]: multer's file ([MulterFile]) and [uploadImage]: the data
      URI of the file, with Node's base64 written out after RFC 4648 on
      [list byte] with [Z.shiftr]/[Z.land]/[Z.lor], handed to the Cloudinary
      upload, a function of the request.  The round trip: the data URI
      reads back (RFC 2397, RFC 4648) as the file's type and bytes, and
      its exact length, bounded through multer's 5 MB limit.
    - [Comments.v]: the comment controller and the post-comment links;
      getCommentsForPost keeps its [if (!comments)] test on the array the
      query returns, which is never falsy.
    - [Wp.v]: a weakest-precondition calculus for [M], one rule per
      combinator and store operation, and the tactic [wp_run] that walks a
      handler.
    - [Queries.v], [Users.v]: the read-only handlers of postController.ts
      and userController.ts.
    - [Validation.v]: the express-validator chains, with the exact pass
      condition of [validatePostRequest] and the guarantees of
      [validateRegisterRequest].
    - [Router.v]: the route table as index.ts mounts the routers, Express's
      first-match dispatch, each route's middleware order, CORS, and [serve]
      for one request.  Its theorems: no two routes overlap, so the order of
      registration does not matter (proved by a boolean check computed on
      the table); protected routes answer 401 and write nothing without a
      token, except /new-post whose validation runs first; a request
      crashes the process exactly when it reaches upvote, downvote or edit
      with a token without [user].  The request carries multer's file and
      the Cloudinary response; /new-post checks the 5 MB limit on the
      buffer and passes [file_upload] of it to createPost.
    - [Server.v]: the running server as a state machine ([Up w] or [Down]),
      [reachable_by P] over sequences of requests satisfying [P].  Two
      invariants hold on every reachable state, proved handler by handler
      with [wp_run] and lifted through the middleware and the step relation
      by generic lemmas: every post is by a registered user
      ([authors_registered], kept by createPost's [if (!user)] since no
      save checks it), and, for clients that send no vote arrays in a new
      post and log in before voting ([clean_request]), the vote invariant
      on every post ([world_votes_wf]).  A registration followed by an
      upvote takes the process down (an evaluated scenario).

    Bounds and fuel: no definition needs fuel; every recursion is
    structural.  Ids are kept below 2^96 ([oid_bound]), and [fresh_oid]
    wraps the generator there.  JSON numbers are integers.  Strings are
    byte strings, so length checks agree with JavaScript's on ASCII.
    Base64 is a structural [Fixpoint] on groups of three bytes; its round
    trip is proved by well-founded induction on the length of the list.

    Not modelled: HTTP transport and the parsing of express.json and
    cookie-parser (their results are fields of the request record); the
    Cloudinary service itself (an external service: what it answers for a
    data URI is a field of the request), and multer's multipart parsing
    (its [req.file] is a field of the request);
    validator.js's [isEmail]/[normalizeEmail] (the class [EmailRules]);
    the population of references in read replies, which changes no state;
    connectDB, cloudinary.config and app.listen in index.ts: start-up I/O
    that reads the environment, opens the database connection and the
    socket, and changes no state the handlers read; the model starts from
    any database [w0] satisfying the invariants instead.
    Concurrency: vote requests are interleaved at their [await]s in
    Concurrency.v; Server.v takes every request as one atomic step (the
    schedules without interleaving), and its invariants are stated for
    such sequential runs.
    Mongoose's [save()] sends the modified paths of the document; the
    model writes the whole document, which agrees with it on the counters
    the lost-update theorem is about. *)

From stdpp Require Import base list.
From Stdlib Require Import ZArith NArith.

(** ** Exceptions a handler can throw *)

(** The exceptions the controllers' [try] blocks can see: a [TypeError]
    from reading a field of [undefined], a Mongoose [CastError] for an id
    that is not 24 hexadecimal digits, a [ValidationError] from [save()]
    on a document that breaks its schema, a duplicate-key error of a unique
    index, and a failed upload. *)
Inductive exn :=
| TypeError
| CastError
| ValidationError
| DuplicateKey
| UploadFailed.

#[export] Instance exn_eq_dec : EqDecision exn.
Proof. solve_decision. Defined.

(** ** The handler monad *)

(** How a piece of handler code ends: it continues with a value, it has sent
    its reply with an early [return res.status(..)...], or it threw. *)
Inductive outcome (R A : Type) :=
| Cont (a : A)
| Reply (r : R)
| Raise (e : exn).
Arguments Cont {R A} a.
Arguments Reply {R A} r.
Arguments Raise {R A} e.

(** Handler code over a state [S] (the database) with replies of type [R]. *)
Definition M (S R A : Type) : Type := S -> S * outcome R A.

Section Monad.
Context {S R : Type}.

Definition ret {A} (a : A) : M S R A := fun s => (s, Cont a).

Definition bind {A B} (m : M S R A) (k : A -> M S R B) : M S R B :=
  fun s =>
    match m s with
    | (s', Cont a) => k a s'
    | (s', Reply r) => (s', Reply r)
    | (s', Raise e) => (s', Raise e)
    end.

Definition reply {A} (r : R) : M S R A := fun s => (s, Reply r).
Definition throw {A} (e : exn) : M S R A := fun s => (s, Raise e).
Definition get : M S R S := fun s => (s, Cont s).
Definition put (s' : S) : M S R unit := fun _ => (s', Cont tt).

(** [if (!x) return res.status(..).json(..)]: continue with the value
    of an option or reply. *)
Definition or_reply {A} (o : option A) (r : R) : M S R A :=
  match o with Some a => ret a | None => reply r end.

(** Run a whole handler: the [catch] block of every controller turns a
    thrown exception into its generic reply [on_error]. *)
Definition run_handler (on_error : R) (m : M S R R) (s : S) : S * R :=
  match m s with
  | (s', Cont r) | (s', Reply r) => (s', r)
  | (s', Raise _) => (s', on_error)
  end.

Lemma bind_ret {A B} (a : A) (k : A -> M S R B) s :
  bind (ret a) k s = k a s.
Proof. reflexivity. Qed.

Lemma bind_reply {A B} (r : R) (k : A -> M S R B) s :
  bind (reply r) k s = (s, Reply r).
Proof. reflexivity. Qed.

Lemma bind_throw {A B} (e : exn) (k : A -> M S R B) s :
  bind (throw e) k s = (s, Raise e).
Proof. reflexivity. Qed.

Lemma bind_assoc {A B C} (m : M S R A) (k : A -> M S R B) (h : B -> M S R C) s :
  bind (bind m k) h s = bind m (fun a => bind (k a) h) s.
Proof. unfold bind. by destruct (m s) as [s' []]. Qed.
End Monad.

Declare Scope hosp_scope.
Delimit Scope hosp_scope with hosp.
Notation "'let*' x ':=' m 'in' k" := (bind m (fun x => k))
  (at level 100, x name, m at level 100, k at level 200) : hosp_scope.
Notation "m ;;; k" := (bind m (fun _ => k))
  (at level 100, right associativity) : hosp_scope.
Open Scope hosp_scope.

Create HintDb hosp discriminated.
Create Rewrite HintDb hosp_rw.
#[export] Hint Rewrite @bind_ret @bind_reply @bind_throw : hosp_rw.

(** ** JavaScript array helpers *)

Section Arrays.
Context {A : Type} `{EqDecision A}.

(** [arr.includes(x)]: a linear scan with equality. *)
Fixpoint includes (x : A) (l : list A) : bool :=
  match l with
  | [] => false
  | y :: l' => if decide (y = x) then true else includes x l'
  end.

(** [arr.filter((id) => id !== x)]: drop every occurrence of [x]. *)
Definition remove_all (x : A) (l : list A) : list A :=
  List.filter (fun y => negb (bool_decide (y = x))) l.

Lemma includes_spec (x : A) (l : list A) : includes x l = true <-> x ∈ l.
Proof.
  induction l as [|y l IH]; simpl.
  - split; [discriminate|]. intros Hx. by apply not_elem_of_nil in Hx.
  - rewrite elem_of_cons. case_decide; subst; [naive_solver|]. rewrite IH. naive_solver.
Qed.

Lemma includes_false (x : A) (l : list A) : includes x l = false <-> x ∉ l.
Proof. rewrite <- includes_spec. destruct (includes x l); naive_solver. Qed.

Lemma elem_of_remove_all (x y : A) (l : list A) : y ∈ remove_all x l <-> y ∈ l /\ y <> x.
Proof.
  unfold remove_all. rewrite !list_elem_of_In, filter_In.
  rewrite negb_true_iff, bool_decide_eq_false. done.
Qed.

Lemma remove_all_notin (x : A) (l : list A) : x ∉ l -> remove_all x l = l.
Proof.
  induction l as [|y l IH]; intros Hx; [done|]. rewrite elem_of_cons in Hx.
  unfold remove_all; simpl. rewrite bool_decide_false by naive_solver. simpl.
  f_equal. apply IH. naive_solver.
Qed.

Lemma NoDup_remove_all (x : A) (l : list A) : NoDup l -> NoDup (remove_all x l).
Proof.
  induction 1 as [|y l Hy Hnd IH]; unfold remove_all; simpl; [constructor|].
  fold (remove_all x l). case_bool_decide; simpl; [done|]. constructor; [|done].
  rewrite elem_of_remove_all. naive_solver.
Qed.

Lemma length_remove_all (x : A) (l : list A) :
  NoDup l -> x ∈ l -> length (remove_all x l) = pred (length l).
Proof.
  induction 1 as [|y l Hy Hnd IH]; intros Hx; [by apply not_elem_of_nil in Hx|].
  unfold remove_all; simpl. fold (remove_all x l). rewrite elem_of_cons in Hx.
  case_bool_decide as E; simpl.
  - subst. by rewrite remove_all_notin.
  - destruct Hx as [->|Hx]; [done|]. rewrite IH by done.
    destruct l; [by apply not_elem_of_nil in Hx|]. done.
Qed.

(** [arr.push(x)] on an array without [x] keeps it duplicate-free. *)
Lemma NoDup_snoc (x : A) (l : list A) : x ∉ l -> NoDup l -> NoDup (l ++ [x]).
Proof.
  intros Hx Hnd. apply NoDup_app. split_and!; [done| |by apply NoDup_singleton].
  intros y Hy ->%list_elem_of_singleton. done.
Qed.
End Arrays.

#[export] Hint Resolve NoDup_remove_all NoDup_snoc : hosp.

(** ** Options *)

Lemma mbind_Some_opt {A B} (a : A) (f : A -> option B) : (Some a ≫= f) = f a.
Proof. done. Qed.

Lemma mbind_None_opt {A B} (f : A -> option B) : (None ≫= f) = None.
Proof. done. Qed.

#[export] Hint Rewrite @mbind_Some_opt @mbind_None_opt : hosp_rw.

(** Close a decidable proposition about a concrete value by evaluation. *)
Ltac decide_by_eval := apply (bool_decide_unpack _); vm_compute; exact I.
