(* ===== verification/ObjectId.v ===== *)
(** * ObjectId: 12-byte document ids and their hexadecimal form

    Every document id of the program is a bson [ObjectId]: 12 bytes, shown
    by [toString()]/[toHexString()] as 24 lowercase hexadecimal digits, and
    built from a request string by Mongoose's cast ([findById(id)],
    [new mongoose.Types.ObjectId(s)]), which accepts exactly the strings of
    24 hexadecimal digits of either case and throws a [CastError] on any
    other.  The controllers compare ids through these strings
    ([post.author?._id.toString() !== userId.toString()]), so the round trip
    below is what makes those comparisons decide equality of ids.

    An id is a 96-bit [N]; [toHexString] writes its digits from the most
    significant one; [castObjectId] parses them. *)

From S2P Require Import Prelude.
From stdpp Require Import base list strings.
From Stdlib Require Import NArith Ascii Lia.

Open Scope N_scope.

(** A document id: a 12-byte big-endian number, below [oid_bound]. *)
Abbreviation oid := N (only parsing).
Definition oid_bound : N := 2 ^ 96.

(** ** Hexadecimal digits *)

Definition hex_digits : string := "0123456789abcdef".

(** The lowercase digit of a nibble [n < 16]. *)
Definition hex_digit (n : N) : ascii :=
  match String.get (N.to_nat n) hex_digits with
  | Some c => c
  | None => "0"%char
  end.

(** The value of a hexadecimal digit of either case, as in the regular
    expression [/^[0-9a-fA-F]{24}$/] that guards the cast. *)
Definition hex_value (c : ascii) : option N :=
  let n := N.of_nat (nat_of_ascii c) in
  if (48 <=? n) && (n <=? 57) then Some (n - 48)
  else if (97 <=? n) && (n <=? 102) then Some (n - 87)
  else if (65 <=? n) && (n <=? 70) then Some (n - 55)
  else None.

(** ** Printing and parsing *)

(** The [k] low hexadecimal digits of [o], most significant first. *)
Fixpoint hex_n (k : nat) (o : N) : string :=
  match k with
  | O => EmptyString
  | S k' => String (hex_digit ((o / 16 ^ N.of_nat k') mod 16)) (hex_n k' o)
  end.

(** [ObjectId.prototype.toHexString] (and [toString], which calls it). *)
Definition toHexString (o : oid) : string := hex_n 24 o.

(** Parse hexadecimal digits onto an accumulator. *)
Fixpoint parse_hex (s : string) (acc : N) : option N :=
  match s with
  | EmptyString => Some acc
  | String c s' =>
      match hex_value c with
      | Some v => parse_hex s' (acc * 16 + v)
      | None => None
      end
  end.

(** Mongoose's ObjectId cast of a string: 24 hexadecimal digits, or a
    [CastError] ([None]). *)
Definition castObjectId (s : string) : option oid :=
  if Nat.eqb (String.length s) 24 then parse_hex s 0 else None.

(** The cast as handler code: [findById(s)] throws on a malformed id. *)
Definition cast_or_throw {S R} (s : string) : M S R oid :=
  match castObjectId s with
  | Some o => ret o
  | None => throw CastError
  end.

(** ** Lemmas *)

Lemma hex_value_digit (n : N) : n < 16 -> hex_value (hex_digit n) = Some n.
Proof.
  intros Hn.
  assert (Hall : Forall (fun m => hex_value (hex_digit (N.of_nat m)) = Some (N.of_nat m))
                   (seq 0 16)) by (repeat constructor).
  rewrite Forall_forall in Hall.
  specialize (Hall (N.to_nat n)). rewrite N2Nat.id in Hall. apply Hall.
  rewrite list_elem_of_In, in_seq. lia.
Qed.

Lemma hex_value_lt (c : ascii) (v : N) : hex_value c = Some v -> v < 16.
Proof.
  unfold hex_value. repeat case_match; intros [= <-];
    repeat match goal with H : _ && _ = true |- _ => apply andb_prop in H as [? ?] end;
    rewrite ?N.leb_le in *; lia.
Qed.

Lemma length_hex_n (k : nat) (o : N) : String.length (hex_n k o) = k.
Proof. induction k; simpl; congruence. Qed.

(** Parsing the [k] digits printed by [hex_n] appends [o mod 16^k]. *)
Lemma parse_hex_n (k : nat) (o acc : N) :
  parse_hex (hex_n k o) acc = Some (acc * 16 ^ N.of_nat k + o mod 16 ^ N.of_nat k).
Proof.
  revert acc. induction k as [|k IH]; intros acc; simpl.
  - f_equal. rewrite N.mod_1_r. lia.
  - rewrite hex_value_digit by (apply N.mod_lt; lia).
    rewrite IH. f_equal.
    rewrite Nat2N.inj_succ, N.pow_succ_r', (N.mul_comm 16 (16 ^ _)).
    rewrite N.Div0.mod_mul_r. lia.
Qed.

(** Every value the parser builds from [k] digits is below [16^k]. *)
Lemma parse_hex_bound (s : string) (acc v : N) :
  parse_hex s acc = Some v ->
  v < (acc + 1) * 16 ^ N.of_nat (String.length s).
Proof.
  revert acc. induction s as [|c s IH]; intros acc; simpl.
  - intros [= <-]. lia.
  - destruct (hex_value c) as [d|] eqn:Hd; [|discriminate].
    intros Hp. apply IH in Hp. apply hex_value_lt in Hd.
    rewrite Nat2N.inj_succ, N.pow_succ_r'. nia.
Qed.

Lemma toHexString_cast (o : oid) :
  o < oid_bound -> castObjectId (toHexString o) = Some o.
Proof.
  intros Ho. unfold castObjectId, toHexString.
  rewrite length_hex_n, parse_hex_n. simpl. f_equal.
  rewrite N.mod_small; [lia|]. exact Ho.
Qed.

(** Printing is injective on ids: the string comparisons of the
    controllers decide equality of ids. *)
Lemma toHexString_inj (o1 o2 : oid) :
  o1 < oid_bound -> o2 < oid_bound -> toHexString o1 = toHexString o2 -> o1 = o2.
Proof.
  intros H1 H2 Heq. apply toHexString_cast in H1, H2. congruence.
Qed.

#[export] Hint Resolve toHexString_inj : hosp.

(** Every id the cast accepts is a 96-bit ObjectId. *)
Lemma castObjectId_bound (s : string) (o : oid) : castObjectId s = Some o -> (o < oid_bound)%N.
Proof.
  unfold castObjectId. destruct (Nat.eqb (String.length s) 24) eqn:Hl; [|discriminate].
  intros Hp%parse_hex_bound. apply Nat.eqb_eq in Hl. rewrite Hl in Hp.
  unfold oid_bound. change (2 ^ 96)%N with (16 ^ N.of_nat 24)%N. lia.
Qed.
