(* ===== verification/Js.v ===== *)
(** * Js: JavaScript values, their JSON round trip and JSON Web Tokens

    The token of the program is a JSON Web Token: [jwt.sign(payload,
    secret)] serialises the payload with [JSON.stringify], adds the [iat]
    claim and signs it; [jwt.verify(token, secret, cb)] checks the
    signature and hands the callback [JSON.parse] of the payload, which the
    middleware stores in [req.user].  What survives that round trip is what
    the handlers later read as [req.user.user._id], so this file models
    - [jsval]: the values that occur in payloads (an ObjectId instance and
      a function value among them);
    - [json_value]: [JSON.parse(JSON.stringify(v))], with [None] for a
      value [JSON.stringify] omits (a function, [undefined]), an ObjectId
      becoming its hexadecimal string (its [toJSON]);
    - [get_prop]: the property access [v.k], a [TypeError] ([None]) on
      [undefined] and [null];
    - [Jwt]: a token as its claims and its signature.  The signature is
      computed by [hmac], the server's secret key ([process.env.JWT_SECRET])
      given as configuration in the class [JwtSecret]. *)

From S2P Require Import Prelude ObjectId.
From stdpp Require Import base list strings.
From Stdlib Require Import ZArith.

Inductive jsval :=
| JUndefined
| JNull
| JBool (b : bool)
| JNum (z : Z)
| JStr (s : string)
| JOid (o : oid)
| JFun
| JObj (fields : list (string * jsval)).

(** [JSON.parse(JSON.stringify(v))]: [None] when [v] is omitted. *)
Fixpoint json_value (v : jsval) : option jsval :=
  match v with
  | JUndefined | JFun => None
  | JNull => Some JNull
  | JBool b => Some (JBool b)
  | JNum z => Some (JNum z)
  | JStr s => Some (JStr s)
  | JOid o => Some (JStr (toHexString o))
  | JObj fs =>
      Some (JObj ((fix go (fs : list (string * jsval)) : list (string * jsval) :=
                     match fs with
                     | [] => []
                     | (k, x) :: fs' =>
                         match json_value x with
                         | Some y => (k, y) :: go fs'
                         | None => go fs'
                         end
                     end) fs))
  end.

(** The value of key [k] among the fields of an object literal. *)
Fixpoint field (k : string) (fs : list (string * jsval)) : jsval :=
  match fs with
  | [] => JUndefined
  | (k', v) :: fs' => if decide (k' = k) then v else field k fs'
  end.

(** [v.k]: reading a property of [undefined] or [null] throws a
    [TypeError]; other primitives have none of the keys the program reads. *)
Definition get_prop (v : jsval) (k : string) : option jsval :=
  match v with
  | JUndefined | JNull => None
  | JObj fs => Some (field k fs)
  | _ => Some JUndefined
  end.

(** ** Tokens *)

(** A signed token: its claims (the payload after the JSON round trip, with
    [iat]) and its signature. *)
Record Jwt := mkJwt {
  jwt_claims : jsval;
  jwt_sig : Z
}.

(** The server's signing key, fixed at start-up. *)
Class JwtSecret := { hmac : jsval -> Z }.

Section Tokens.
Context `{JwtSecret}.

(** [jwt.sign(payload, secret)] at time [now] (milliseconds): the JSON of
    the object payload with [iat] (seconds) appended, and its signature. *)
Definition jwt_sign (now : Z) (payload : jsval) : Jwt :=
  let fs := match json_value payload with Some (JObj fs) => fs | _ => [] end in
  let claims := JObj (fs ++ [("iat", JNum (now / 1000))]) in
  mkJwt claims (hmac claims).

(** [jwt.verify(token, secret)]: the decoded claims, or an error. *)
Definition jwt_verify (t : Jwt) : option jsval :=
  if decide (jwt_sig t = hmac (jwt_claims t)) then Some (jwt_claims t) else None.
End Tokens.

(** ** Lemmas *)

Lemma field_app_l (k : string) (fs gs : list (string * jsval)) :
  field k fs <> JUndefined -> field k (fs ++ gs) = field k fs.
Proof.
  induction fs as [|[k' v] fs IH]; simpl; [done|]. case_decide; auto.
Qed.

Lemma field_app_notin (k : string) (fs gs : list (string * jsval)) :
  k ∉ fs.*1 -> field k (fs ++ gs) = field k gs.
Proof.
  induction fs as [|[k' v] fs IH]; simpl; [done|].
  rewrite elem_of_cons. case_decide; naive_solver.
Qed.

Lemma jwt_verify_sign `{JwtSecret} (now : Z) (p : jsval) :
  jwt_verify (jwt_sign now p) = Some (jwt_claims (jwt_sign now p)).
Proof. unfold jwt_verify. by rewrite decide_True. Qed.
