(* ===== verification/Models.v ===== *)
(** * Models: the Mongoose schemas, the database and the replies

    [User.t] and [Post.t] translate models/User.ts and models/Post.ts field
    by field; [Comment.t] and [Reply.t] follow the comment controller's use
    of models/Comment.ts, which the repository does not contain.  A field
    that a document may lack is an [option].  [Post.validate] is what
    [save()] checks against the schema ([required] strings are non-empty,
    [category] is one of the enum values); a failed check throws a
    [ValidationError].

    The database is the record [World]: one [gmap] per collection keyed by
    the document id, the next id [new ObjectId()] returns and the clock
    [new Date()] reads.  A [Response] is the status, the JSON body and the
    cookie operation of a reply. *)

From S2P Require Import Prelude ObjectId Js.
From stdpp Require Import base list gmap strings.
From Stdlib Require Import ZArith.

(** ** Categories (the [enum] of models/Post.ts and middleware/validation.ts) *)

Inductive Category :=
| Kidney | Liver | Heart | Lungs | Diabetes | Cancer | Nutrition | Fitness.

#[export] Instance Category_eq_dec : EqDecision Category.
Proof. solve_decision. Defined.

Definition category_name (c : Category) : string :=
  match c with
  | Kidney => "Kidney" | Liver => "Liver" | Heart => "Heart" | Lungs => "Lungs"
  | Diabetes => "Diabetes" | Cancer => "Cancer" | Nutrition => "Nutrition"
  | Fitness => "Fitness"
  end.

(** The enum in the order the schema lists it. *)
Definition categories : list Category :=
  [Kidney; Liver; Heart; Lungs; Diabetes; Cancer; Nutrition; Fitness].

(** [enum: [...]] / [.isIn([...])]: is the string one of the names? *)
Definition category_of_string (s : string) : option Category :=
  List.find (fun c => bool_decide (category_name c = s)) categories.

(** ** Users (models/User.ts) *)

Module User.
Definition default_imageUrl : string :=
  "https://cdn-icons-png.flaticon.com/512/6596/6596121.png".

Record t := mk {
  username : string;
  email : string;
  password : string;
  imageUrl : string
}.

(** [newUser.password = ...]. *)
Definition set_password (pw : string) (u : t) : t :=
  mk (username u) (email u) pw (imageUrl u).

(** The schema's [required] fields. *)
Definition validate (u : t) : bool :=
  negb (bool_decide (username u = "")) && negb (bool_decide (email u = ""))
  && negb (bool_decide (password u = "")).
End User.

(** A user document as [.select("-password").lean()] returns it. *)
Record PublicUser := mkPublicUser {
  pu_id : oid;
  pu_username : string;
  pu_email : string;
  pu_imageUrl : string
}.

Definition public_user (id : oid) (u : User.t) : PublicUser :=
  mkPublicUser id (User.username u) (User.email u) (User.imageUrl u).

(** ** Posts (models/Post.ts) *)

Module Post.
Record t := mk {
  author : option oid;
  title : string;
  content : string;
  category : string;
  upVotes : Z;
  downVotes : Z;
  upVotedBy : list oid;
  downVotedBy : list oid;
  imageUrl : option string;
  comments : list oid;
  lastUpdated : option Z
}.

(** The two halves of a vote update: [post.upVotes = ..; post.upVotedBy = ..]
    and the same for the down votes. *)
Definition set_up (n : Z) (l : list oid) (p : t) : t :=
  mk (author p) (title p) (content p) (category p) n (downVotes p) l
     (downVotedBy p) (imageUrl p) (comments p) (lastUpdated p).

Definition set_down (n : Z) (l : list oid) (p : t) : t :=
  mk (author p) (title p) (content p) (category p) (upVotes p) n
     (upVotedBy p) l (imageUrl p) (comments p) (lastUpdated p).

(** A Mongoose [required] string is present and not empty. *)
Definition required_string (s : string) : bool := negb (bool_decide (s = "")).

(** The schema checks [save()] runs: [title], [content], [category] and
    [imageUrl] are required, [category] is in the enum. *)
Definition validate (p : t) : bool :=
  required_string (title p) && required_string (content p)
  && bool_decide (is_Some (category_of_string (category p)))
  && match imageUrl p with Some u => required_string u | None => false end.
End Post.

(** ** Comments and replies (models/Comment.ts, as the controller uses it) *)

Module Reply.
Record t := mk {
  id : oid;
  author : oid;
  content : string;
  lastUpdated : Z
}.
End Reply.

Module Comment.
Record t := mk {
  postId : oid;
  author : oid;
  content : string;
  replies : list Reply.t
}.
End Comment.

(** ** The database *)

Record World := mkWorld {
  users : gmap oid User.t;
  posts : gmap oid Post.t;
  comments : gmap oid Comment.t;
  next_oid : oid;
  now : Z
}.

Definition set_posts (ps : gmap oid Post.t) (w : World) : World :=
  mkWorld (users w) ps (comments w) (next_oid w) (now w).

Definition set_users (us : gmap oid User.t) (w : World) : World :=
  mkWorld us (posts w) (comments w) (next_oid w) (now w).

(** ** Replies *)

(** The JSON bodies the controllers send. *)
Inductive Body :=
| BMessage (message : string)
| BPost (id : oid) (p : Post.t)
| BPosts (ps : list (oid * Post.t))
| BUser (u : PublicUser)
| BUsers (us : list PublicUser)
| BComment (id : oid) (c : Comment.t)
| BComments (cs : list (oid * Comment.t))
| BReply (r : Reply.t)
| BReplies (rs : list Reply.t)
| BStatusText
| BNull
| BErrors (errors : list (string * string))
| BText (text : string).

(** What a reply does to the [access_token] cookie. *)
Inductive CookieOp :=
| KeepCookie
| SetCookie (token : Jwt)
| ClearCookie.

Record Response := mkResponse {
  status : Z;
  body : Body;
  cookie : CookieOp
}.

(** [res.status(n).json({ message: m })]. *)
Definition message (n : Z) (m : string) : Response :=
  mkResponse n (BMessage m) KeepCookie.

(** [res.status(n).json(b)]. *)
Definition json (n : Z) (b : Body) : Response := mkResponse n b KeepCookie.

(** The reply of every controller's [catch] block. *)
Definition error500 : Response := message 500 "Something went wrong".

(** Handler code of the program. *)
Abbreviation handler A := (M World Response A).

(** Run a controller: an exception becomes [error500]. *)
Definition run (h : handler Response) (w : World) : World * Response :=
  run_handler error500 h w.

(** ** Store operations *)

(** [Post.findById(id)] on an already cast id. *)
Definition find_post (id : oid) : handler (option Post.t) :=
  fun w => (w, Cont (posts w !! id)).

(** [post.save()]: validate against the schema, then write. *)
Definition save_post (id : oid) (p : Post.t) : handler unit :=
  fun w =>
    if Post.validate p then (set_posts (<[id := p]> (posts w)) w, Cont tt)
    else (w, Raise ValidationError).

(** [new ObjectId()]: the generator's next id, kept to 96 bits. *)
Definition fresh_oid : handler oid :=
  fun w => (mkWorld (users w) (posts w) (comments w) (N.succ (next_oid w)) (now w),
            Cont (N.modulo (next_oid w) oid_bound)).

(** [new Date()] / [Date.now()]. *)
Definition clock : handler Z := fun w => (w, Cont (now w)).

(** [User.findOne({ field: value })]: the first document, in the order of
    the collection, that matches. *)
Definition find_user_by (P : User.t -> bool) : handler (option (oid * User.t)) :=
  fun w => (w, Cont (List.find (fun iu => P iu.2) (map_to_list (users w)))).

(** [newUser.save()] of a new document: the schema's [required] checks,
    then the unique indexes on [_id], [username] and [email] (a clash is
    Mongo's duplicate-key error E11000). *)
Definition save_user (id : oid) (u : User.t) : handler unit :=
  fun w =>
    if negb (User.validate u) then (w, Raise ValidationError)
    else if bool_decide (is_Some (users w !! id)
           \/ map_Exists (fun _ v => User.username v = User.username u
                                     \/ User.email v = User.email u) (users w))
    then (w, Raise DuplicateKey)
    else (set_users (<[id := u]> (users w)) w, Cont tt).

Lemma posts_set_posts (ps : gmap oid Post.t) (w : World) : posts (set_posts ps w) = ps.
Proof. reflexivity. Qed.

#[export] Hint Rewrite posts_set_posts : hosp_rw.

(** Unfold the monad and the store operations of a handler to its
    state-passing form. *)
Ltac unfold_handler :=
  unfold run, run_handler, bind, ret, reply, throw, get, put, or_reply, cast_or_throw,
    find_post, save_post, fresh_oid, clock, find_user_by; simpl.
