(* ===== verification/Votes.v ===== *)
(** * Votes: the vote engine of controllers/postController.ts

    [upvotePost] (lines 141-175) and [downvotePost] (lines 178-212) are
    translated in two layers: [upvote_core]/[downvote_core] is the decision
    on one loaded post document (the [includes] checks on the id string, the
    [filter] on [toString()], the counter updates and the [push], whose
    ObjectId cast may throw), and [upvotePost]/[downvotePost] is the whole
    handler on the [World] (the cast of the route parameter, [findById],
    the 404 and 400 early replies, the [save()] and the 200 reply).

    The spec's contract is the per-(post, user) state machine
    [NoVote | Upvoted | Downvoted] with the transition [cast]; [vstate]
    reads that state off a post document and [spec_vote] lifts [cast] to the
    vote state of every user.  The theorems show that, on posts satisfying
    [vote_wf], the code refines [spec_vote], that [vote_wf] is preserved,
    that the two handlers are mirror images of each other, and what the
    handlers reply on each path. *)

From S2P Require Import Prelude ObjectId Models.
From stdpp Require Import base list gmap strings.
From Stdlib Require Import ZArith Lia.

(** ** The code *)

(** [post.upVotedBy.includes(userId)] with the id string of the token:
    Mongoose compares [userId == id], which converts the ObjectId [id] to
    its hexadecimal string. *)
Definition includes_id (userId : string) (l : list oid) : bool :=
  includes userId (map toHexString l).

(** [l.filter((id) => id.toString() !== userId.toString())]. *)
Definition filter_id (userId : string) (l : list oid) : list oid :=
  List.filter (fun id => negb (bool_decide (toHexString id = userId))) l.

(** How the decision part of a vote handler ends. *)
Inductive vote_step :=
| AlreadyVoted
| Voted (p : Post.t)
| VoteCastError.

(** Lines 153-167 of [upvotePost]: the checks and the in-memory update of the
    loaded document; [push(userId)] casts the string to an ObjectId. *)
Definition upvote_core (userId : string) (post : Post.t) : vote_step :=
  if includes_id userId (Post.upVotedBy post) then AlreadyVoted
  else
    let post1 :=
      if includes_id userId (Post.downVotedBy post)
      then Post.set_down (Post.downVotes post - 1)
             (filter_id userId (Post.downVotedBy post)) post
      else post in
    match castObjectId userId with
    | Some uid =>
        Voted (Post.set_up (Post.upVotes post1 + 1) (Post.upVotedBy post1 ++ [uid]) post1)
    | None => VoteCastError
    end.

(** Lines 190-204 of [downvotePost]. *)
Definition downvote_core (userId : string) (post : Post.t) : vote_step :=
  if includes_id userId (Post.downVotedBy post) then AlreadyVoted
  else
    let post1 :=
      if includes_id userId (Post.upVotedBy post)
      then Post.set_up (Post.upVotes post - 1)
             (filter_id userId (Post.upVotedBy post)) post
      else post in
    match castObjectId userId with
    | Some uid =>
        Voted (Post.set_down (Post.downVotes post1 + 1) (Post.downVotedBy post1 ++ [uid]) post1)
    | None => VoteCastError
    end.

(** The handler [upvotePost]: [postId] is the route parameter, [userId] is
    [req.user.user._id] of the verified token. *)
Definition upvotePost (postId userId : string) : handler Response :=
  let* pid := cast_or_throw postId in
  let* found := find_post pid in
  let* post := or_reply found (message 404 "Post not found") in
  match upvote_core userId post with
  | AlreadyVoted => reply (message 400 "You have already upvoted this post")
  | VoteCastError => throw CastError
  | Voted post' => save_post pid post' ;;; ret (json 200 (BPost pid post'))
  end.

Definition downvotePost (postId userId : string) : handler Response :=
  let* pid := cast_or_throw postId in
  let* found := find_post pid in
  let* post := or_reply found (message 404 "Post not found") in
  match downvote_core userId post with
  | AlreadyVoted => reply (message 400 "You have already downvoted this post")
  | VoteCastError => throw CastError
  | Voted post' => save_post pid post' ;;; ret (json 200 (BPost pid post'))
  end.

(** ** The contract *)

Inductive VoteState := NoVote | Upvoted | Downvoted.
Inductive Dir := Up | Down.

#[export] Instance VoteState_eq_dec : EqDecision VoteState.
Proof. solve_decision. Defined.

(** The spec's transition table (section 4.2): a repeated vote is refused,
    any other vote moves the user to the voted state. *)
Definition cast (s : VoteState) (d : Dir) : option VoteState :=
  match s, d with
  | Upvoted, Up | Downvoted, Down => None
  | _, Up => Some Upvoted
  | _, Down => Some Downvoted
  end.

(** The state of [u] on a post, read off its two lists. *)
Definition vstate (p : Post.t) (u : oid) : VoteState :=
  if includes u (Post.upVotedBy p) then Upvoted
  else if includes u (Post.downVotedBy p) then Downvoted
  else NoVote.

(** [cast] applied to user [u] of a whole vote assignment. *)
Definition spec_vote (f : oid -> VoteState) (u : oid) (d : Dir)
  : option (oid -> VoteState) :=
  match cast (f u) d with
  | Some s => Some (fun v => if decide (v = u) then s else f v)
  | None => None
  end.

Definition vote_core (d : Dir) : string -> Post.t -> vote_step :=
  match d with Up => upvote_core | Down => downvote_core end.

(** The invariant of section 3: no duplicates, no user in both lists,
    counters equal to the lengths, and every stored id a 96-bit ObjectId. *)
Definition vote_wf (p : Post.t) : Prop :=
  NoDup (Post.upVotedBy p) /\ NoDup (Post.downVotedBy p)
  /\ Forall (fun u => u ∉ Post.downVotedBy p) (Post.upVotedBy p)
  /\ Post.upVotes p = Z.of_nat (length (Post.upVotedBy p))
  /\ Post.downVotes p = Z.of_nat (length (Post.downVotedBy p))
  /\ Forall (fun u => (u < oid_bound)%N) (Post.upVotedBy p ++ Post.downVotedBy p).

#[export] Instance vote_wf_dec (p : Post.t) : Decision (vote_wf p).
Proof. unfold vote_wf. apply _. Defined.

(** Every post of the database satisfies [vote_wf]. *)
Definition world_votes_wf (w : World) : Prop :=
  map_Forall (fun _ p => vote_wf p) (posts w).

(** Swap the up and down halves of a post. *)
Definition mirror (p : Post.t) : Post.t :=
  Post.mk (Post.author p) (Post.title p) (Post.content p) (Post.category p)
    (Post.downVotes p) (Post.upVotes p) (Post.downVotedBy p) (Post.upVotedBy p)
    (Post.imageUrl p) (Post.comments p) (Post.lastUpdated p).

Definition map_step (f : Post.t -> Post.t) (r : vote_step) : vote_step :=
  match r with Voted p => Voted (f p) | r => r end.

(** ** Helper lemmas *)

Section Ids.
Context (u : oid) (Hu : (u < oid_bound)%N).

Lemma includes_id_hex (l : list oid) :
  Forall (fun v => (v < oid_bound)%N) l ->
  includes_id (toHexString u) l = includes u l.
Proof.
  unfold includes_id. induction 1 as [|v l Hv Hl IH]; [done|]. simpl.
  rewrite IH. repeat case_decide; subst; try done.
  exfalso. eauto using toHexString_inj.
Qed.

Lemma filter_id_hex (l : list oid) :
  Forall (fun v => (v < oid_bound)%N) l ->
  filter_id (toHexString u) l = remove_all u l.
Proof.
  unfold filter_id, remove_all. induction 1 as [|v l Hv Hl IH]; [done|]. simpl.
  rewrite IH. repeat case_bool_decide; subst; try done.
  exfalso. eauto using toHexString_inj.
Qed.
End Ids.

Lemma mirror_involutive (p : Post.t) : mirror (mirror p) = p.
Proof. by destruct p. Qed.

Lemma mirror_set_up (n : Z) (l : list oid) (p : Post.t) :
  mirror (Post.set_up n l p) = Post.set_down n l (mirror p).
Proof. reflexivity. Qed.

Lemma mirror_set_down (n : Z) (l : list oid) (p : Post.t) :
  mirror (Post.set_down n l p) = Post.set_up n l (mirror p).
Proof. reflexivity. Qed.

Lemma vote_wf_mirror (p : Post.t) : vote_wf p -> vote_wf (mirror p).
Proof.
  unfold vote_wf, mirror; simpl. intros (Hu & Hd & Hdis & Hcu & Hcd & Hb).
  rewrite !Forall_forall in Hdis |- *. rewrite Forall_app in Hb |- *.
  split_and!; try tauto. intros x Hx Hx'. by apply (Hdis x Hx').
Qed.

#[export] Hint Resolve vote_wf_mirror : hosp.

(** The vote update of [upvote_core] on ids, once the string comparisons
    are known to decide equality of ids. *)
Definition upvote_ids (u : oid) (p : Post.t) : Post.t :=
  let p1 :=
    if includes u (Post.downVotedBy p)
    then Post.set_down (Post.downVotes p - 1) (remove_all u (Post.downVotedBy p)) p
    else p in
  Post.set_up (Post.upVotes p1 + 1) (Post.upVotedBy p1 ++ [u]) p1.

Definition ids_bounded (p : Post.t) : Prop :=
  Forall (fun u => (u < oid_bound)%N) (Post.upVotedBy p ++ Post.downVotedBy p).

Lemma vote_wf_bounded (p : Post.t) : vote_wf p -> ids_bounded p.
Proof. unfold vote_wf, ids_bounded. tauto. Qed.

#[export] Hint Resolve vote_wf_bounded : hosp.

(** [upvote_core] on the token's id string of a 96-bit id. *)
Lemma upvote_core_hex (u : oid) (p : Post.t) :
  (u < oid_bound)%N -> ids_bounded p ->
  upvote_core (toHexString u) p =
  if includes u (Post.upVotedBy p) then AlreadyVoted else Voted (upvote_ids u p).
Proof.
  intros Hu Hb. unfold ids_bounded in Hb. rewrite Forall_app in Hb. destruct Hb as [Hup Hdown].
  unfold upvote_core, upvote_ids.
  rewrite !includes_id_hex, filter_id_hex, toHexString_cast by done.
  destruct (includes u (Post.upVotedBy p)); [done|].
  by destruct (includes u (Post.downVotedBy p)).
Qed.

Lemma downvote_core_mirror (s : string) (p : Post.t) :
  downvote_core s p = map_step mirror (upvote_core s (mirror p)).
Proof.
  unfold downvote_core, upvote_core. simpl.
  destruct (includes_id s (Post.downVotedBy p)); [done|].
  destruct (includes_id s (Post.upVotedBy p)), (castObjectId s); done.
Qed.

(** The state of a user is determined by its membership of the two lists. *)
Lemma vstate_spec (p : Post.t) (u : oid) :
  vstate p u =
  if decide (u ∈ Post.upVotedBy p) then Upvoted
  else if decide (u ∈ Post.downVotedBy p) then Downvoted else NoVote.
Proof.
  unfold vstate. destruct (includes u (Post.upVotedBy p)) eqn:E1;
    [apply includes_spec in E1 | apply includes_false in E1]; case_decide; try done.
  destruct (includes u (Post.downVotedBy p)) eqn:E2;
    [apply includes_spec in E2 | apply includes_false in E2]; case_decide; done.
Qed.

Ltac includes_to_elem :=
  repeat match goal with
  | |- context [includes ?x ?l] =>
      let E := fresh "E" in
      destruct (includes x l) eqn:E;
      [apply includes_spec in E | apply includes_false in E]
  end.

(** One upvote on a well-formed post by a user who has not upvoted. *)
Lemma upvote_ids_wf (u : oid) (p : Post.t) :
  (u < oid_bound)%N -> vote_wf p -> u ∉ Post.upVotedBy p -> vote_wf (upvote_ids u p).
Proof.
  intros Hu (Hnu & Hnd & Hdis & Hcu & Hcd & Hb) Hnot. rewrite Forall_forall in Hdis.
  rewrite Forall_app in Hb. destruct Hb as [Hbu Hbd].
  unfold upvote_ids, vote_wf; includes_to_elem; simpl.
  - split_and!; eauto with hosp.
    + apply Forall_app; split; [|constructor; [rewrite elem_of_remove_all; naive_solver|done]].
      apply Forall_forall. intros x Hx. rewrite elem_of_remove_all. naive_solver.
    + rewrite length_app; simpl. lia.
    + rewrite length_remove_all by done. destruct (Post.downVotedBy p) eqn:Hd.
      * by apply not_elem_of_nil in E.
      * simpl in *. lia.
    + rewrite !Forall_app. split_and!; [done|by constructor|].
      apply Forall_forall. intros x Hx. apply elem_of_remove_all in Hx as [Hx _].
      by rewrite Forall_forall in Hbd; apply Hbd.
  - split_and!; eauto with hosp.
    + apply Forall_app; split; [by apply Forall_forall|by constructor].
    + rewrite length_app; simpl. lia.
    + rewrite !Forall_app. split_and!; [done|by constructor|done].
Qed.

(** The new vote state of every user after one upvote by [u]. *)
Lemma vstate_upvote_ids (u v : oid) (p : Post.t) :
  vstate (upvote_ids u p) v = if decide (v = u) then Upvoted else vstate p v.
Proof.
  rewrite !vstate_spec. unfold upvote_ids. includes_to_elem; simpl;
    repeat case_decide;
    rewrite ?elem_of_app, ?list_elem_of_singleton, ?elem_of_remove_all in *;
    naive_solver.
Qed.

(** The vote of direction [d] on ids: a downvote is an upvote on the
    mirrored post. *)
Definition vote_ids (d : Dir) (u : oid) (p : Post.t) : Post.t :=
  match d with
  | Up => upvote_ids u p
  | Down => mirror (upvote_ids u (mirror p))
  end.

Definition swap_state (s : VoteState) : VoteState :=
  match s with Upvoted => Downvoted | Downvoted => Upvoted | NoVote => NoVote end.

Definition dir_state (d : Dir) : VoteState :=
  match d with Up => Upvoted | Down => Downvoted end.

Lemma vstate_mirror (p : Post.t) (v : oid) :
  vote_wf p -> vstate (mirror p) v = swap_state (vstate p v).
Proof.
  intros (_ & _ & Hdis & _). rewrite Forall_forall in Hdis.
  rewrite !vstate_spec. unfold mirror; simpl. repeat case_decide; naive_solver.
Qed.

Lemma cast_none_iff (p : Post.t) (u : oid) (d : Dir) :
  vote_wf p ->
  cast (vstate p u) d = None <->
  u ∈ (match d with Up => Post.upVotedBy p | Down => Post.downVotedBy p end).
Proof.
  intros (_ & _ & Hdis & _). rewrite Forall_forall in Hdis.
  rewrite vstate_spec. destruct d; repeat case_decide; naive_solver.
Qed.

(** The decision of both handlers, on ids. *)
Lemma vote_core_hex (d : Dir) (u : oid) (p : Post.t) :
  (u < oid_bound)%N -> vote_wf p ->
  vote_core d (toHexString u) p =
  match cast (vstate p u) d with None => AlreadyVoted | Some _ => Voted (vote_ids d u p) end.
Proof.
  intros Hu Hwf. pose proof (cast_none_iff p u d Hwf) as Hc.
  destruct d; simpl.
  - rewrite upvote_core_hex by eauto with hosp. includes_to_elem;
      destruct (cast (vstate p u) Up); naive_solver.
  - rewrite downvote_core_mirror, upvote_core_hex by eauto with hosp. simpl.
    includes_to_elem; destruct (cast (vstate p u) Down); naive_solver.
Qed.

Lemma vote_ids_wf (d : Dir) (u : oid) (p : Post.t) :
  (u < oid_bound)%N -> vote_wf p -> cast (vstate p u) d <> None ->
  vote_wf (vote_ids d u p).
Proof.
  intros Hu Hwf Hc. rewrite cast_none_iff in Hc by done.
  destruct d; simpl; [by apply upvote_ids_wf|].
  apply vote_wf_mirror, upvote_ids_wf; eauto with hosp.
Qed.

Lemma vstate_vote_ids (d : Dir) (u v : oid) (p : Post.t) :
  (u < oid_bound)%N -> vote_wf p -> cast (vstate p u) d <> None ->
  vstate (vote_ids d u p) v = if decide (v = u) then dir_state d else vstate p v.
Proof.
  intros Hu Hwf Hc. destruct d; simpl; [apply vstate_upvote_ids|].
  pose proof (vote_ids_wf Down u p Hu Hwf Hc) as Hwf'. simpl in Hwf'.
  rewrite <- (mirror_involutive (upvote_ids _ _)) in Hwf'.
  apply vote_wf_mirror in Hwf'. rewrite mirror_involutive in Hwf'.
  rewrite vstate_mirror, vstate_upvote_ids by done.
  case_decide; [done|]. rewrite vstate_mirror by done. by destruct (vstate p v).
Qed.

(** ** The handlers on the database *)

Definition votePost (d : Dir) : string -> string -> handler Response :=
  match d with Up => upvotePost | Down => downvotePost end.

Definition already_msg (d : Dir) : string :=
  match d with
  | Up => "You have already upvoted this post"
  | Down => "You have already downvoted this post"
  end.

(** What a vote request does, path by path. *)
Lemma votePost_eq (d : Dir) (s uid : string) (w : World) :
  votePost d s uid w =
  match castObjectId s with
  | None => (w, Raise CastError)
  | Some pid =>
      match posts w !! pid with
      | None => (w, Reply (message 404 "Post not found"))
      | Some p =>
          match vote_core d uid p with
          | AlreadyVoted => (w, Reply (message 400 (already_msg d)))
          | VoteCastError => (w, Raise CastError)
          | Voted p' =>
              if Post.validate p' then
                (set_posts (<[pid := p']> (posts w)) w, Cont (json 200 (BPost pid p')))
              else (w, Raise ValidationError)
          end
      end
  end.
Proof.
  destruct d; cbn [votePost vote_core]; unfold upvotePost, downvotePost, cast_or_throw;
    (destruct (castObjectId s) as [pid|]; [|reflexivity]);
    unfold bind, ret, find_post, or_reply, reply, throw; cbn;
    (destruct (posts w !! pid) as [p|]; cbn; [|reflexivity]).
  - destruct (upvote_core uid p); cbn; try reflexivity.
    unfold save_post. by destruct (Post.validate _).
  - destruct (downvote_core uid p); cbn; try reflexivity.
    unfold save_post. by destruct (Post.validate _).
Qed.

Lemma validate_vote_ids (d : Dir) (u : oid) (p : Post.t) :
  Post.validate (vote_ids d u p) = Post.validate p.
Proof.
  destruct d; unfold vote_ids, upvote_ids;
    [destruct (includes u (Post.downVotedBy p)) | destruct (includes u (Post.downVotedBy (mirror p)))];
    reflexivity.
Qed.

(** ** Properties of the vote engine *)

(** C1 (refinement).  On a post satisfying [vote_wf], the decision of both
    vote handlers implements the spec's state machine: the vote is refused
    as [AlreadyVoted] exactly when [cast] refuses it, and otherwise the vote
    state of every user afterwards is the one [spec_vote] gives: the voter
    moves to the voted state, every other user keeps theirs. *)
Theorem vote_refines_spec (d : Dir) (u : oid) (p : Post.t) :
  (u < oid_bound)%N -> vote_wf p ->
  match vote_core d (toHexString u) p, spec_vote (vstate p) u d with
  | AlreadyVoted, None => True
  | Voted p', Some f => forall v, vstate p' v = f v
  | _, _ => False
  end.
Proof.
  intros Hu Hwf. rewrite vote_core_hex by done. unfold spec_vote.
  destruct (cast (vstate p u) d) as [s|] eqn:Hc; [|done].
  assert (Hs : s = dir_state d) by (revert Hc; destruct d, (vstate p u); simpl; congruence).
  intros v. rewrite vstate_vote_ids by (done || congruence). by subst.
Qed.

(** C2 (invariant).  A successful vote keeps [vote_wf]: no duplicate voter,
    no voter in both lists, [upVotes]/[downVotes] equal to the list lengths
    (so never negative), every id a 96-bit ObjectId. *)
Theorem vote_preserves_wf (d : Dir) (u : oid) (p p' : Post.t) :
  (u < oid_bound)%N -> vote_wf p -> vote_core d (toHexString u) p = Voted p' ->
  vote_wf p'.
Proof.
  intros Hu Hwf. rewrite vote_core_hex by done.
  destruct (cast (vstate p u) d) eqn:Hc; intros [= <-].
  apply vote_ids_wf; congruence.
Qed.

(** The list and the counter a vote of direction [d] writes. *)
Definition voters (d : Dir) (p : Post.t) : list oid :=
  match d with Up => Post.upVotedBy p | Down => Post.downVotedBy p end.
Definition count (d : Dir) (p : Post.t) : Z :=
  match d with Up => Post.upVotes p | Down => Post.downVotes p end.
Definition opp (d : Dir) : Dir := match d with Up => Down | Down => Up end.

Lemma vote_ids_fields (d : Dir) (u : oid) (p : Post.t) :
  voters d (vote_ids d u p) = voters d p ++ [u]
  /\ count d (vote_ids d u p) = (count d p + 1)%Z
  /\ voters (opp d) (vote_ids d u p) =
       (if includes u (voters (opp d) p) then remove_all u (voters (opp d) p)
        else voters (opp d) p)
  /\ count (opp d) (vote_ids d u p) =
       (if includes u (voters (opp d) p) then count (opp d) p - 1 else count (opp d) p)%Z.
Proof.
  destruct d; unfold vote_ids, upvote_ids; simpl;
    [destruct (includes u (Post.downVotedBy p)) | destruct (includes u (Post.upVotedBy p))];
    done.
Qed.

(** [vstate] names the list a voter is in, for a post where [u] may vote. *)
Lemma vstate_opp (d : Dir) (u : oid) (p : Post.t) :
  vote_wf p -> cast (vstate p u) d <> None ->
  (vstate p u = dir_state (opp d) <-> u ∈ voters (opp d) p).
Proof.
  intros Hwf Hc. rewrite cast_none_iff in Hc by done.
  rewrite vstate_spec. destruct d; simpl in *; repeat case_decide; naive_solver.
Qed.

(** C3 (invariant).  Every vote request, whatever its outcome, keeps
    [vote_wf] on every post of the database, when the voter's id string is
    the [toString()] of a 96-bit ObjectId (as the login token carries). *)
Theorem votePost_preserves_wf (d : Dir) (s : string) (u : oid) (w : World) :
  (u < oid_bound)%N -> world_votes_wf w ->
  world_votes_wf (fst (run (votePost d s (toHexString u)) w)).
Proof.
  intros Hu Hw. unfold run, run_handler. rewrite votePost_eq.
  destruct (castObjectId s) as [pid|]; [|done].
  destruct (posts w !! pid) as [p|] eqn:Hp; [|done].
  pose proof (Hw pid p Hp) as Hwf. simpl in Hwf.
  rewrite vote_core_hex by done. destruct (cast (vstate p u) d) eqn:Hc; [|done].
  destruct (Post.validate _); [|done]. simpl.
  apply map_Forall_insert_2; [|done]. apply vote_ids_wf; congruence.
Qed.

(** C4 (error).  A repeated vote (the state machine refuses it) replies
    400 with the handler's message and leaves the database unchanged. *)
Theorem votePost_already_voted (d : Dir) (pid u : oid) (p : Post.t) (w : World) :
  (pid < oid_bound)%N -> (u < oid_bound)%N ->
  posts w !! pid = Some p -> vote_wf p -> cast (vstate p u) d = None ->
  run (votePost d (toHexString pid) (toHexString u)) w = (w, message 400 (already_msg d)).
Proof.
  intros Hpid Hu Hp Hwf Hc. unfold run, run_handler.
  rewrite votePost_eq, toHexString_cast, Hp, vote_core_hex, Hc by done. done.
Qed.

(** A vote on a well-formed id with no post replies 404 and changes
    nothing. *)
Theorem votePost_not_found (d : Dir) (pid : oid) (uid : string) (w : World) :
  (pid < oid_bound)%N -> posts w !! pid = None ->
  run (votePost d (toHexString pid) uid) w = (w, message 404 "Post not found").
Proof.
  intros Hpid Hp. unfold run, run_handler. by rewrite votePost_eq, toHexString_cast, Hp.
Qed.

(** A post id that is not 24 hexadecimal digits makes [findById] throw a
    [CastError]: the reply is the generic 500 and nothing changes. *)
Theorem votePost_malformed_id (d : Dir) (s uid : string) (w : World) :
  castObjectId s = None -> run (votePost d s uid) w = (w, error500).
Proof. intros Hs. unfold run, run_handler. by rewrite votePost_eq, Hs. Qed.

(** C7 (safety).  A vote request writes at most the voted post: users,
    comments, the id generator, the clock and every other post are left
    as they were. *)
Theorem votePost_frame (d : Dir) (s uid : string) (w : World) :
  let w' := fst (run (votePost d s uid) w) in
  users w' = users w /\ comments w' = comments w /\ next_oid w' = next_oid w
  /\ now w' = now w
  /\ forall q, castObjectId s <> Some q -> posts w' !! q = posts w !! q.
Proof.
  unfold run, run_handler. rewrite votePost_eq.
  destruct (castObjectId s) as [pid|]; [|done].
  destruct (posts w !! pid) as [p|]; [|done].
  destruct (vote_core d uid p); try done. destruct (Post.validate _); [|done].
  simpl. split_and!; try done. intros q Hq. apply lookup_insert_ne. congruence.
Qed.

(** C8 (functional).  A vote the state machine allows, on a valid stored
    post, replies 200 with the updated post, which is written back: the
    voter is added to the voted list and its counter grows by one; if the
    voter was in the opposite list, it is removed from it and that counter
    drops by one (spec section 8: upvote then downvote). *)
Theorem votePost_success (d : Dir) (pid u : oid) (p : Post.t) (w : World) :
  (pid < oid_bound)%N -> (u < oid_bound)%N ->
  posts w !! pid = Some p -> vote_wf p -> Post.validate p = true ->
  cast (vstate p u) d <> None ->
  exists p',
    run (votePost d (toHexString pid) (toHexString u)) w
      = (set_posts (<[pid := p']> (posts w)) w, json 200 (BPost pid p'))
    /\ (u ∈ voters d p') /\ (u ∉ voters (opp d) p')
    /\ count d p' = (count d p + 1)%Z
    /\ count (opp d) p' =
         (count (opp d) p - if decide (vstate p u = dir_state (opp d)) then 1 else 0)%Z.
Proof.
  intros Hpid Hu Hp Hwf Hval Hc. exists (vote_ids d u p).
  destruct (vote_ids_fields d u p) as (Hv & Hn & Hov & Hon).
  pose proof (vstate_opp d u p Hwf Hc) as Hopp.
  unfold run, run_handler. rewrite votePost_eq, toHexString_cast, Hp, vote_core_hex by done.
  destruct (cast (vstate p u) d) eqn:Hcd; [|done]. simpl. rewrite validate_vote_ids, Hval.
  split_and!; [done| rewrite Hv; set_solver | |done|].
  - rewrite Hov. includes_to_elem; [|done]. intros Hx. apply elem_of_remove_all in Hx. naive_solver.
  - rewrite Hon. includes_to_elem; case_decide; try lia; naive_solver.
Qed.

(** ** The scenario of spec section 8 *)

(** User A (id 1) has written post P (id 3); user B (id 2) votes on it. *)
Definition scenario_post : Post.t :=
  Post.mk (Some 1%N) "Kidney stones" "What helped you?" "Kidney" 0 0 [] []
    (Some "https://res.cloudinary.com/demo/p3.png") [] (Some 0%Z).

Definition scenario_world : World :=
  mkWorld
    (<[1%N := User.mk "alice" "alice@example.com" "$2a$10$hash" User.default_imageUrl]>
      {[2%N := User.mk "bob" "bob@example.com" "$2a$10$hash" User.default_imageUrl]})
    {[3%N := scenario_post]} ∅ 4 0.

(** The scenario of spec section 8, evaluated: B upvotes P (upVotes
    1, upVotedBy [B]), then downvotes it (upVotes 0, downVotes 1,
    upVotedBy [], downVotedBy [B]), then downvotes it again, which is
    refused with 400 and leaves the database as it was. *)
Example vote_scenario :
  let '(w1, r1) := run (upvotePost (toHexString 3) (toHexString 2)) scenario_world in
  let '(w2, r2) := run (downvotePost (toHexString 3) (toHexString 2)) w1 in
  let '(w3, r3) := run (downvotePost (toHexString 3) (toHexString 2)) w2 in
  status r1 = 200%Z
  /\ posts w1 !! 3%N = Some (Post.set_up 1 [2%N] scenario_post)
  /\ status r2 = 200%Z
  /\ posts w2 !! 3%N = Some (Post.set_down 1 [2%N] (Post.set_up 0 [] scenario_post))
  /\ r3 = message 400 "You have already downvoted this post"
  /\ w3 = w2.
Proof. vm_compute. split_and!; reflexivity. Qed.

(** ** Witnesses *)

Lemma scenario_post_wf : vote_wf scenario_post.
Proof. decide_by_eval. Qed.

Lemma vote_refines_spec_witness :
  match vote_core Down (toHexString 2) scenario_post,
        spec_vote (vstate scenario_post) 2 Down with
  | AlreadyVoted, None => True
  | Voted p', Some f => forall v, vstate p' v = f v
  | _, _ => False
  end.
Proof. apply vote_refines_spec; [vm_compute; reflexivity | decide_by_eval]. Defined.

Lemma vote_preserves_wf_witness :
  vote_wf (Post.set_up 1 [2%N] scenario_post).
Proof.
  apply (vote_preserves_wf Up 2 scenario_post);
    [vm_compute; reflexivity | decide_by_eval | vm_compute; reflexivity].
Defined.

Lemma votePost_preserves_wf_witness :
  world_votes_wf (fst (run (votePost Down (toHexString 3) (toHexString 2)) scenario_world)).
Proof.
  apply votePost_preserves_wf; [vm_compute; reflexivity|].
  unfold world_votes_wf. apply map_Forall_singleton. decide_by_eval.
Defined.

Lemma votePost_already_voted_witness :
  run (votePost Up (toHexString 3) (toHexString 2))
      (set_posts {[3%N := Post.set_up 1 [2%N] scenario_post]} scenario_world)
  = (set_posts {[3%N := Post.set_up 1 [2%N] scenario_post]} scenario_world,
     message 400 (already_msg Up)).
Proof.
  apply (votePost_already_voted Up 3 2 (Post.set_up 1 [2%N] scenario_post));
    [vm_compute; reflexivity | vm_compute; reflexivity | reflexivity | decide_by_eval
    | vm_compute; reflexivity].
Defined.

Lemma votePost_not_found_witness :
  run (votePost Up (toHexString 5) (toHexString 2)) scenario_world
  = (scenario_world, message 404 "Post not found").
Proof. apply votePost_not_found; vm_compute; reflexivity. Defined.

Lemma votePost_malformed_id_witness :
  run (votePost Down "not-an-id" (toHexString 2)) scenario_world = (scenario_world, error500).
Proof. apply votePost_malformed_id. vm_compute. reflexivity. Defined.

Lemma votePost_success_witness :
  exists p',
    run (votePost Up (toHexString 3) (toHexString 2)) scenario_world
      = (set_posts (<[3%N := p']> (posts scenario_world)) scenario_world,
         json 200 (BPost 3 p'))
    /\ (2%N ∈ voters Up p') /\ (2%N ∉ voters (opp Up) p')
    /\ count Up p' = (count Up scenario_post + 1)%Z
    /\ count (opp Up) p' =
         (count (opp Up) scenario_post
          - if decide (vstate scenario_post 2 = dir_state (opp Up)) then 1 else 0)%Z.
Proof.
  apply votePost_success;
    [vm_compute; reflexivity | vm_compute; reflexivity | reflexivity | decide_by_eval
    | vm_compute; reflexivity | vm_compute; discriminate].
Defined.
