(* ===== verification/Concurrency.v ===== *)
(** * Concurrency: vote requests interleaved at their [await]s

    Node runs the controllers of concurrent requests on one thread, but
    every [await] lets another request run.  upvotePost and downvotePost
    (controllers/postController.ts lines 141-175 and 178-212) await twice
    on the database: [await Post.findById(postId)] reads the post, and
    [await post.save()] writes back the document computed from that read.
    A vote request is therefore a process of two atomic phases:
    [vote_load] (lines 147-150) and [vote_store] (lines 152-171, the
    update of the loaded document, its save and the reply).  A
    configuration is the database and the processes of the requests in
    flight; a schedule is the sequence of processes that take their next
    phase.  Run without interleaving, a process is exactly [votePost]
    ([proc_sequential]).

    The spec (section 5) requires a vote to be a single atomic update so
    that concurrent votes are not lost; the read-then-save of the code is
    not, and [concurrent_votes_lost] exhibits the lost update on every
    post. *)

From S2P Require Import Prelude ObjectId Models Votes.
From stdpp Require Import base list gmap strings.
From Stdlib Require Import ZArith.

(** [const post = await Post.findById(postId); if (!post) return 404]. *)
Definition vote_load (postId : string) : handler (oid * Post.t) :=
  let* pid := cast_or_throw postId in
  let* found := find_post pid in
  let* post := or_reply found (message 404 "Post not found") in
  ret (pid, post).

(** The checks and update of the loaded document, [await post.save()]
    and the 200 reply with it. *)
Definition vote_store (d : Dir) (userId : string) (loaded : oid * Post.t) : handler Response :=
  match vote_core d userId loaded.2 with
  | AlreadyVoted => reply (message 400 (already_msg d))
  | VoteCastError => throw CastError
  | Voted post' => save_post loaded.1 post' ;;; ret (json 200 (BPost loaded.1 post'))
  end.

(** A vote request in flight: not started, suspended at [save] with the
    document it read, or answered. *)
Inductive proc :=
| Start (d : Dir) (postId userId : string)
| Loaded (d : Dir) (userId : string) (loaded : oid * Post.t)
| Done (r : Response).

(** The next phase of a process, in the controller's [try]/[catch]. *)
Definition proc_step (pr : proc) (w : World) : World * proc :=
  match pr with
  | Start d postId userId =>
      match vote_load postId w with
      | (w', Cont l) => (w', Loaded d userId l)
      | (w', Reply r) => (w', Done r)
      | (w', Raise _) => (w', Done error500)
      end
  | Loaded d userId l => let '(w', r) := run (vote_store d userId l) w in (w', Done r)
  | Done r => (w, Done r)
  end.

Definition config : Type := World * list proc.

(** Process [i] takes its next phase; an index with no process does
    nothing. *)
Definition sched_step (c : config) (i : nat) : config :=
  match c.2 !! i with
  | Some pr => let '(w', pr') := proc_step pr c.1 in (w', <[i := pr']> c.2)
  | None => c
  end.

Definition run_schedule (sch : list nat) (c : config) : config := foldl sched_step c sch.

(** What the read leaves: the post [findById] found, or the 404. *)
Definition load_result (d : Dir) (u : string) (a : oid) (o : option Post.t) : proc :=
  match o with
  | Some p => Loaded d u (a, p)
  | None => Done (message 404 "Post not found")
  end.

(** What the save does to the database, and what it replies, for the
    document [q] read: neither depends on the database. *)
Definition store_world (d : Dir) (u : string) (a : oid) (q : Post.t) (w : World) : World :=
  match vote_core d u q with
  | Voted q' => if Post.validate q' then set_posts (<[a := q']> (posts w)) w else w
  | _ => w
  end.

Definition store_reply (d : Dir) (u : string) (a : oid) (q : Post.t) : Response :=
  match vote_core d u q with
  | AlreadyVoted => message 400 (already_msg d)
  | VoteCastError => error500
  | Voted q' => if Post.validate q' then json 200 (BPost a q') else error500
  end.

(** ** Lemmas *)

Lemma sched_step_0 (w : World) (a b : proc) :
  sched_step (w, [a; b]) 0 = ((proc_step a w).1, [(proc_step a w).2; b]).
Proof. unfold sched_step. simpl. by destruct (proc_step a w). Qed.

Lemma sched_step_1 (w : World) (a b : proc) :
  sched_step (w, [a; b]) 1 = ((proc_step b w).1, [a; (proc_step b w).2]).
Proof. unfold sched_step. simpl. by destruct (proc_step b w). Qed.

Lemma sched_step_single (w : World) (a : proc) :
  sched_step (w, [a]) 0 = ((proc_step a w).1, [(proc_step a w).2]).
Proof. unfold sched_step. simpl. by destruct (proc_step a w). Qed.

(** Without interleaving, the two phases are [votePost]. *)
Lemma proc_sequential (d : Dir) (s u : string) (w : World) :
  run_schedule [0; 0] (w, [Start d s u]) = ((run (votePost d s u) w).1, [Done (run (votePost d s u) w).2]).
Proof.
  unfold run_schedule. simpl foldl. rewrite !sched_step_single.
  unfold run, run_handler. rewrite votePost_eq. unfold proc_step, vote_load, vote_store.
  unfold bind, cast_or_throw, find_post, or_reply, ret, reply, throw; simpl.
  destruct (castObjectId s) as [pid|]; [|done]. simpl.
  destruct (posts w !! pid) as [p|]; [|done]. simpl.
  unfold run, run_handler, bind, reply, throw, ret, save_post; simpl.
  destruct (vote_core d u p) as [|p'|]; try done. simpl. by destruct (Post.validate p').
Qed.

(** The read of a stored post. *)
Lemma proc_step_load (d : Dir) (pid : oid) (p : Post.t) (s : string) (w : World) :
  (pid < oid_bound)%N -> posts w !! pid = Some p ->
  proc_step (Start d (toHexString pid) s) w = (w, Loaded d s (pid, p)).
Proof.
  intros Hpid Hp. unfold proc_step, vote_load, bind, cast_or_throw.
  rewrite toHexString_cast by done. simpl. unfold find_post. by rewrite Hp.
Qed.

(** The save of a vote the state machine allows on the document read,
    whatever the database holds by then. *)
Lemma proc_step_store (d : Dir) (pid u : oid) (q : Post.t) (w : World) :
  (u < oid_bound)%N -> vote_wf q -> Post.validate q = true -> cast (vstate q u) d <> None ->
  proc_step (Loaded d (toHexString u) (pid, q)) w
  = (set_posts (<[pid := vote_ids d u q]> (posts w)) w, Done (json 200 (BPost pid (vote_ids d u q)))).
Proof.
  intros Hu Hwf Hv Hc. unfold proc_step, run, run_handler, vote_store. simpl.
  rewrite vote_core_hex by done. destruct (cast (vstate q u) d); [|done].
  unfold bind, save_post, ret. rewrite validate_vote_ids, Hv. done.
Qed.

Lemma cast_novote (d : Dir) : cast NoVote d <> None.
Proof. by destruct d. Qed.

(** ** Properties *)

(** C9 (safety, a divergence from the spec).  Two users who have not
    voted on a valid post vote on it in the same direction at the same
    time.  When the second request reads the post before the first has
    saved it (schedule 0, 1, 0, 1), both get 200, yet the post's counter
    rises by one: the second save writes back a document computed from the
    stale read.  Run one after the other (schedule 0, 0, 1, 1), the same
    two requests raise it by two.  Spec section 5 asks for vote
    transitions that cannot lose concurrent votes. *)
Theorem concurrent_votes_lost (d : Dir) (w : World) (pid u1 u2 : oid) (p : Post.t) :
  (pid < oid_bound)%N -> (u1 < oid_bound)%N -> (u2 < oid_bound)%N -> u1 <> u2 ->
  posts w !! pid = Some p -> vote_wf p -> Post.validate p = true ->
  vstate p u1 = NoVote -> vstate p u2 = NoVote ->
  let procs := [Start d (toHexString pid) (toHexString u1); Start d (toHexString pid) (toHexString u2)] in
  (exists r1 r2, (run_schedule [0; 1; 0; 1] (w, procs)).2 = [Done r1; Done r2]
     /\ status r1 = 200%Z /\ status r2 = 200%Z)
  /\ option_map (count d) (posts (run_schedule [0; 1; 0; 1] (w, procs)).1 !! pid)
     = Some (count d p + 1)%Z
  /\ option_map (count d) (posts (run_schedule [0; 0; 1; 1] (w, procs)).1 !! pid)
     = Some (count d p + 2)%Z.
Proof.
  intros Hpid Hu1 Hu2 Hne Hp Hwf Hv Hs1 Hs2 procs.
  assert (Hc1 : cast (vstate p u1) d <> None) by (rewrite Hs1; apply cast_novote).
  assert (Hc2 : cast (vstate p u2) d <> None) by (rewrite Hs2; apply cast_novote).
  assert (Hinter : run_schedule [0; 1; 0; 1] (w, procs)
    = (set_posts (<[pid := vote_ids d u2 p]> (<[pid := vote_ids d u1 p]> (posts w)))
         (set_posts (<[pid := vote_ids d u1 p]> (posts w)) w),
       [Done (json 200 (BPost pid (vote_ids d u1 p))); Done (json 200 (BPost pid (vote_ids d u2 p)))])).
  { unfold run_schedule, procs. simpl foldl.
    rewrite sched_step_0, (proc_step_load _ pid p) by done; cbn [fst snd].
    rewrite sched_step_1, (proc_step_load _ pid p) by done; cbn [fst snd].
    rewrite sched_step_0, proc_step_store by done; cbn [fst snd].
    rewrite sched_step_1, proc_step_store by done; cbn [fst snd]. done. }
  set (p1 := vote_ids d u1 p).
  assert (Hwf1 : vote_wf p1) by (by apply vote_ids_wf).
  assert (Hv1 : Post.validate p1 = true) by (by unfold p1; rewrite validate_vote_ids).
  assert (Hc21 : cast (vstate p1 u2) d <> None).
  { unfold p1. rewrite vstate_vote_ids by done. by rewrite decide_False. }
  assert (Hseq : (run_schedule [0; 0; 1; 1] (w, procs)).1
    = set_posts (<[pid := vote_ids d u2 p1]> (<[pid := p1]> (posts w)))
        (set_posts (<[pid := p1]> (posts w)) w)).
  { unfold run_schedule, procs. simpl foldl.
    rewrite sched_step_0, (proc_step_load _ pid p) by done; cbn [fst snd].
    rewrite sched_step_0, proc_step_store by done; cbn [fst snd].
    rewrite sched_step_1, (proc_step_load _ pid p1) by (done || (cbn [posts set_posts]; apply lookup_insert_eq)); cbn [fst snd].
    rewrite sched_step_1, proc_step_store by done; cbn [fst snd]. done. }
  rewrite Hinter, Hseq. cbn [fst snd posts set_posts]. rewrite !lookup_insert_eq. cbn [option_map].
  split_and!; [by eexists _, _| |].
  - f_equal. apply vote_ids_fields.
  - f_equal. destruct (vote_ids_fields d u2 p1) as (_ & -> & _). unfold p1.
    destruct (vote_ids_fields d u1 p) as (_ & -> & _). lia.
Qed.

(** ** Requests on different posts *)

Lemma proc_step_start (d : Dir) (s u : string) (a : oid) (w : World) :
  castObjectId s = Some a -> proc_step (Start d s u) w = (w, load_result d u a (posts w !! a)).
Proof.
  intros Hs. unfold proc_step, vote_load, bind, cast_or_throw. rewrite Hs. simpl.
  unfold find_post, or_reply, ret, reply. by destruct (posts w !! a).
Qed.

Lemma proc_step_loaded (d : Dir) (u : string) (a : oid) (q : Post.t) (w : World) :
  proc_step (Loaded d u (a, q)) w = (store_world d u a q w, Done (store_reply d u a q)).
Proof.
  unfold proc_step, run, run_handler, vote_store, store_world, store_reply; simpl.
  destruct (vote_core d u q) as [|q'|]; try done.
  unfold bind, save_post, ret. by destruct (Post.validate q').
Qed.

Lemma posts_store_world_ne (d : Dir) (u : string) (a b : oid) (q : Post.t) (w : World) :
  a <> b -> posts (store_world d u a q w) !! b = posts w !! b.
Proof.
  intros Hab. unfold store_world. repeat case_match; try done. simpl.
  by rewrite lookup_insert_ne.
Qed.

Lemma store_world_commute (d1 d2 : Dir) (u1 u2 : string) (a b : oid) (q1 q2 : Post.t) (w : World) :
  a <> b ->
  store_world d1 u1 a q1 (store_world d2 u2 b q2 w) = store_world d2 u2 b q2 (store_world d1 u1 a q1 w).
Proof.
  intros Hab. unfold store_world.
  destruct (vote_core d1 u1 q1) as [|q1'|], (vote_core d2 u2 q2) as [|q2'|]; try done;
    destruct (Post.validate q1'), (Post.validate q2'); try done.
  simpl. unfold set_posts; simpl. f_equal. by apply insert_insert_ne.
Qed.

Lemma proc_step_done (r : Response) (w : World) : proc_step (Done r) w = (w, Done r).
Proof. done. Qed.

(** Run process 0 or 1 of two: its read, or its save. *)
Ltac sched_run Ha Hb :=
  repeat first
    [ rewrite sched_step_0 | rewrite sched_step_1
    | rewrite (proc_step_start _ _ _ _ _ Ha) | rewrite (proc_step_start _ _ _ _ _ Hb)
    | rewrite proc_step_loaded | rewrite proc_step_done | progress cbn [fst snd load_result]
    | rewrite posts_store_world_ne by congruence ].

(** C10 (equivalence).  Votes on two different posts do not interfere:
    every interleaving of the read and the save of the two requests leaves
    the same database and gives each request the same reply as running
    them one after the other.  Each request reads and writes only its own
    document, so the lost update of [concurrent_votes_lost] needs both on
    the same post. *)
Theorem votes_on_distinct_posts_commute (d1 d2 : Dir) (s1 s2 u1 u2 : string) (a b : oid)
    (w : World) (sch : list nat) :
  castObjectId s1 = Some a -> castObjectId s2 = Some b -> a <> b ->
  sch ∈ [[0; 0; 1; 1]; [0; 1; 0; 1]; [0; 1; 1; 0]; [1; 0; 0; 1]; [1; 0; 1; 0]; [1; 1; 0; 0]] ->
  run_schedule sch (w, [Start d1 s1 u1; Start d2 s2 u2])
  = run_schedule [0; 0; 1; 1] (w, [Start d1 s1 u1; Start d2 s2 u2]).
Proof.
  intros Ha Hb Hab Hsch. unfold run_schedule.
  repeat (apply elem_of_cons in Hsch as [->|Hsch]); [..|by apply elem_of_nil in Hsch];
    simpl foldl; sched_run Ha Hb;
    destruct (posts w !! a) as [p|] eqn:Hpa, (posts w !! b) as [q|] eqn:Hpb;
    do 2 (sched_run Ha Hb; rewrite ?Hpa, ?Hpb);
    rewrite ?(store_world_commute _ _ _ _ a b) by done; done.
Qed.

(** ** Witnesses *)

Lemma concurrent_votes_lost_witness :
  let procs := [Start Up (toHexString 3) (toHexString 1); Start Up (toHexString 3) (toHexString 2)] in
  (exists r1 r2, (run_schedule [0; 1; 0; 1] (scenario_world, procs)).2 = [Done r1; Done r2]
     /\ status r1 = 200%Z /\ status r2 = 200%Z)
  /\ option_map (count Up) (posts (run_schedule [0; 1; 0; 1] (scenario_world, procs)).1 !! 3%N)
     = Some (count Up scenario_post + 1)%Z
  /\ option_map (count Up) (posts (run_schedule [0; 0; 1; 1] (scenario_world, procs)).1 !! 3%N)
     = Some (count Up scenario_post + 2)%Z.
Proof.
  apply (concurrent_votes_lost Up scenario_world 3 1 2 scenario_post);
    [vm_compute; reflexivity | vm_compute; reflexivity | vm_compute; reflexivity | lia
    | vm_compute; reflexivity | | vm_compute; reflexivity | vm_compute; reflexivity
    | vm_compute; reflexivity].
  apply scenario_post_wf.
Defined.

Lemma votes_on_distinct_posts_commute_witness :
  castObjectId (toHexString 3) = Some 3%N /\ castObjectId (toHexString 4) = Some 4%N
  /\ run_schedule [1; 0; 1; 0]
       (scenario_world, [Start Up (toHexString 3) (toHexString 2); Start Down (toHexString 4) (toHexString 2)])
     = run_schedule [0; 0; 1; 1]
       (scenario_world, [Start Up (toHexString 3) (toHexString 2); Start Down (toHexString 4) (toHexString 2)]).
Proof.
  assert (H3 : castObjectId (toHexString 3) = Some 3%N) by (vm_compute; reflexivity).
  assert (H4 : castObjectId (toHexString 4) = Some 4%N) by (vm_compute; reflexivity).
  split_and!; [exact H3|exact H4|].
  apply (votes_on_distinct_posts_commute Up Down _ _ _ _ 3 4); [exact H3|exact H4|lia|].
  apply elem_of_cons. right. apply elem_of_cons. right. apply elem_of_cons. right.
  apply elem_of_cons. right. apply elem_of_cons. left. reflexivity.
Defined.
