(* ===== verification/Auth.v ===== *)
(** * Auth: controllers/authController.ts and middleware/auth.ts

    [registerUser], [loginUser] and [logoutUser] are translated statement by
    statement as handlers on the [World]; [verifyToken] is the middleware
    that guards every authenticated route.  They are written against two
    interfaces:
    - [PasswordHasher], what the code needs of bcryptjs: [genSalt(10)] is
      an input (a random salt), [hash(password, salt)] gives a non-empty
      string, and [compare(password, hash)] accepts exactly the passwords
      that agree with the hashed one on their first 72 bytes (bcrypt reads
      no further);
    - [JwtSecret] (file Js.v), the signing key of [jwt.sign]/[jwt.verify].

    The theorems: the two 409 conflicts and the indistinguishable 400 of a
    failed login, login after registration, what a token carries (no password; nothing at all
    about the user after registration), and the 72-byte truncation. *)

From S2P Require Import Prelude ObjectId Js Models.
From stdpp Require Import base list gmap strings.
From Stdlib Require Import ZArith Ascii.

(** The part of a password bcrypt hashes (the passwords are ASCII here, one
    byte per character). *)
Definition bcrypt_prefix (s : string) : string := String.substring 0 72 s.

Class PasswordHasher := {
  bcrypt_hash : string -> N -> string;
  bcrypt_compare : string -> string -> bool;
  bcrypt_hash_nonempty : forall pw salt, bcrypt_hash pw salt <> "";
  bcrypt_compare_hash : forall pw pw' salt,
    bcrypt_compare pw (bcrypt_hash pw' salt) = bool_decide (bcrypt_prefix pw = bcrypt_prefix pw')
}.

(** The lean user document minus its password, as the login code builds it
    with [const { password: pass, ...rest } = authenticUser]. *)
Definition user_rest (id : oid) (u : User.t) : jsval :=
  JObj [("_id", JOid id); ("username", JStr (User.username u));
        ("email", JStr (User.email u)); ("imageUrl", JStr (User.imageUrl u));
        ("__v", JNum 0)].

(** [req.user.user._id]: [None] is the [TypeError] of reading [_id] of
    [undefined]. *)
Definition req_user_id (decoded : jsval) : option jsval :=
  match get_prop decoded "user" with
  | Some u => get_prop u "_id"
  | None => None
  end.

(** What [verifyToken] does with the [access_token] cookie. *)
Inductive auth_result :=
| Authenticated (decoded : jsval)
| Unauthorized.

(** [res.sendStatus(401)]. *)
Definition unauthorized : Response := mkResponse 401 BStatusText KeepCookie.

Section Controllers.
Context `{PasswordHasher} `{JwtSecret}.

(** registerUser (lines 6-46).  [salt] is the value [genSalt(10)] returns.
    Note line 35: the payload is [{ user: registerUser }], the handler
    function itself, not the user found on line 28. *)
Definition registerUser (username email password : string) (salt : N) : handler Response :=
  let* existingEmail := find_user_by (fun u => bool_decide (User.email u = email)) in
  match existingEmail with
  | Some _ => reply (message 409 "User email already exists")
  | None =>
  let* existingUsername := find_user_by (fun u => bool_decide (User.username u = username)) in
  match existingUsername with
  | Some _ => reply (message 409 "Username already exists")
  | None =>
  let* id := fresh_oid in
  let newUser := User.mk username email password User.default_imageUrl in
  let newUser := User.set_password (bcrypt_hash password salt) newUser in
  save_user id newUser ;;;
  let* registeredUser := find_user_by (fun u => bool_decide (User.email u = email)) in
  match registeredUser with
  | None => reply (message 404 "User not found")
  | Some (rid, ru) =>
  let* t := clock in
  let token := jwt_sign t (JObj [("user", JFun)]) in
  ret (mkResponse 201 (BUser (public_user rid ru)) (SetCookie token))
  end
  end
  end.

(** loginUser (lines 48-77): both failures give the same reply. *)
Definition loginUser (username password : string) : handler Response :=
  let* authenticUser := find_user_by (fun u => bool_decide (User.username u = username)) in
  match authenticUser with
  | None => reply (message 400 "Invalid credentials")
  | Some (id, u) =>
      if negb (bcrypt_compare password (User.password u))
      then reply (message 400 "Invalid credentials")
      else
        let* t := clock in
        let token := jwt_sign t (JObj [("user", user_rest id u)]) in
        ret (mkResponse 201 (BUser (public_user id u)) (SetCookie token))
  end.

(** logoutUser (lines 79-89). *)
Definition logoutUser : handler Response :=
  ret (mkResponse 200 (BMessage "Successfully logged out") ClearCookie).

(** verifyToken (middleware/auth.ts, lines 12-28): no cookie or a token
    that fails verification is a 401; otherwise the decoded payload becomes
    [req.user]. *)
Definition verifyToken (access_token : option Jwt) : auth_result :=
  match access_token with
  | None => Unauthorized
  | Some t =>
      match jwt_verify t with
      | Some decoded => Authenticated decoded
      | None => Unauthorized
      end
  end.
End Controllers.

(** No user satisfies [P]. *)
Definition no_user (w : World) (P : User.t -> Prop) : Prop :=
  map_Forall (fun _ u => ~ P u) (users w).

(** ** Lemmas on [find_user_by] *)

Lemma find_user_by_None (P : User.t -> bool) (m : gmap oid User.t) :
  List.find (fun iu => P iu.2) (map_to_list m) = None <->
  forall i u, m !! i = Some u -> P u = false.
Proof.
  split.
  - intros Hf i u Hi. apply (find_none _ _ Hf (i, u)).
    apply list_elem_of_In, elem_of_map_to_list, Hi.
  - intros Hall. destruct (List.find _ _) as [[i u]|] eqn:Hf; [|done].
    apply find_some in Hf as [Hin HP]. apply list_elem_of_In, elem_of_map_to_list in Hin.
    simpl in HP. by rewrite (Hall i u Hin) in HP.
Qed.

Lemma find_user_by_Some (P : User.t -> bool) (m : gmap oid User.t) (i : oid) (u : User.t) :
  List.find (fun iu => P iu.2) (map_to_list m) = Some (i, u) ->
  m !! i = Some u /\ P u = true.
Proof.
  intros Hf. apply find_some in Hf as [Hin HP].
  by apply list_elem_of_In, elem_of_map_to_list in Hin.
Qed.

(** In a collection with unique emails (usernames), the lookup by email
    (username) finds the one user that has it. *)
Lemma find_user_by_unique (P : User.t -> bool) (m : gmap oid User.t) (i : oid) (u : User.t) :
  m !! i = Some u -> P u = true ->
  (forall j v, m !! j = Some v -> P v = true -> j = i) ->
  List.find (fun iu => P iu.2) (map_to_list m) = Some (i, u).
Proof.
  intros Hi HP Huniq. destruct (List.find _ _) as [[j v]|] eqn:Hf.
  - apply find_user_by_Some in Hf as [Hj HPv].
    pose proof (Huniq j v Hj HPv) as ->. congruence.
  - apply find_user_by_None with (i := i) (u := u) in Hf; [congruence|done].
Qed.

(** ** Paths of the controllers *)

Section Paths.
Context `{PasswordHasher} `{JwtSecret}.

(** The document [registerUser] saves. *)
Definition new_user (username email password : string) (salt : N) : User.t :=
  User.set_password (bcrypt_hash password salt)
    (User.mk username email password User.default_imageUrl).

Lemma find_email_none (w : World) (e : string) :
  no_user w (fun u => User.email u = e) ->
  List.find (fun iu => bool_decide (User.email iu.2 = e)) (map_to_list (users w)) = None.
Proof.
  intros Hno.
  pose proof (proj2 (find_user_by_None (fun u => bool_decide (User.email u = e)) (users w))) as Hf.
  apply Hf. intros i u Hi. by apply bool_decide_eq_false, (Hno i).
Qed.

Lemma find_username_none (w : World) (n : string) :
  no_user w (fun u => User.username u = n) ->
  List.find (fun iu => bool_decide (User.username iu.2 = n)) (map_to_list (users w)) = None.
Proof.
  intros Hno.
  pose proof (proj2 (find_user_by_None (fun u => bool_decide (User.username u = n)) (users w))) as Hf.
  apply Hf. intros i u Hi. by apply bool_decide_eq_false, (Hno i).
Qed.

(** A registration with a fresh email, a fresh username, non-empty fields
    and a free next id saves the hashed user and replies 201 with a cookie
    signed over the payload [{ user: registerUser }]. *)
Lemma registerUser_ok (n e pw : string) (salt : N) (w : World) :
  no_user w (fun u => User.email u = e) ->
  no_user w (fun u => User.username u = n) -> n <> "" -> e <> "" ->
  users w !! (next_oid w mod oid_bound)%N = None ->
  run (registerUser n e pw salt) w =
  (mkWorld (<[(next_oid w mod oid_bound)%N := new_user n e pw salt]> (users w))
     (posts w) (comments w) (N.succ (next_oid w)) (now w),
   mkResponse 201 (BUser (public_user (next_oid w mod oid_bound) (new_user n e pw salt)))
     (SetCookie (jwt_sign (now w) (JObj [("user", JFun)])))).
Proof.
  intros He Hn Hn0 He0 Hid.
  unfold run, run_handler, registerUser, bind, ret, reply, find_user_by, fresh_oid, clock; simpl.
  rewrite find_email_none, find_username_none by done.
  unfold save_user; simpl.
  change (User.set_password (bcrypt_hash pw salt) (User.mk n e pw User.default_imageUrl))
    with (new_user n e pw salt).
  set (id := (next_oid w mod oid_bound)%N) in *. set (nu := new_user n e pw salt) in *.
  assert (Hval : User.validate nu = true).
  { unfold User.validate, nu, new_user; simpl.
    rewrite !bool_decide_eq_false_2; [done| |done|done]. apply bcrypt_hash_nonempty. }
  rewrite Hval; simpl. rewrite bool_decide_eq_false_2; simpl.
  2:{ intros [[x Hx]|(j & v & Hj & Hv)]; [congruence|].
      destruct Hv; [by apply (Hn j v)|by apply (He j v)]. }
  pose proof (find_user_by_unique (fun u => bool_decide (User.email u = e))
                (<[id := nu]> (users w)) id nu) as Hfind.
  rewrite Hfind; [done|by rewrite lookup_insert_eq|by apply bool_decide_eq_true|].
  intros j v Hj Hv%bool_decide_eq_true. apply lookup_insert_Some in Hj.
  destruct Hj as [[-> _]|[_ Hj]]; [done|]. exfalso. by apply (He j v).
Qed.
(** A login, path by path: nothing is written. *)
Lemma loginUser_eq (n pw : string) (w : World) :
  run (loginUser n pw) w =
  (w, match List.find (fun iu => bool_decide (User.username iu.2 = n)) (map_to_list (users w)) with
      | None => message 400 "Invalid credentials"
      | Some (id, u) =>
          if bcrypt_compare pw (User.password u)
          then mkResponse 201 (BUser (public_user id u))
                 (SetCookie (jwt_sign (now w) (JObj [("user", user_rest id u)])))
          else message 400 "Invalid credentials"
      end).
Proof.
  unfold run, run_handler, loginUser, bind, ret, reply, find_user_by, clock; simpl.
  destruct (List.find _ _) as [[id u]|]; [|done].
  by destruct (bcrypt_compare pw (User.password u)).
Qed.

(** What the handlers read as [req.user.user._id] from the two payloads. *)
Lemma req_user_id_login (t : Z) (id : oid) (u : User.t) :
  req_user_id (jwt_claims (jwt_sign t (JObj [("user", user_rest id u)])))
  = Some (JStr (toHexString id)).
Proof. reflexivity. Qed.

Lemma req_user_id_register (t : Z) :
  req_user_id (jwt_claims (jwt_sign t (JObj [("user", JFun)]))) = None.
Proof. reflexivity. Qed.

End Paths.

Lemma login_claims_no_password `{JwtSecret} (t : Z) (id : oid) (u : User.t) :
  match get_prop (jwt_claims (jwt_sign t (JObj [("user", user_rest id u)]))) "user" with
  | Some x => get_prop x "password"
  | None => None
  end = Some JUndefined.
Proof. reflexivity. Qed.

(** Discharge a path whose reply is not a 201. *)
Ltac not_201 := let Hs := fresh "Hs" in intros [= _ <-] Hs; discriminate Hs.

(** ** Properties of the authenticator *)

Section Properties.
Context `{PasswordHasher} `{JwtSecret}.

(** C11 (error).  A registration with an email some user already has
    replies 409 "User email already exists", whatever the username, and
    writes nothing. *)
Theorem registerUser_email_taken (n e pw : string) (salt : N) (w : World) (i : oid) (u : User.t) :
  users w !! i = Some u -> User.email u = e ->
  run (registerUser n e pw salt) w = (w, message 409 "User email already exists").
Proof.
  intros Hi He. unfold run, run_handler, registerUser, bind, reply, find_user_by; simpl.
  destruct (List.find _ _) eqn:Hf; [done|]. exfalso.
  pose proof (proj1 (find_user_by_None (fun v => bool_decide (User.email v = e)) (users w)) Hf i u Hi)
    as Hc.
  by apply bool_decide_eq_false in Hc.
Qed.

(** C12 (error).  A registration with a fresh email but a username some
    user already has replies 409 "Username already exists" and writes
    nothing. *)
Theorem registerUser_username_taken (n e pw : string) (salt : N) (w : World) (i : oid) (u : User.t) :
  no_user w (fun v => User.email v = e) -> users w !! i = Some u -> User.username u = n ->
  run (registerUser n e pw salt) w = (w, message 409 "Username already exists").
Proof.
  intros He Hi Hn. unfold run, run_handler, registerUser, bind, reply, find_user_by; simpl.
  rewrite find_email_none by done. simpl.
  destruct (List.find _ _) eqn:Hf; [done|]. exfalso.
  pose proof (proj1 (find_user_by_None (fun v => bool_decide (User.username v = n)) (users w)) Hf i u Hi)
    as Hc.
  by apply bool_decide_eq_false in Hc.
Qed.

(** C13 (error).  When no user with that username has a hash the password
    matches (no such username, or a wrong password), the login replies the
    same 400 "Invalid credentials" and writes nothing: the two failures
    cannot be told apart. *)
Theorem loginUser_invalid_credentials (n pw : string) (w : World) :
  (forall i u, users w !! i = Some u -> User.username u = n ->
     bcrypt_compare pw (User.password u) = false) ->
  run (loginUser n pw) w = (w, message 400 "Invalid credentials").
Proof.
  intros Hall. rewrite loginUser_eq. destruct (List.find _ _) as [[id u]|] eqn:Hf; [|done].
  pose proof (find_user_by_Some (fun v => bool_decide (User.username v = n)) (users w) id u Hf)
    as [Hid Hn%bool_decide_eq_true].
  by rewrite (Hall id u Hid Hn).
Qed.

(** C14 (roundtrip).  After a successful registration, logging in with
    the same username and any password that agrees with the registered one
    on its first 72 bytes (bcrypt's limit; in particular the same password)
    replies 201 with a token that identifies the new user by the string of
    its id. *)
Theorem register_then_login (n e pw pw' : string) (salt : N) (w : World) :
  no_user w (fun u => User.email u = e) -> no_user w (fun u => User.username u = n) ->
  n <> "" -> e <> "" -> users w !! (next_oid w mod oid_bound)%N = None ->
  bcrypt_prefix pw' = bcrypt_prefix pw ->
  let '(w1, r1) := run (registerUser n e pw salt) w in
  let '(w2, r2) := run (loginUser n pw') w1 in
  status r1 = 201%Z /\ status r2 = 201%Z /\ w2 = w1
  /\ exists t d, cookie r2 = SetCookie t /\ verifyToken (Some t) = Authenticated d
       /\ req_user_id d = Some (JStr (toHexString (next_oid w mod oid_bound))).
Proof.
  intros He Hn Hn0 He0 Hid Hpre. rewrite registerUser_ok by done. rewrite loginUser_eq; simpl.
  set (id := (next_oid w mod oid_bound)%N) in *. set (nu := new_user n e pw salt).
  pose proof (find_user_by_unique (fun v => bool_decide (User.username v = n))
                (<[id := nu]> (users w)) id nu) as Hfind.
  rewrite Hfind; [|by rewrite lookup_insert_eq|by apply bool_decide_eq_true|].
  - unfold nu, new_user; simpl. rewrite bcrypt_compare_hash, bool_decide_eq_true_2 by done.
    split_and!; try done. eexists _, _. split_and!; [done| |apply req_user_id_login].
    unfold verifyToken. by rewrite jwt_verify_sign.
  - intros j v Hj Hv%bool_decide_eq_true. apply lookup_insert_Some in Hj.
    destruct Hj as [[-> _]|[_ Hj]]; [done|]. exfalso. by apply (Hn j v).
Qed.

(** C15 (safety).  A successful login writes nothing and its token
    identifies the user whose username was given and whose hash the
    password matched, by the string of its id, and carries no password. *)
Theorem loginUser_token (n pw : string) (w w' : World) (r : Response) :
  run (loginUser n pw) w = (w', r) -> status r = 201%Z ->
  w' = w /\
  exists i u t d, users w !! i = Some u /\ User.username u = n
    /\ bcrypt_compare pw (User.password u) = true
    /\ cookie r = SetCookie t /\ verifyToken (Some t) = Authenticated d
    /\ req_user_id d = Some (JStr (toHexString i))
    /\ match get_prop d "user" with Some x => get_prop x "password" | None => None end
       = Some JUndefined.
Proof.
  rewrite loginUser_eq. destruct (List.find _ _) as [[id u]|] eqn:Hf; [|not_201].
  destruct (bcrypt_compare pw (User.password u)) eqn:Hc; [|not_201].
  intros [= <- <-] _.
  pose proof (find_user_by_Some (fun v => bool_decide (User.username v = n)) (users w) id u Hf)
    as [Hid Hn%bool_decide_eq_true].
  split; [done|]. eexists id, u, _, _. split_and!; try done.
  - unfold verifyToken. by rewrite jwt_verify_sign.
  - apply req_user_id_login.
  - apply login_claims_no_password.
Qed.

(** C16 (safety, a divergence from the spec).  The token a successful
    registration sets verifies, but its payload has no [user]: the code
    signs [{ user: registerUser }], the handler function, which
    [JSON.stringify] drops.  Reading [req.user.user._id] from it throws a
    [TypeError], so a freshly registered client is not identified by any
    authenticated route until it logs in. *)
Theorem registerUser_token_has_no_user (n e pw : string) (salt : N) (w w' : World) (r : Response) :
  run (registerUser n e pw salt) w = (w', r) -> status r = 201%Z ->
  exists t d, cookie r = SetCookie t /\ verifyToken (Some t) = Authenticated d
    /\ req_user_id d = None.
Proof.
  unfold run, run_handler, registerUser, bind, ret, reply, find_user_by, fresh_oid, clock; simpl.
  destruct (List.find _ (map_to_list (users w))); simpl; [not_201|].
  destruct (List.find _ (map_to_list (users w))); simpl; [not_201|].
  unfold save_user; simpl. destruct (User.validate _); simpl; [|not_201].
  case_bool_decide; simpl; [not_201|].
  destruct (List.find _ _) as [[rid ru]|]; simpl; [|not_201].
  intros [= _ <-] _. eexists _, _. split_and!; [done| |apply req_user_id_register].
  unfold verifyToken. by rewrite jwt_verify_sign.
Qed.
End Properties.

(** ** Instances for the witnesses *)

(** A hasher that meets the interface: the hash is the 72-byte prefix behind
    a marker, compared by recomputation. *)
Definition demo_hash (pw : string) (salt : N) : string := String "$"%char (bcrypt_prefix pw).
Definition demo_compare (pw h : string) : bool := bool_decide (h = demo_hash pw 0).

Definition demo_hasher : PasswordHasher.
Proof.
  refine {| bcrypt_hash := demo_hash; bcrypt_compare := demo_compare |}.
  - intros pw salt. discriminate.
  - intros pw pw' salt. unfold demo_compare, demo_hash. apply bool_decide_ext.
    split; [intros [= ->]|intros ->]; done.
Defined.

Definition demo_secret : JwtSecret := {| hmac := fun c => match c with JObj fs => Z.of_nat (length fs) | _ => 0%Z end |}.

Definition alice : User.t :=
  User.mk "alice" "alice@example.com" (demo_hash "alice-secret" 0) User.default_imageUrl.

Definition auth_world : World := mkWorld {[1%N := alice]} ∅ ∅ 2 1700000000000.

(** Two passwords that differ only after their 72nd byte. *)
Definition long_pw : string :=
  "my hospyta password is long enough that bcrypt stops reading it right at the end".
Definition long_pw' : string :=
  "my hospyta password is long enough that bcrypt stops reading it right at a different end".

Lemma registerUser_email_taken_witness :
  run (@registerUser demo_hasher demo_secret "bob" "alice@example.com" "pw-bob" 7) auth_world
  = (auth_world, message 409 "User email already exists").
Proof. apply (registerUser_email_taken _ _ _ _ _ 1 alice); reflexivity. Defined.

Lemma registerUser_username_taken_witness :
  run (@registerUser demo_hasher demo_secret "alice" "bob@example.com" "pw-bob" 7) auth_world
  = (auth_world, message 409 "Username already exists").
Proof.
  apply (registerUser_username_taken _ _ _ _ _ 1 alice); [decide_by_eval|reflexivity|reflexivity].
Defined.

Lemma loginUser_invalid_credentials_witness :
  run (@loginUser demo_hasher demo_secret "alice" "wrong-password") auth_world
  = (auth_world, message 400 "Invalid credentials").
Proof.
  apply loginUser_invalid_credentials. intros i u Hi Hn.
  simpl in Hi. apply lookup_singleton_Some in Hi as [<- <-]. vm_compute. reflexivity.
Defined.

Lemma register_then_login_witness :
  let '(w1, r1) := run (@registerUser demo_hasher demo_secret "bob" "bob@example.com" long_pw 7)
                     auth_world in
  let '(w2, r2) := run (@loginUser demo_hasher demo_secret "bob" long_pw') w1 in
  status r1 = 201%Z /\ status r2 = 201%Z /\ w2 = w1
  /\ exists t d, cookie r2 = SetCookie t /\ @verifyToken demo_secret (Some t) = Authenticated d
       /\ req_user_id d = Some (JStr (toHexString (next_oid auth_world mod oid_bound))).
Proof.
  apply register_then_login;
    [decide_by_eval | decide_by_eval | discriminate | discriminate
    | vm_compute; reflexivity | vm_compute; reflexivity].
Defined.

Lemma loginUser_token_witness :
  exists i u t d, users auth_world !! i = Some u /\ User.username u = "alice"
    /\ @bcrypt_compare demo_hasher "alice-secret" (User.password u) = true
    /\ cookie (snd (run (@loginUser demo_hasher demo_secret "alice" "alice-secret") auth_world))
       = SetCookie t
    /\ @verifyToken demo_secret (Some t) = Authenticated d
    /\ req_user_id d = Some (JStr (toHexString i))
    /\ match get_prop d "user" with Some x => get_prop x "password" | None => None end
       = Some JUndefined.
Proof.
  apply (loginUser_token "alice" "alice-secret" auth_world auth_world); vm_compute; reflexivity.
Defined.

Lemma registerUser_token_has_no_user_witness :
  exists t d,
    cookie (snd (run (@registerUser demo_hasher demo_secret "bob" "bob@example.com" "pw-bob" 7)
                   auth_world)) = SetCookie t
    /\ @verifyToken demo_secret (Some t) = Authenticated d /\ req_user_id d = None.
Proof.
  apply (@registerUser_token_has_no_user demo_hasher demo_secret "bob" "bob@example.com" "pw-bob" 7 auth_world
           (fst (run (@registerUser demo_hasher demo_secret "bob" "bob@example.com" "pw-bob" 7)
                   auth_world)));
    vm_compute; reflexivity.
Defined.
