(* ===== verification/Guard.v ===== *)
(** * Guard: createPost, editPost and deletePost of controllers/postController.ts

    The three handlers that create or change a post as its author.  The
    acting identity is the decoded token [req.user] (a [jsval]); its
    [user._id] is read with the [TypeError] of [req_user_id].  The request
    body is a [PostBody]: the fields a client may send, each absent or a
    string, and the arrays Mongoose casts to ObjectIds ([new Post(req.body)]
    copies every schema field it finds, the vote arrays included).  The
    image upload to Cloudinary is an external call whose result is an input
    ([upload]).

    The ownership checks compare strings: [editPost] compares
    [post.author?._id.toString()] with [userId.toString()], [deletePost]
    compares it with [req.user.user._id] itself ([!==]).  [owner_edit] and
    [owner_delete] are these two tests; they agree on the string ids of the
    tokens the login issues. *)

From S2P Require Import Prelude ObjectId Js Models Votes Auth.
From stdpp Require Import base list gmap strings pretty.
From Stdlib Require Import ZArith.

(** The body fields [createPost] and [editPost] read. *)
Record PostBody := mkPostBody {
  b_title : option string;
  b_content : option string;
  b_category : option string;
  b_imageUrl : option string;
  b_upVotedBy : list string;
  b_downVotedBy : list string;
  b_comments : list string
}.

(** [req.file] and the outcome of [uploadImage] on it. *)
Inductive upload :=
| NoFile
| Uploaded (url : string)
| UploadError.

(** Cast every element of an array of ids ([None]: one is not an id). *)
Fixpoint cast_ids (l : list string) : option (list oid) :=
  match l with
  | [] => Some []
  | s :: l' =>
      match castObjectId s, cast_ids l' with
      | Some o, Some os => Some (o :: os)
      | _, _ => None
      end
  end.

(** [req.user.user._id], throwing the [TypeError] of a token without user. *)
Definition token_user_id (decoded : jsval) : handler jsval :=
  match req_user_id decoded with
  | Some v => ret v
  | None => throw TypeError
  end.

(** [User.findById(v)] on a value of the token: [undefined] and [null]
    find nothing, a string is cast, anything else cannot be cast. *)
Definition find_user_js (v : jsval) : handler (option (oid * User.t)) :=
  match v with
  | JUndefined | JNull => ret None
  | JStr s => let* id := cast_or_throw s in fun w => (w, Cont (option_map (pair id) (users w !! id)))
  | JOid o => fun w => (w, Cont (option_map (pair o) (users w !! o)))
  | _ => throw CastError
  end.

(** [new mongoose.Types.ObjectId(v)]. *)
Definition js_oid (v : jsval) : handler oid :=
  match v with
  | JStr s => cast_or_throw s
  | JOid o => ret o
  | _ => throw CastError
  end.

(** [if (req.file) { post.imageUrl = await uploadImage(req.file) }]. *)
Definition apply_upload (up : upload) (current : option string) : handler (option string) :=
  match up with
  | NoFile => ret current
  | Uploaded url => ret (Some url)
  | UploadError => throw UploadFailed
  end.

(** [post.save()] of a new document: validation, then the unique [_id]. *)
Definition insert_post (id : oid) (p : Post.t) : handler unit :=
  fun w =>
    if negb (Post.validate p) then (w, Raise ValidationError)
    else if bool_decide (is_Some (posts w !! id)) then (w, Raise DuplicateKey)
    else (set_posts (<[id := p]> (posts w)) w, Cont tt).

(** createPost (lines 43-72). *)
Definition createPost (decoded : jsval) (body : PostBody) (up : upload) : handler Response :=
  let* uid := token_user_id decoded in
  let* user := find_user_js uid in
  match user with
  | None => reply (message 401 "Unauthorized")
  | Some _ =>
  let* id := fresh_oid in
  match cast_ids (b_upVotedBy body), cast_ids (b_downVotedBy body), cast_ids (b_comments body) with
  | Some ups, Some downs, Some cs =>
      let* author := js_oid uid in
      let* t := clock in
      let* img := apply_upload up (b_imageUrl body) in
      let newPost :=
        Post.mk (Some author) (default "" (b_title body)) (default "" (b_content body))
          (default "" (b_category body)) 0 0 ups downs img cs (Some t) in
      insert_post id newPost ;;;
      let* created := find_post id in
      match created with
      | Some p => ret (json 201 (BPost id p))
      | None => ret (json 201 BNull)
      end
  | _, _, _ => throw ValidationError
  end
  end.

(** [post.author?._id.toString() !== userId.toString()] of editPost:
    [userId.toString()] throws on [undefined]/[null]. *)
Definition owner_edit (author : option oid) (userId : jsval) : option bool :=
  let user_str :=
    match userId with
    | JStr s => Some s
    | JOid o => Some (toHexString o)
    | JNum z => Some (pretty z)
    | JBool b => Some (if b then "true" else "false")
    | JObj _ => Some "[object Object]"
    | JFun => Some "function"
    | JUndefined | JNull => None
    end in
  match user_str with
  | None => None
  | Some s =>
      match author with
      | Some a => Some (bool_decide (toHexString a = s))
      | None => Some false
      end
  end.

(** [post.author?._id.toString() !== req.user.user._id] of deletePost:
    strict equality of a string with the raw value. *)
Definition owner_delete (author : option oid) (userId : jsval) : bool :=
  match author, userId with
  | Some a, JStr s => bool_decide (toHexString a = s)
  | _, _ => false
  end.

(** The fields [editPost] reads: [const { title, content, category } = req.body]. *)
Definition edit_fields (body : PostBody) (p : Post.t) (img : option string) (t : Z) : Post.t :=
  Post.mk (Post.author p) (default (Post.title p) (b_title body))
    (default (Post.content p) (b_content body)) (default (Post.category p) (b_category body))
    (Post.upVotes p) (Post.downVotes p) (Post.upVotedBy p) (Post.downVotedBy p)
    img (Post.comments p) (Some t).

(** editPost (lines 214-247).  [userId] is read before the [try]: a token
    without user crashes the server before the handler runs (Router.with_user_id). *)
Definition editPost (postId : string) (body : PostBody) (userId : jsval) (up : upload)
  : handler Response :=
  let* pid := cast_or_throw postId in
  let* found := find_post pid in
  let* post := or_reply found (message 404 "Post not found") in
  match owner_edit (Post.author post) userId with
  | None => throw TypeError
  | Some false => reply (message 403 "Forbidden: You can only edit your own posts")
  | Some true =>
      let* img := apply_upload up (Post.imageUrl post) in
      let* t := clock in
      let post' := edit_fields body post img t in
      save_post pid post' ;;;
      ret (json 200 (BPost pid post'))
  end.

(** [post.deleteOne()]. *)
Definition delete_post (id : oid) : handler unit :=
  fun w => (set_posts (delete id (posts w)) w, Cont tt).

(** deletePost (lines 249-273). *)
Definition deletePost (id : string) (decoded : jsval) : handler Response :=
  let* pid := cast_or_throw id in
  let* found := find_post pid in
  let* post := or_reply found (message 404 "Post not found") in
  let* uid := token_user_id decoded in
  if negb (owner_delete (Post.author post) uid)
  then reply (message 403 "Forbidden: You are not the author of this post")
  else delete_post pid ;;; ret (message 200 "Post deleted successfully").

(** ** Lemmas *)

(** Every author id of a post is a 96-bit ObjectId. *)
Definition author_bounded (p : Post.t) : Prop :=
  match Post.author p with Some a => (a < oid_bound)%N | None => True end.

Lemma owner_edit_hex (author : option oid) (u : oid) :
  (u < oid_bound)%N ->
  (match author with Some a => (a < oid_bound)%N | None => True end) ->
  owner_edit author (JStr (toHexString u)) = Some (bool_decide (author = Some u)).
Proof.
  intros Hu Ha. unfold owner_edit. destruct author as [a|]; simpl; [|done]. f_equal.
  apply bool_decide_ext. split; [intros Heq; f_equal; by apply toHexString_inj|congruence].
Qed.

Lemma owner_delete_hex (author : option oid) (u : oid) :
  (u < oid_bound)%N ->
  (match author with Some a => (a < oid_bound)%N | None => True end) ->
  owner_delete author (JStr (toHexString u)) = bool_decide (author = Some u).
Proof.
  intros Hu Ha. unfold owner_delete. destruct author as [a|]; simpl; [|done].
  apply bool_decide_ext. split; [intros Heq; f_equal; by apply toHexString_inj|congruence].
Qed.

(** ** Properties of the post handlers *)

(** On the string ids the tokens carry, the ownership
    test of [editPost] ([toString()] on both sides) and that of
    [deletePost] (the raw value, with [!==]) decide the same. *)
Theorem owner_checks_agree (author : option oid) (s : string) :
  owner_edit author (JStr s) = Some (owner_delete author (JStr s)).
Proof. by destruct author. Qed.

(** C19 (error).  Editing a post one is not the author of replies 403 and
    writes nothing. *)
Theorem editPost_not_author (pid u : oid) (p : Post.t) (body : PostBody) (up : upload) (w : World) :
  (pid < oid_bound)%N -> (u < oid_bound)%N -> posts w !! pid = Some p -> author_bounded p ->
  Post.author p <> Some u ->
  run (editPost (toHexString pid) body (JStr (toHexString u)) up) w
  = (w, message 403 "Forbidden: You can only edit your own posts").
Proof.
  intros Hpid Hu Hp Ha Hne. unfold editPost; unfold_handler.
  rewrite toHexString_cast by done; simpl. rewrite Hp; simpl.
  by rewrite owner_edit_hex, bool_decide_eq_false_2.
Qed.

(** C20 (functional).  The author's edit of a post replaces the title,
    content and category the body gives ([??] keeps the others), the image
    when a file is uploaded, sets [lastUpdated] to the current time, writes
    the post back and replies 200 with it (spec section 8). *)
Theorem editPost_by_author (pid u : oid) (p : Post.t) (body : PostBody) (img : option string)
    (up : upload) (w : World) :
  (pid < oid_bound)%N -> (u < oid_bound)%N -> posts w !! pid = Some p -> author_bounded p ->
  Post.author p = Some u ->
  up <> UploadError -> img = (match up with Uploaded url => Some url | _ => Post.imageUrl p end) ->
  Post.validate (edit_fields body p img (now w)) = true ->
  run (editPost (toHexString pid) body (JStr (toHexString u)) up) w
  = (set_posts (<[pid := edit_fields body p img (now w)]> (posts w)) w,
     json 200 (BPost pid (edit_fields body p img (now w))))
  /\ Post.lastUpdated (edit_fields body p img (now w)) = Some (now w).
Proof.
  intros Hpid Hu Hp Ha Hauth Hup -> Hval. split; [|done]. unfold editPost; unfold_handler.
  rewrite toHexString_cast by done; simpl. rewrite Hp; simpl.
  rewrite owner_edit_hex, bool_decide_eq_true_2 by done.
  destruct up; [| |done]; unfold apply_upload; simpl; by rewrite Hval.
Qed.

(** C21 (error).  Deleting a post one is not the author of replies 403 and
    writes nothing. *)
Theorem deletePost_not_author (pid u : oid) (p : Post.t) (d : jsval) (w : World) :
  (pid < oid_bound)%N -> (u < oid_bound)%N -> posts w !! pid = Some p -> author_bounded p ->
  req_user_id d = Some (JStr (toHexString u)) -> Post.author p <> Some u ->
  run (deletePost (toHexString pid) d) w
  = (w, message 403 "Forbidden: You are not the author of this post").
Proof.
  intros Hpid Hu Hp Ha Hd Hne. unfold deletePost, token_user_id; unfold_handler.
  rewrite toHexString_cast by done; simpl. rewrite Hp; simpl. rewrite Hd; simpl.
  by rewrite owner_delete_hex, bool_decide_eq_false_2.
Qed.

(** C22 (functional).  The author's delete removes the post and replies
    200; it leaves the post's comments in the comments collection (nothing
    deletes them), and changes nothing else. *)
Theorem deletePost_by_author (pid u : oid) (p : Post.t) (d : jsval) (w : World) :
  (pid < oid_bound)%N -> (u < oid_bound)%N -> posts w !! pid = Some p -> author_bounded p ->
  req_user_id d = Some (JStr (toHexString u)) -> Post.author p = Some u ->
  run (deletePost (toHexString pid) d) w
  = (set_posts (delete pid (posts w)) w, message 200 "Post deleted successfully").
Proof.
  intros Hpid Hu Hp Ha Hd Hauth. unfold deletePost, token_user_id, delete_post; unfold_handler.
  rewrite toHexString_cast by done; simpl. rewrite Hp; simpl. rewrite Hd; simpl.
  by rewrite owner_delete_hex, bool_decide_eq_true_2.
Qed.

(** C23 (functional).  A post creation by a user of the database whose
    body arrays are ids and whose document passes the schema stores a new
    post under the next id with the token's user as author, [upVotes] and
    [downVotes] 0, [lastUpdated] the current time, and the vote arrays and
    comments copied from the body; it replies 201 with it. *)
Theorem createPost_success (d : jsval) (u : oid) (usr : User.t) (body : PostBody) (up : upload)
    (ups downs cs : list oid) (img : option string) (w : World) :
  req_user_id d = Some (JStr (toHexString u)) -> (u < oid_bound)%N -> users w !! u = Some usr ->
  cast_ids (b_upVotedBy body) = Some ups -> cast_ids (b_downVotedBy body) = Some downs ->
  cast_ids (b_comments body) = Some cs ->
  up <> UploadError -> img = (match up with Uploaded url => Some url | _ => b_imageUrl body end) ->
  posts w !! (next_oid w mod oid_bound)%N = None ->
  let p := Post.mk (Some u) (default "" (b_title body)) (default "" (b_content body))
             (default "" (b_category body)) 0 0 ups downs img cs (Some (now w)) in
  Post.validate p = true ->
  run (createPost d body up) w
  = (mkWorld (users w) (<[(next_oid w mod oid_bound)%N := p]> (posts w)) (comments w)
       (N.succ (next_oid w)) (now w),
     json 201 (BPost (next_oid w mod oid_bound) p)).
Proof.
  intros Hd Hu Husr Hups Hdowns Hcs Hup -> Hid p Hval.
  unfold createPost, token_user_id, find_user_js, js_oid; rewrite Hd; unfold_handler.
  rewrite toHexString_cast by done; simpl. rewrite Husr; simpl.
  rewrite Hups, Hdowns, Hcs; simpl.
  destruct up; [| |done]; unfold apply_upload, insert_post; simpl;
    fold p; rewrite Hval; simpl; rewrite bool_decide_eq_false_2 by (simpl; rewrite Hid; by intros []);
    simpl; by rewrite lookup_insert_eq.
Qed.

(** C24 (error, a divergence from the spec).  The schema requires
    [imageUrl], so a post sent without an uploaded file and without an
    [imageUrl] in the body is never created: whatever the token (carrying a
    string id) and the other fields, no post is written and the reply is
    not 201.  The spec describes the image as optional. *)
Theorem createPost_requires_image (d : jsval) (s : string) (body : PostBody) (w : World) :
  req_user_id d = Some (JStr s) -> b_imageUrl body = None ->
  let '(w', r) := run (createPost d body NoFile) w in
  posts w' = posts w /\ status r <> 201%Z.
Proof.
  intros Hd Himg. unfold createPost, token_user_id, find_user_js, js_oid; rewrite Hd; unfold_handler.
  destruct (castObjectId s) as [id|]; simpl; [|by split].
  destruct (users w !! id); simpl; [|by split].
  destruct (cast_ids (b_upVotedBy body)), (cast_ids (b_downVotedBy body)),
    (cast_ids (b_comments body)); simpl; try by split.
  unfold apply_upload, insert_post; simpl. rewrite Himg.
  unfold Post.validate; simpl. rewrite andb_false_r. simpl. by split.
Qed.

(** ** A post created with its own vote list *)

#[local] Instance world_votes_wf_dec (w : World) : Decision (world_votes_wf w).
Proof. unfold world_votes_wf. apply _. Defined.

Definition bob : User.t := User.mk "bob" "bob@example.com" "$2a$10$hash" User.default_imageUrl.
Definition alice_u : User.t := User.mk "alice" "alice@example.com" "$2a$10$hash" User.default_imageUrl.

(** The decoded login tokens of alice (id 1) and bob (id 2). *)
Definition alice_token : jsval :=
  jwt_claims (@jwt_sign demo_secret 1700000000000 (JObj [("user", user_rest 1 alice_u)])).
Definition bob_token : jsval :=
  jwt_claims (@jwt_sign demo_secret 1700000000000 (JObj [("user", user_rest 2 bob)])).

(** A body that lists its own author among the upvoters. *)
Definition self_voted_body : PostBody :=
  mkPostBody (Some "My post") (Some "Vote for me") (Some "Fitness")
    (Some "https://res.cloudinary.com/demo/p4.png") [toHexString 2] [] [].

(** A scenario of the divergence from the spec: [createPost] copies
    [upVotedBy] from the request body while it sets [upVotes] to 0, so a
    user can create a post that already lists them as upvoter: the vote
    invariant no longer holds, and their downvote then takes [upVotes] to
    -1.  The spec requires the counters to equal the list sizes and never
    be negative. *)
Example createPost_negative_upvotes :
  let w1 := fst (run (createPost bob_token self_voted_body NoFile) scenario_world) in
  let w2 := fst (run (downvotePost (toHexString 4) (toHexString 2)) w1) in
  ~ world_votes_wf w1 /\ option_map Post.upVotes (posts w2 !! 4%N) = Some (-1)%Z.
Proof. intros w1 w2. split; [decide_by_eval | vm_compute; reflexivity]. Qed.

(** ** Witnesses *)

Definition edit_body : PostBody :=
  mkPostBody (Some "Kidney stones, update") None None None [] [] [].

Lemma owner_checks_agree_witness :
  owner_edit (Some 1%N) (JStr (toHexString 1)) = Some (owner_delete (Some 1%N) (JStr (toHexString 1))).
Proof. apply owner_checks_agree. Defined.

Lemma editPost_not_author_witness :
  run (editPost (toHexString 3) edit_body (JStr (toHexString 2)) NoFile) scenario_world
  = (scenario_world, message 403 "Forbidden: You can only edit your own posts").
Proof.
  apply (editPost_not_author 3 2 scenario_post);
    [vm_compute; reflexivity | vm_compute; reflexivity | reflexivity | vm_compute; reflexivity
    | discriminate].
Defined.

Lemma editPost_by_author_witness :
  run (editPost (toHexString 3) edit_body (JStr (toHexString 1)) NoFile) scenario_world
  = (set_posts (<[3%N := edit_fields edit_body scenario_post (Post.imageUrl scenario_post)
                          (now scenario_world)]> (posts scenario_world)) scenario_world,
     json 200 (BPost 3 (edit_fields edit_body scenario_post (Post.imageUrl scenario_post)
                          (now scenario_world))))
  /\ Post.lastUpdated (edit_fields edit_body scenario_post (Post.imageUrl scenario_post)
                          (now scenario_world)) = Some (now scenario_world).
Proof.
  apply (editPost_by_author 3 1 scenario_post);
    [vm_compute; reflexivity | vm_compute; reflexivity | reflexivity | vm_compute; reflexivity
    | reflexivity | discriminate | reflexivity | vm_compute; reflexivity].
Defined.

Lemma deletePost_not_author_witness :
  run (deletePost (toHexString 3) bob_token) scenario_world
  = (scenario_world, message 403 "Forbidden: You are not the author of this post").
Proof.
  apply (deletePost_not_author 3 2 scenario_post);
    [vm_compute; reflexivity | vm_compute; reflexivity | reflexivity | vm_compute; reflexivity
    | reflexivity | discriminate].
Defined.

Lemma deletePost_by_author_witness :
  run (deletePost (toHexString 3) alice_token) scenario_world
  = (set_posts (delete 3%N (posts scenario_world)) scenario_world,
     message 200 "Post deleted successfully").
Proof.
  apply (deletePost_by_author 3 1 scenario_post);
    [vm_compute; reflexivity | vm_compute; reflexivity | reflexivity | vm_compute; reflexivity
    | reflexivity | reflexivity].
Defined.

Definition new_body : PostBody :=
  mkPostBody (Some "Morning runs") (Some "How far do you go?") (Some "Fitness") None [] [] [].

Lemma createPost_success_witness :
  let p := Post.mk (Some 2%N) "Morning runs" "How far do you go?" "Fitness" 0 0 [] []
             (Some "https://res.cloudinary.com/demo/run.png") [] (Some (now scenario_world)) in
  run (createPost bob_token new_body (Uploaded "https://res.cloudinary.com/demo/run.png"))
    scenario_world
  = (mkWorld (users scenario_world) (<[(next_oid scenario_world mod oid_bound)%N := p]>
       (posts scenario_world)) (comments scenario_world) (N.succ (next_oid scenario_world))
       (now scenario_world),
     json 201 (BPost (next_oid scenario_world mod oid_bound) p)).
Proof.
  apply (createPost_success bob_token 2 bob);
    [reflexivity | vm_compute; reflexivity | reflexivity | reflexivity | reflexivity | reflexivity
    | discriminate | reflexivity | vm_compute; reflexivity | vm_compute; reflexivity].
Defined.

Lemma createPost_requires_image_witness :
  let '(w', r) := run (createPost bob_token new_body NoFile) scenario_world in
  posts w' = posts scenario_world /\ status r <> 201%Z.
Proof. apply (createPost_requires_image bob_token (toHexString 2)); reflexivity. Defined.
