(* ===== verification/Upload.v ===== *)
(** * Upload: uploadImage of controllers/postController.ts and multer's file

    [upload.single("imageFile")] over [multer.memoryStorage()]
    (routes/post.ts lines 8-19) gives the controller [req.file]: its
    [mimetype] and the bytes of its [buffer].  [uploadImage] (lines
    275-282) turns them into the data URI
    [data:<mimetype>;base64,<base64 of the buffer>] and resolves to the
    [url] of what [cloudinary.v2.uploader.upload] resolves to; a rejected
    upload rejects it.  The Cloudinary service is the function [cloud] of
    the data URI: [Some url] for the response's [url], [None] for a
    rejection.

    [Buffer.toString("base64")] is Node's, modelled after RFC 4648: three
    bytes give four sextets, written with the standard alphabet, and a
    last group of one or two bytes is padded with [=].  [unbase64] and
    [parse_data_uri] read a data URI back (RFC 4648 and RFC 2397); they are
    the reference the round trip [parse_data_uri (dataURI f)] is checked
    against. *)

From S2P Require Import Prelude Guard.
From stdpp Require Import base list strings.
From Stdlib Require Import ZArith Ascii String Strings.Byte.

Open Scope Z_scope.

(** [Express.Multer.File] as [memoryStorage] fills it: the fields
    [uploadImage] reads. *)
Record MulterFile := mkMulterFile {
  mimetype : string;
  buffer : list byte
}.

(** ** Base64, RFC 4648 section 4 *)

Definition b64_alphabet : string :=
  "ABCDEFGHIJKLMNOPQRSTUVWXYZabcdefghijklmnopqrstuvwxyz0123456789+/".

Definition b64_char (n : Z) : ascii :=
  match String.get (Z.to_nat n) b64_alphabet with Some c => c | None => "="%char end.

(** The unsigned value of a byte. *)
Definition u8 (b : byte) : Z := Z.of_N (Byte.to_N b).

(** The four sextets of the bytes [a b c]. *)
Definition sx1 (a : byte) : Z := Z.shiftr (u8 a) 2.
Definition sx2 (a b : byte) : Z := Z.lor (Z.shiftl (Z.land (u8 a) 3) 4) (Z.shiftr (u8 b) 4).
Definition sx3 (b c : byte) : Z := Z.lor (Z.shiftl (Z.land (u8 b) 15) 2) (Z.shiftr (u8 c) 6).
Definition sx4 (c : byte) : Z := Z.land (u8 c) 63.

Definition sextets (a b c : byte) : list Z := [sx1 a; sx2 a b; sx3 b c; sx4 c].

Definition chars (l : list Z) : string := string_of_list_ascii (map b64_char l).

(** [Buffer.from(image.buffer).toString("base64")]. *)
Fixpoint base64 (l : list byte) : string :=
  match l with
  | [] => ""
  | [a] => chars (take 2 (sextets a x00 x00)) ++ "=="
  | [a; b] => chars (take 3 (sextets a b x00)) ++ "="
  | a :: b :: c :: rest => chars (sextets a b c) ++ base64 rest
  end.

(** [`data:${image.mimetype};base64,${base64Image}`]. *)
Definition dataURI (f : MulterFile) : string :=
  "data:" ++ mimetype f ++ ";base64," ++ base64 (buffer f).

(** [uploadImage]: the upload of the data URI; its [url], or the
    rejection the controller's [catch] turns into a 500. *)
Definition uploadImage (cloud : string -> option string) (f : MulterFile) : upload :=
  match cloud (dataURI f) with
  | Some url => Uploaded url
  | None => UploadError
  end.

(** [if (req.file) { ... await uploadImage(req.file) }]: what the
    controllers' [apply_upload] receives. *)
Definition file_upload (cloud : string -> option string) (file : option MulterFile) : upload :=
  match file with
  | None => NoFile
  | Some f => uploadImage cloud f
  end.

(** ** Reading a data URI back *)

Fixpoint str_index (c : ascii) (s : string) (i : Z) : option Z :=
  match s with
  | EmptyString => None
  | String d s' => if Ascii.eqb c d then Some i else str_index c s' (i + 1)
  end.

Definition b64_index (c : ascii) : option Z := str_index c b64_alphabet 0.

(** The three bytes of four sextets. *)
Definition unquad (s1 s2 s3 s4 : Z) : list Z :=
  [Z.lor (Z.shiftl s1 2) (Z.shiftr s2 4);
   Z.lor (Z.shiftl (Z.land s2 15) 4) (Z.shiftr s3 2);
   Z.lor (Z.shiftl (Z.land s3 3) 6) s4].

Definition byte_of (z : Z) : option byte := Byte.of_N (Z.to_N z).

Definition bytes_of (l : list Z) : option (list byte) := mapM byte_of l.

Definition is_pad (c : ascii) : bool := Ascii.eqb c "=".

Fixpoint unbase64 (s : string) : option (list byte) :=
  match s with
  | EmptyString => Some []
  | String c1 (String c2 (String c3 (String c4 rest))) =>
      s1 ← b64_index c1; s2 ← b64_index c2;
      if is_pad c3 then
        if is_pad c4 && String.eqb rest "" then bytes_of (take 1 (unquad s1 s2 0 0)) else None
      else
        s3 ← b64_index c3;
        if is_pad c4 then
          if String.eqb rest "" then bytes_of (take 2 (unquad s1 s2 s3 0)) else None
        else
          s4 ← b64_index c4; bs ← bytes_of (unquad s1 s2 s3 s4);
          rest' ← unbase64 rest; Some (bs ++ rest')
  | _ => None
  end.

(** The text before the first [c], and the text after it. *)
Fixpoint split_at (c : ascii) (l : list ascii) : option (list ascii * list ascii) :=
  match l with
  | [] => None
  | d :: l' => if Ascii.eqb c d then Some ([], l')
               else '(x, y) ← split_at c l'; Some (d :: x, y)
  end.

Fixpoint strip_prefix (p l : list ascii) : option (list ascii) :=
  match p, l with
  | [], _ => Some l
  | c :: p', d :: l' => if Ascii.eqb c d then strip_prefix p' l' else None
  | _, [] => None
  end.

Definition strip_suffix (p l : list ascii) : option (list ascii) :=
  (@List.rev ascii) <$> strip_prefix (List.rev p) (List.rev l).

(** RFC 2397: [data:<mediatype>;base64,<data>], the media type up to the
    first comma. *)
Definition parse_data_uri (s : string) : option (string * list byte) :=
  '(hdr, payload) ← split_at "," (list_ascii_of_string s);
  rest ← strip_prefix (list_ascii_of_string "data:") hdr;
  mt ← strip_suffix (list_ascii_of_string ";base64") rest;
  bs ← unbase64 (string_of_list_ascii payload);
  Some (string_of_list_ascii mt, bs).

(** ** Sextet arithmetic *)

Create HintDb b64.

Lemma u8_range (b : byte) : 0 <= u8 b < 256.
Proof. unfold u8. pose proof (Byte.to_N_bounded b). lia. Qed.

(** An [or] with a value below [2^k] after a shift by [k] is an addition. *)
Lemma lor_shiftl (a b k : Z) : 0 <= k -> 0 <= b < 2 ^ k -> Z.lor (Z.shiftl a k) b = a * 2 ^ k + b.
Proof.
  intros Hk Hb.
  assert (Hl : Z.land (Z.shiftl a k) b = 0).
  { apply Z.bits_inj'. intros i Hi. rewrite Z.land_spec, Z.bits_0.
    destruct (Z.lt_ge_cases i k).
    - by rewrite Z.shiftl_spec_low.
    - rewrite <- (Z.mod_small b (2 ^ k)), Z.mod_pow2_bits_high by lia. apply andb_false_r. }
  rewrite <- Z.lxor_lor, <- Z.add_nocarry_lxor by done. by rewrite Z.shiftl_mul_pow2.
Qed.

Lemma land_low (a : Z) (k : Z) : 0 <= k -> Z.land a (Z.ones k) = a mod 2 ^ k.
Proof. apply Z.land_ones. Qed.

Ltac bits_to_arith :=
  rewrite ?Z.shiftr_div_pow2 by lia;
  change 3 with (Z.ones 2); change 15 with (Z.ones 4); change 63 with (Z.ones 6);
  rewrite ?land_low by lia;
  rewrite ?lor_shiftl by (cbn; Z.div_mod_to_equations; lia);
  cbn [Z.pow Z.pow_pos Pos.iter Z.mul].

Lemma sx1_val a : sx1 a = u8 a / 4.
Proof. unfold sx1. by rewrite Z.shiftr_div_pow2. Qed.

Lemma sx2_val a b : sx2 a b = u8 a mod 4 * 16 + u8 b / 16.
Proof. pose proof (u8_range b). unfold sx2. bits_to_arith. done. Qed.

Lemma sx3_val b c : sx3 b c = u8 b mod 16 * 4 + u8 c / 64.
Proof. pose proof (u8_range c). unfold sx3. bits_to_arith. done. Qed.

Lemma sx4_val c : sx4 c = u8 c mod 64.
Proof. unfold sx4. bits_to_arith. done. Qed.

Ltac sextet_arith :=
  rewrite ?sx1_val, ?sx2_val, ?sx3_val, ?sx4_val;
  repeat match goal with
         | b : byte |- _ => assert_fails (assert (0 <= u8 b < 256) by assumption); pose proof (u8_range b)
         end;
  Z.div_mod_to_equations; lia.

Lemma sx1_range a : 0 <= sx1 a < 64.
Proof. sextet_arith. Qed.
Lemma sx2_range a b : 0 <= sx2 a b < 64.
Proof. sextet_arith. Qed.
Lemma sx3_range b c : 0 <= sx3 b c < 64.
Proof. sextet_arith. Qed.
Lemma sx4_range c : 0 <= sx4 c < 64.
Proof. sextet_arith. Qed.
#[export] Hint Resolve sx1_range sx2_range sx3_range sx4_range : b64.

Lemma unquad_val s1 s2 s3 s4 :
  0 <= s2 < 64 -> 0 <= s3 < 64 -> 0 <= s4 < 64 ->
  unquad s1 s2 s3 s4 = [s1 * 4 + s2 / 16; s2 mod 16 * 16 + s3 / 4; s3 mod 4 * 64 + s4].
Proof. intros. unfold unquad. bits_to_arith. done. Qed.

(** Decoding the four sextets of three bytes gives the bytes back. *)
Lemma unquad_sextets a b c : unquad (sx1 a) (sx2 a b) (sx3 b c) (sx4 c) = [u8 a; u8 b; u8 c].
Proof.
  rewrite unquad_val by auto with b64. f_equal; [|f_equal; [|f_equal]]; sextet_arith.
Qed.

Lemma bytes_of_u8 (l : list byte) : bytes_of (map u8 l) = Some l.
Proof.
  unfold bytes_of. induction l as [|b l IH]; [done|]. simpl. rewrite IH.
  unfold byte_of, u8. by rewrite N2Z.id, Byte.of_to_N.
Qed.

(** ** The alphabet *)

(** Each of the 64 sextets is written with a character [b64_index] reads
    back; checked on the 64 values. *)
Lemma b64_index_char (n : Z) : 0 <= n < 64 -> b64_index (b64_char n) = Some n.
Proof.
  intros Hn.
  assert (Hall : Forall (fun k => b64_index (b64_char (Z.of_nat k)) = Some (Z.of_nat k)) (seq 0 64))
    by decide_by_eval.
  rewrite Forall_forall in Hall. rewrite <- (Z2Nat.id n) by lia.
  apply Hall. first [apply in_seq | apply elem_of_seq]. lia.
Qed.

Lemma b64_char_not_pad (n : Z) : 0 <= n < 64 -> is_pad (b64_char n) = false.
Proof.
  intros Hn%b64_index_char. unfold is_pad. destruct (Ascii.eqb_spec (b64_char n) "=") as [He|]; [|done].
  rewrite He in Hn. discriminate Hn.
Qed.

Lemma append_String (c : ascii) (s t : string) : (String c s ++ t)%string = String c (s ++ t).
Proof. done. Qed.

Lemma append_EmptyString (t : string) : ("" ++ t)%string = t.
Proof. done. Qed.

Lemma is_pad_pad : is_pad "=" = true.
Proof. done. Qed.

Create Rewrite HintDb b64_rw.
#[export] Hint Rewrite append_String append_EmptyString is_pad_pad : b64_rw.
#[export] Hint Rewrite b64_index_char b64_char_not_pad using auto with b64 : b64_rw.

(** Evaluate [base64] and [unbase64] on the groups of a byte list. *)
Ltac b64_step :=
  repeat (progress (cbn -[b64_char sx1 sx2 sx3 sx4 b64_index is_pad unquad bytes_of];
                    autorewrite with hosp_rw b64_rw)).

(** [unbase64] reads back what [base64] writes. *)
Lemma unbase64_base64 (l : list byte) : unbase64 (base64 l) = Some l.
Proof.
  induction l as [l IH] using (induction_ltof1 _ (@List.length byte)); unfold ltof in IH.
  destruct l as [|a [|b [|c rest]]]; [done| | |].
  - b64_step. change (unquad (sx1 a) (sx2 a x00) 0 0)
      with (unquad (sx1 a) (sx2 a x00) (sx3 x00 x00) (sx4 x00)).
    rewrite unquad_sextets. apply (bytes_of_u8 [a]).
  - b64_step. change (unquad (sx1 a) (sx2 a b) (sx3 b x00) 0)
      with (unquad (sx1 a) (sx2 a b) (sx3 b x00) (sx4 x00)).
    rewrite unquad_sextets. apply (bytes_of_u8 [a; b]).
  - b64_step. rewrite unquad_sextets. change [u8 a; u8 b; u8 c] with (map u8 [a; b; c]).
    rewrite bytes_of_u8, IH by (simpl; lia). done.
Qed.

(** ** The data URI *)

Lemma list_ascii_of_string_app (s t : string) :
  list_ascii_of_string (s ++ t) = list_ascii_of_string s ++ list_ascii_of_string t.
Proof. induction s as [|c s IH]; [done|]. simpl. by rewrite IH. Qed.

Lemma split_at_app (c : ascii) (x y : list ascii) :
  c ∉ x -> split_at c (x ++ c :: y) = Some (x, y).
Proof.
  induction x as [|d x IH]; intros Hc; simpl.
  - by rewrite Ascii.eqb_refl.
  - apply not_elem_of_cons in Hc as [Hcd Hc].
    destruct (Ascii.eqb_spec c d); [done|]. by rewrite IH.
Qed.

Lemma strip_prefix_app (p l : list ascii) : strip_prefix p (p ++ l) = Some l.
Proof. induction p as [|c p IH]; [done|]. simpl. by rewrite Ascii.eqb_refl. Qed.

Lemma strip_suffix_app (p l : list ascii) : strip_suffix p (l ++ p) = Some l.
Proof. unfold strip_suffix. rewrite rev_app_distr, strip_prefix_app. simpl. by rewrite rev_involutive. Qed.

(** A character is not in a literal that does not write it. *)
Ltac not_in_literal H := apply list_elem_of_In in H; simpl in H; intuition discriminate.

(** C17 (roundtrip).  The data URI [uploadImage] sends to Cloudinary
    carries the file: reading it as RFC 2397 and RFC 4648 say gives back
    the file's [mimetype] and every byte of its [buffer], in order, for
    every media type without a comma (a MIME type has none). *)
Theorem dataURI_roundtrip (f : MulterFile) :
  ","%char ∉ list_ascii_of_string (mimetype f) ->
  parse_data_uri (dataURI f) = Some (mimetype f, buffer f).
Proof.
  intros Hm. unfold parse_data_uri, dataURI.
  rewrite !list_ascii_of_string_app.
  change (list_ascii_of_string ";base64,") with (list_ascii_of_string ";base64" ++ [","%char]).
  rewrite <- (app_assoc (list_ascii_of_string ";base64")), !app_assoc, <- (app_assoc _ [_]).
  rewrite <- app_comm_cons, app_nil_l, split_at_app.
  - cbn -[strip_suffix unbase64]. rewrite strip_suffix_app.
    cbn -[unbase64]. by rewrite !string_of_list_ascii_of_string, unbase64_base64.
  - rewrite !elem_of_app. intros [[Hd|Hd]|Hd]; [not_in_literal Hd|done|not_in_literal Hd].
Qed.




(** ** Witnesses *)

Definition demo_file : MulterFile := mkMulterFile "image/png" [x89; x50; x4e; x47; x0d; x0a].

Lemma dataURI_roundtrip_witness :
  ","%char ∉ list_ascii_of_string (mimetype demo_file)
  /\ parse_data_uri (dataURI demo_file) = Some (mimetype demo_file, buffer demo_file).
Proof.
  assert (Hm : ","%char ∉ list_ascii_of_string (mimetype demo_file)) by (intros Hd; not_in_literal Hd).
  split; [exact Hm | apply dataURI_roundtrip; exact Hm].
Defined.

