(* ===== verification/Comments.v ===== *)
(** * Comments: controllers/commentController.ts

    [createComment], [getCommentsForPost], [createReply] and
    [getRepliesForComment] as handlers on the [World].  models/Comment.ts is
    not in the repository: a comment document has the fields the controller
    writes ([postId], [author], [content], [replies]), with [postId] and
    [author] cast to ObjectIds; no other schema check is assumed.

    [createComment] writes twice: the comment ([newComment.save()]) and then
    the post whose [comments] array it extends ([post.save()]); the model
    keeps the first write if the second throws, as the database does.

    The theorems: a created comment is stored and linked from its post;
    the link invariant [comments_linked] is kept by comment and reply
    creation but broken by [deletePost]; [getCommentsForPost] never replies
    404 (its [!comments] test is always false); a reply is appended with a
    fresh id and the current time. *)

From S2P Require Import Prelude ObjectId Js Models Votes Auth Guard.
From stdpp Require Import base list gmap strings.
From Stdlib Require Import ZArith.

(** ** Store operations *)

(** [Comment.findById(id)]. *)
Definition find_comment (id : oid) : handler (option Comment.t) :=
  fun w => (w, Cont (comments w !! id)).

Definition set_comments (cs : gmap oid Comment.t) (w : World) : World :=
  mkWorld (users w) (posts w) cs (next_oid w) (now w).

(** [newComment.save()] of a new document: the unique [_id]. *)
Definition insert_comment (id : oid) (c : Comment.t) : handler unit :=
  fun w =>
    if bool_decide (is_Some (comments w !! id)) then (w, Raise DuplicateKey)
    else (set_comments (<[id := c]> (comments w)) w, Cont tt).

(** [parentComment.save()] of a loaded document. *)
Definition save_comment (id : oid) (c : Comment.t) : handler unit :=
  fun w => (set_comments (<[id := c]> (comments w)) w, Cont tt).

(** [Comment.find({ postId })]: the comments of a post, in the order of the
    collection. *)
Definition find_comments_of (pid : oid) : handler (list (oid * Comment.t)) :=
  fun w => (w, Cont (List.filter (fun ic => bool_decide (Comment.postId ic.2 = pid))
                       (map_to_list (comments w)))).

(** [Post.findById(postId)] with [postId] from the body: [undefined] finds
    nothing, a string is cast. *)
Definition find_post_opt (postId : option string) : handler (option (oid * Post.t)) :=
  match postId with
  | None => ret None
  | Some s => let* pid := cast_or_throw s in
              fun w => (w, Cont (option_map (pair pid) (posts w !! pid)))
  end.

(** [post.comments.push(id)]. *)
Definition push_comment (cid : oid) (p : Post.t) : Post.t :=
  Post.mk (Post.author p) (Post.title p) (Post.content p) (Post.category p)
    (Post.upVotes p) (Post.downVotes p) (Post.upVotedBy p) (Post.downVotedBy p)
    (Post.imageUrl p) (Post.comments p ++ [cid]) (Post.lastUpdated p).

(** ** The controllers *)

(** createComment (lines 7-36): [postId] and [content] from the body. *)
Definition createComment (postId : option string) (content : string) (decoded : jsval)
  : handler Response :=
  let* found := find_post_opt postId in
  match found with
  | None => reply (message 404 "Post not found")
  | Some (pid, post) =>
      let* uid := token_user_id decoded in
      let* cid := fresh_oid in
      let* author := js_oid uid in
      let newComment := Comment.mk pid author content [] in
      insert_comment cid newComment ;;;
      save_post pid (push_comment cid post) ;;;
      let* created := find_comment cid in
      match created with
      | Some c => ret (json 201 (BComment cid c))
      | None => ret (json 201 BNull)
      end
  end.

(** [!v] on the value [Comment.find(...).lean()] resolves to: an array,
    which is an object and so never falsy, whatever it holds. *)
Definition array_falsy {A} (l : list A) : bool := false.

(** getCommentsForPost (lines 39-56). *)
Definition getCommentsForPost (postId : string) : handler Response :=
  let* pid := cast_or_throw postId in
  let* cs := find_comments_of pid in
  if array_falsy cs then reply (message 404 "Comments not found")
  else ret (json 200 (BComments cs)).

(** createReply (lines 59-83). *)
Definition createReply (commentId : string) (content : string) (decoded : jsval)
  : handler Response :=
  let* cid := cast_or_throw commentId in
  let* found := find_comment cid in
  let* parent := or_reply found (message 404 "Comment not found") in
  let* rid := fresh_oid in
  let* uid := token_user_id decoded in
  let* t := clock in
  let* author := js_oid uid in
  let newReply := Reply.mk rid author content t in
  save_comment cid (Comment.mk (Comment.postId parent) (Comment.author parent)
                      (Comment.content parent) (Comment.replies parent ++ [newReply])) ;;;
  ret (json 201 (BReply newReply)).

(** getRepliesForComment (lines 86-103). *)
Definition getRepliesForComment (commentId : string) : handler Response :=
  let* cid := cast_or_throw commentId in
  let* found := find_comment cid in
  let* c := or_reply found (message 404 "Comment not found") in
  ret (json 200 (BReplies (Comment.replies c))).

(** ** The link between posts and comments *)

(** Every stored comment is listed in the [comments] array of its post. *)
Definition comments_linked (w : World) : Prop :=
  map_Forall (fun cid c => exists p, posts w !! Comment.postId c = Some p
                                 /\ cid ∈ Post.comments p) (comments w).

#[export] Instance comments_linked_dec (w : World) : Decision (comments_linked w).
Proof.
  unfold comments_linked. apply map_Forall_dec. intros cid c.
  destruct (posts w !! Comment.postId c) as [p|] eqn:Hp.
  - destruct (decide (cid ∈ Post.comments p)).
    + left. eauto.
    + right. intros (p' & Hp' & Hin). congruence.
  - right. intros (p' & Hp' & _). congruence.
Defined.

(** Every stored post passes its schema: every write of a post validates. *)
Definition posts_valid (w : World) : Prop :=
  map_Forall (fun _ p => Post.validate p = true) (posts w).

#[export] Instance posts_valid_dec (w : World) : Decision (posts_valid w).
Proof. unfold posts_valid. apply _. Defined.

Lemma validate_push_comment (cid : oid) (p : Post.t) :
  Post.validate (push_comment cid p) = Post.validate p.
Proof. reflexivity. Qed.

(** A comment creation on a stored valid post by a token with a string id,
    path by path once the post is found. *)
Lemma createComment_found (pid u : oid) (p : Post.t) (content : string) (d : jsval) (w : World) :
  (pid < oid_bound)%N -> (u < oid_bound)%N -> posts w !! pid = Some p ->
  Post.validate p = true -> req_user_id d = Some (JStr (toHexString u)) ->
  let cid := (next_oid w mod oid_bound)%N in
  let w1 := mkWorld (users w) (posts w) (comments w) (N.succ (next_oid w)) (now w) in
  run (createComment (Some (toHexString pid)) content d) w =
  if bool_decide (is_Some (comments w !! cid)) then (w1, error500)
  else (mkWorld (users w) (<[pid := push_comment cid p]> (posts w))
          (<[cid := Comment.mk pid u content []]> (comments w)) (N.succ (next_oid w)) (now w),
        json 201 (BComment cid (Comment.mk pid u content []))).
Proof.
  intros Hpid Hu Hp Hval Hd cid w1.
  unfold createComment, find_post_opt, token_user_id, js_oid; unfold_handler.
  rewrite toHexString_cast by done; simpl. rewrite Hp; simpl. rewrite Hd; simpl.
  rewrite toHexString_cast by done; simpl.
  unfold insert_comment; simpl. fold cid. case_bool_decide; simpl; [done|].
  rewrite validate_push_comment, Hval; simpl. unfold find_comment; simpl.
  by rewrite lookup_insert_eq.
Qed.

Lemma js_oid_spec (v : jsval) (w : World) :
  (exists o, js_oid v w = (w, Cont o)) \/ (exists e, js_oid v w = (w, Raise e)).
Proof.
  unfold js_oid, cast_or_throw, ret, throw.
  destruct v; eauto. destruct (castObjectId s); eauto.
Qed.

(** What a comment creation writes: nothing to posts and comments, or one
    new comment under a free id, with its post extended by the id unless
    the post's save failed. *)
Lemma createComment_cases (postId : option string) (content : string) (d : jsval) (w : World) :
  let w' := fst (run (createComment postId content d) w) in
  (posts w' = posts w /\ comments w' = comments w)
  \/ exists pid p cid c, posts w !! pid = Some p /\ comments w !! cid = None
       /\ Comment.postId c = pid /\ comments w' = <[cid := c]> (comments w)
       /\ (posts w' = <[pid := push_comment cid p]> (posts w)
           \/ (posts w' = posts w /\ Post.validate (push_comment cid p) = false)).
Proof.
  unfold createComment, find_post_opt, token_user_id, insert_comment, find_comment;
    unfold run, run_handler, bind, ret, reply, throw, cast_or_throw, find_post, save_post,
    fresh_oid, clock; simpl.
  destruct postId as [s|]; simpl; [|by left].
  destruct (castObjectId s) as [pid|]; simpl; [|by left].
  destruct (posts w !! pid) as [p|] eqn:Hp; simpl; [|by left].
  destruct (req_user_id d) as [uid|]; simpl; [|by left].
  set (w1 := mkWorld (users w) (posts w) (comments w) (N.succ (next_oid w)) (now w)).
  destruct (js_oid_spec uid w1) as [[o Ho]|[e He]]; rewrite ?Ho, ?He; simpl; [|by left].
  case_bool_decide as Hdup; simpl; [by left|].
  right. exists pid, p, (next_oid w mod oid_bound)%N, (Comment.mk pid o content []).
  split_and!; try done.
  - destruct (comments w !! _) eqn:Hc; [|done]. exfalso. apply Hdup. by eexists.
  - destruct (Post.validate _); simpl; [by rewrite lookup_insert_eq|done].
  - destruct (Post.validate _) eqn:Hv; simpl; [rewrite lookup_insert_eq; by left|by right].
Qed.

(** ** Properties of the comment controller *)

(** C25 (functional).  A comment on a stored post, by a token with a string
    id, is stored under the next id with the post, author and content, and
    its id is appended to the post's [comments]; the reply is 201 with the
    comment, and no other post changes. *)
Theorem createComment_links (pid u : oid) (p : Post.t) (content : string) (d : jsval) (w : World) :
  (pid < oid_bound)%N -> (u < oid_bound)%N -> posts w !! pid = Some p ->
  Post.validate p = true -> req_user_id d = Some (JStr (toHexString u)) ->
  comments w !! (next_oid w mod oid_bound)%N = None ->
  let cid := (next_oid w mod oid_bound)%N in
  let '(w', r) := run (createComment (Some (toHexString pid)) content d) w in
  r = json 201 (BComment cid (Comment.mk pid u content []))
  /\ comments w' !! cid = Some (Comment.mk pid u content [])
  /\ posts w' !! pid = Some (push_comment cid p)
  /\ (forall q, q <> pid -> posts w' !! q = posts w !! q).
Proof.
  intros Hpid Hu Hp Hval Hd Hfree. rewrite (createComment_found pid u p content d w) by done.
  simpl. rewrite bool_decide_eq_false_2 by (rewrite Hfree; by intros []). simpl.
  split_and!; [done|by rewrite lookup_insert_eq|by rewrite lookup_insert_eq|].
  intros q Hq. by rewrite lookup_insert_ne.
Qed.

(** C26 (invariant).  When every stored post is valid, every comment
    creation request keeps every comment listed in its post's [comments]
    (the comment is saved first, so this rests on the post's save not
    failing). *)
Theorem createComment_preserves_linked (postId : option string) (content : string) (d : jsval)
    (w : World) :
  comments_linked w -> posts_valid w ->
  comments_linked (fst (run (createComment postId content d) w)).
Proof.
  intros Hl Hv.
  destruct (createComment_cases postId content d w)
    as [[Hp Hc]|(pid & p & cid & c & Hp & Hc & Hpid & Hc' & Hposts)].
  - unfold comments_linked in *. rewrite Hp, Hc. exact Hl.
  - destruct Hposts as [Hposts|[_ Hbad]];
      [|by rewrite validate_push_comment, (Hv pid p Hp) in Hbad].
    unfold comments_linked in *. rewrite Hc', Hposts. apply map_Forall_insert_2.
    + exists (push_comment cid p). rewrite Hpid, lookup_insert_eq. split; [done|].
      simpl. set_solver.
    + intros cid' c' Hc''. destruct (Hl cid' c' Hc'') as (p' & Hp' & Hin).
      destruct (decide (Comment.postId c' = pid)) as [Heq|Hne].
      * exists (push_comment cid p). rewrite Heq, lookup_insert_eq. split; [done|].
        rewrite Heq, Hp in Hp'. injection Hp' as <-. simpl. set_solver.
      * exists p'. by rewrite lookup_insert_ne by congruence.
Qed.

(** [getCommentsForPost] never replies 404: its
    [if (!comments)] tests the array [Comment.find] returns, which is never
    falsy.  For a well-formed id it replies 200 with the comments whose
    [postId] is that id, possibly none, even when no such post exists. *)
Theorem getCommentsForPost_never_404 (s : string) (w : World) :
  let '(w', r) := run (getCommentsForPost s) w in
  w' = w /\ status r <> 404%Z
  /\ forall pid, castObjectId s = Some pid ->
       r = json 200 (BComments (List.filter (fun ic => bool_decide (Comment.postId ic.2 = pid))
                                  (map_to_list (comments w)))).
Proof.
  unfold getCommentsForPost, find_comments_of, array_falsy; unfold_handler.
  destruct (castObjectId s) as [pid|]; simpl.
  - split_and!; [done|discriminate|]. by intros ? [= ->].
  - split_and!; [done|discriminate|]. done.
Qed.

(** C27 (functional).  A reply to a stored comment, by a token with a string
    id, is appended to the comment's replies with the next id, the token's
    user as author and the current time; the reply is 201 with it. *)
Theorem createReply_appends (cid u : oid) (c : Comment.t) (content : string) (d : jsval) (w : World) :
  (cid < oid_bound)%N -> (u < oid_bound)%N -> comments w !! cid = Some c ->
  req_user_id d = Some (JStr (toHexString u)) ->
  let r := Reply.mk (next_oid w mod oid_bound) u content (now w) in
  run (createReply (toHexString cid) content d) w
  = (mkWorld (users w) (posts w)
       (<[cid := Comment.mk (Comment.postId c) (Comment.author c) (Comment.content c)
                  (Comment.replies c ++ [r])]> (comments w))
       (N.succ (next_oid w)) (now w),
     json 201 (BReply r)).
Proof.
  intros Hcid Hu Hc Hd r. unfold createReply, token_user_id, js_oid, find_comment, save_comment.
  unfold_handler. rewrite !toHexString_cast by done; simpl. rewrite Hc; simpl. rewrite Hd; simpl.
  by rewrite toHexString_cast by done.
Qed.

(** A scenario of the gap in the spec: deleting a post leaves its comments:
    after bob comments on alice's post and alice deletes it, the comment is
    no longer listed by any post, and [getCommentsForPost] still returns it
    with status 200. *)
Example deletePost_orphans_comments :
  let w1 := fst (run (createComment (Some (toHexString 3)) "Drink more water" bob_token)
                   scenario_world) in
  let w2 := fst (run (deletePost (toHexString 3) alice_token) w1) in
  comments_linked w1 /\ ~ comments_linked w2
  /\ snd (run (getCommentsForPost (toHexString 3)) w2)
     = json 200 (BComments [(4%N, Comment.mk 3 2 "Drink more water" [])]).
Proof. intros w1 w2. split_and!; [decide_by_eval | decide_by_eval | vm_compute; reflexivity]. Qed.

(** ** Witnesses *)

Definition comment_world : World :=
  mkWorld (users scenario_world) (posts scenario_world)
    {[4%N := Comment.mk 3 2 "Drink more water" []]} 5 1700000000000.

Lemma createComment_links_witness :
  let cid := (next_oid scenario_world mod oid_bound)%N in
  let '(w', r) := run (createComment (Some (toHexString 3)) "Drink more water" bob_token)
                    scenario_world in
  r = json 201 (BComment cid (Comment.mk 3 2 "Drink more water" []))
  /\ comments w' !! cid = Some (Comment.mk 3 2 "Drink more water" [])
  /\ posts w' !! 3%N = Some (push_comment cid scenario_post)
  /\ (forall q, q <> 3%N -> posts w' !! q = posts scenario_world !! q).
Proof.
  apply (createComment_links 3 2 scenario_post);
    [vm_compute; reflexivity | vm_compute; reflexivity | reflexivity | vm_compute; reflexivity
    | reflexivity | reflexivity].
Defined.

Lemma createComment_preserves_linked_witness :
  comments_linked (fst (run (createComment (Some (toHexString 3)) "Drink more water" bob_token)
                          scenario_world)).
Proof. apply createComment_preserves_linked; decide_by_eval. Defined.

Lemma createReply_appends_witness :
  let r := Reply.mk (next_oid comment_world mod oid_bound) 1 "Agreed" (now comment_world) in
  run (createReply (toHexString 4) "Agreed" alice_token) comment_world
  = (mkWorld (users comment_world) (posts comment_world)
       (<[4%N := Comment.mk 3 2 "Drink more water" [r]]> (comments comment_world))
       (N.succ (next_oid comment_world)) (now comment_world),
     json 201 (BReply r)).
Proof.
  apply (createReply_appends 4 1 (Comment.mk 3 2 "Drink more water" []));
    [vm_compute; reflexivity | vm_compute; reflexivity | reflexivity | reflexivity].
Defined.
