(* ===== verification/Wp.v ===== *)
(** * Wp: a weakest-precondition calculus for the handler monad

    [wp m Q E s]: running [m] from [s] either continues with a value [a]
    in a state where [Q a] holds, or stops (a reply or an exception) in a
    state where [E] holds.  The rules below, one per combinator of
    Prelude.v and one per store operation of Models.v, Guard.v and
    Comments.v, let a proof walk a
    handler statement by statement ([wp_run]) instead of unfolding it.
    [preserves I m] is the instance used for invariants of the database:
    whatever [m] does, [I] holds after it. *)

From S2P Require Import Prelude ObjectId Js Models Votes Auth Guard Comments.
From stdpp Require Import base list gmap strings.
From Stdlib Require Import ZArith.

Section Wp.
Context {S R : Type}.

Definition wp {A} (m : M S R A) (Q : A -> S -> Prop) (E : S -> Prop) (s : S) : Prop :=
  match m s with
  | (s', Cont a) => Q a s'
  | (s', _) => E s'
  end.

Definition preserves {A} (I : S -> Prop) (m : M S R A) : Prop :=
  forall s, I s -> wp m (fun _ => I) I s.

Lemma wp_bind {A B} (m : M S R A) (k : A -> M S R B) Q E s :
  wp m (fun a s' => wp (k a) Q E s') E s -> wp (bind m k) Q E s.
Proof. unfold wp, bind. by destruct (m s) as [s' []]. Qed.

Lemma wp_ret {A} (a : A) Q E s : Q a s -> wp (ret (R:=R) a) Q E s.
Proof. done. Qed.

Lemma wp_reply {A} (r : R) (Q : A -> S -> Prop) E s : E s -> wp (reply r) Q E s.
Proof. done. Qed.

Lemma wp_throw {A} (e : exn) (Q : A -> S -> Prop) E s : E s -> wp (throw (R:=R) e) Q E s.
Proof. done. Qed.

Lemma wp_or_reply {A} (o : option A) (r : R) Q E s :
  match o with Some a => Q a s | None => E s end -> wp (or_reply o r) Q E s.
Proof. by destruct o. Qed.

Lemma wp_cast_or_throw (str : string) Q E s :
  match castObjectId str with Some o => Q o s | None => E s end ->
  wp (cast_or_throw (S:=S) (R:=R) str) Q E s.
Proof. unfold cast_or_throw. by destruct (castObjectId str). Qed.

Lemma wp_mono {A} (m : M S R A) (Q Q' : A -> S -> Prop) (E E' : S -> Prop) s :
  wp m Q E s -> (forall a s', Q a s' -> Q' a s') -> (forall s', E s' -> E' s') -> wp m Q' E' s.
Proof. unfold wp. destruct (m s) as [s' []]; eauto. Qed.

(** What [run_handler] leaves satisfies what the handler's [wp] promised. *)
Lemma run_handler_wp (on_error : R) (m : M S R R) (I : S -> Prop) s :
  wp m (fun _ => I) I s -> I (run_handler on_error m s).1.
Proof. unfold wp, run_handler. by destruct (m s) as [s' []]. Qed.
End Wp.

(** ** The store operations *)

Lemma wp_find_post (i : oid) Q E w : Q (posts w !! i) w -> wp (find_post i) Q E w.
Proof. done. Qed.

Lemma wp_save_post (i : oid) (p : Post.t) Q E w :
  (if Post.validate p then Q tt (set_posts (<[i := p]> (posts w)) w) else E w) ->
  wp (save_post i p) Q E w.
Proof. unfold wp, save_post. by destruct (Post.validate p). Qed.

Lemma wp_fresh_oid Q E w :
  Q (next_oid w mod oid_bound)%N
    (mkWorld (users w) (posts w) (comments w) (N.succ (next_oid w)) (now w)) ->
  wp fresh_oid Q E w.
Proof. done. Qed.

Lemma wp_clock Q E w : Q (now w) w -> wp clock Q E w.
Proof. done. Qed.

Lemma wp_find_user_by (P : User.t -> bool) Q E w :
  Q (List.find (fun iu => P iu.2) (map_to_list (users w))) w -> wp (find_user_by P) Q E w.
Proof. done. Qed.

Lemma wp_save_user (i : oid) (u : User.t) Q E w :
  (if User.validate u then
     if bool_decide (is_Some (users w !! i)
           \/ map_Exists (fun _ v => User.username v = User.username u
                                     \/ User.email v = User.email u) (users w))
     then E w else Q tt (set_users (<[i := u]> (users w)) w)
   else E w) ->
  wp (save_user i u) Q E w.
Proof. unfold wp, save_user. by destruct (User.validate u), (bool_decide _). Qed.

Lemma wp_insert_post (i : oid) (p : Post.t) Q E w :
  (if negb (Post.validate p) then E w
   else if bool_decide (is_Some (posts w !! i)) then E w
   else Q tt (set_posts (<[i := p]> (posts w)) w)) ->
  wp (insert_post i p) Q E w.
Proof. unfold wp, insert_post. by destruct (Post.validate p), (bool_decide (is_Some _)). Qed.

Lemma wp_delete_post (i : oid) Q E w :
  Q tt (set_posts (delete i (posts w)) w) -> wp (delete_post i) Q E w.
Proof. done. Qed.

Lemma wp_find_comment (i : oid) Q E w : Q (comments w !! i) w -> wp (find_comment i) Q E w.
Proof. done. Qed.

Lemma wp_insert_comment (i : oid) (c : Comment.t) Q E w :
  (if bool_decide (is_Some (comments w !! i)) then E w
   else Q tt (set_comments (<[i := c]> (comments w)) w)) ->
  wp (insert_comment i c) Q E w.
Proof. unfold wp, insert_comment. by destruct (bool_decide (is_Some _)). Qed.

Lemma wp_save_comment (i : oid) (c : Comment.t) Q E w :
  Q tt (set_comments (<[i := c]> (comments w)) w) -> wp (save_comment i c) Q E w.
Proof. done. Qed.

Lemma wp_find_comments_of (pid : oid) Q E w :
  Q (List.filter (fun ic => bool_decide (Comment.postId ic.2 = pid)) (map_to_list (comments w))) w ->
  wp (find_comments_of pid) Q E w.
Proof. done. Qed.

(** A handler written as a function of the state: evaluate it. *)
Lemma wp_eval {S R A} (m : M S R A) Q E (s : S) :
  match m s with (s', Cont a) => Q a s' | (s', _) => E s' end -> wp m Q E s.
Proof. done. Qed.

(** Split on the scrutinee of a [match] or [if] of the goal that contains
    no other [match]. *)
Ltac case_inner :=
  match goal with
  | |- context [match ?x with _ => _ end] =>
      lazymatch x with
      | context [match _ with _ => _ end] => fail
      | _ => tryif is_var x then destruct x else destruct x eqn:?
      end
  end.

(** Walk a handler: the rule of the statement at its head, a case split
    per [match] or [if], evaluation of a handler given as [fun w => ...]. *)
Ltac wp_step :=
  first
    [ progress cbv beta iota zeta delta [option_map]
    | lazymatch goal with
      | |- wp ?m _ _ _ =>
          lazymatch m with
          | bind _ _ => apply wp_bind
          | ret _ => apply wp_ret
          | reply _ => apply wp_reply
          | throw _ => apply wp_throw
          | or_reply _ _ => apply wp_or_reply
          | cast_or_throw _ => apply wp_cast_or_throw
          | find_post _ => apply wp_find_post
          | save_post _ _ => apply wp_save_post
          | fresh_oid => apply wp_fresh_oid
          | clock => apply wp_clock
          | find_user_by _ => apply wp_find_user_by
          | save_user _ _ => apply wp_save_user
          | insert_post _ _ => apply wp_insert_post
          | delete_post _ => apply wp_delete_post
          | find_comment _ => apply wp_find_comment
          | insert_comment _ _ => apply wp_insert_comment
          | save_comment _ _ => apply wp_save_comment
          | find_comments_of _ => apply wp_find_comments_of
          | (fun _ => _) => apply wp_eval
          | _ => case_inner
          end
      | |- _ => case_inner
      end ].

Ltac wp_run := repeat wp_step.
