(* ===== verification/Queries.v ===== *)
(** * Queries: the read-only handlers of controllers/postController.ts

    [getAllPosts] (lines 8-41), [getPostById] (lines 74-101) and
    [getAllPostsByUser] (lines 102-138).  They write nothing.  The
    population of [author] and [comments] replaces ids by documents in the
    reply and is not modelled: a reply lists the stored posts with their
    ids.

    [Post.find().sort(spec)] is MongoDB's sort: the documents in an order
    that follows the key, ties in no promised order.  [mongo_sort] takes
    stdpp's merge sort for it, one order MongoDB may return; the theorem
    about [getAllPosts] is stated as the contract every admissible order
    meets: a permutation of the collection whose neighbours compare, field
    by field, the way the sort document of the code asks. *)

From S2P Require Import Prelude ObjectId Models.
From stdpp Require Import base list gmap strings sorting.
From Stdlib Require Import ZArith Lia.

(** [sort({ upVotes: -1, downVotes: 1 })]: more upvotes first, then fewer
    downvotes. *)
Definition most_voted (a b : oid * Post.t) : Prop :=
  (Post.upVotes b.2 < Post.upVotes a.2)%Z
  \/ (Post.upVotes a.2 = Post.upVotes b.2 /\ (Post.downVotes a.2 <= Post.downVotes b.2)%Z).

(** [sort({ lastUpdated: -1 })]: latest first; a missing date sorts below
    every date, so last. *)
Definition updated_after (a b : oid * Post.t) : Prop :=
  match Post.lastUpdated a.2, Post.lastUpdated b.2 with
  | Some x, Some y => (y <= x)%Z
  | _, None => True
  | None, Some _ => False
  end.

#[export] Instance most_voted_dec : RelDecision most_voted.
Proof. intros a b. unfold most_voted. apply _. Defined.

#[export] Instance updated_after_dec : RelDecision updated_after.
Proof. intros a b. unfold updated_after. repeat case_match; apply _. Defined.

(** MongoDB's sort of a collection by a key order. *)
Definition mongo_sort (R : relation (oid * Post.t)) {HR : RelDecision R}
    (l : list (oid * Post.t)) : list (oid * Post.t) :=
  merge_sort R l.

(** getAllPosts: [req.query.sort]. *)
Definition getAllPosts (sort : option string) : handler Response :=
  fun w =>
    let all := map_to_list (posts w) in
    if bool_decide (sort = Some "mostVoted")
    then (w, Cont (json 200 (BPosts (mongo_sort most_voted all))))
    else (w, Cont (json 200 (BPosts (mongo_sort updated_after all)))).

(** getPostById. *)
Definition getPostById (id : string) : handler Response :=
  let* pid := cast_or_throw id in
  let* found := find_post pid in
  let* post := or_reply found (message 404 "Post not found") in
  ret (json 200 (BPost pid post)).

(** [Post.find({ author: userId })]. *)
Definition posts_by (uid : oid) (w : World) : list (oid * Post.t) :=
  List.filter (fun ip => bool_decide (Post.author ip.2 = Some uid)) (map_to_list (posts w)).

(** getAllPostsByUser. *)
Definition getAllPostsByUser (userId : string) : handler Response :=
  if bool_decide (userId = "") then reply (message 400 "User ID is required") else
  let* uid := cast_or_throw userId in
  fun w =>
    match users w !! uid with
    | None => (w, Reply (message 404 "User not found"))
    | Some _ =>
        match posts_by uid w with
        | [] => (w, Reply (message 404 "No posts found for this user"))
        | ps => (w, Cont (json 200 (BPosts ps)))
        end
    end.

(** ** Lemmas *)

#[export] Instance most_voted_total : Total most_voted.
Proof. intros a b. unfold most_voted. lia. Qed.

#[export] Instance most_voted_trans : Transitive most_voted.
Proof. intros a b c. unfold most_voted. lia. Qed.

#[export] Instance updated_after_total : Total updated_after.
Proof. intros a b. unfold updated_after. repeat case_match; auto; lia. Qed.

#[export] Instance updated_after_trans : Transitive updated_after.
Proof.
  intros a b c. unfold updated_after.
  destruct (Post.lastUpdated a.2), (Post.lastUpdated b.2), (Post.lastUpdated c.2); try done; lia.
Qed.

Lemma mongo_sort_spec (R : relation (oid * Post.t)) {HR : RelDecision R} `{!Total R, !Transitive R}
    (l : list (oid * Post.t)) :
  mongo_sort R l ≡ₚ l /\ StronglySorted R (mongo_sort R l).
Proof. unfold mongo_sort. split; [apply merge_sort_Permutation|by apply StronglySorted_merge_sort]. Qed.

(** ** Properties *)

(** Two neighbours of a strongly sorted list are in order. *)
Lemma StronglySorted_adjacent {A} (R : relation A) (l1 l2 : list A) (a b : A) :
  StronglySorted R (l1 ++ a :: b :: l2) -> R a b.
Proof.
  induction l1 as [|x l1 IH]; simpl; intros Hs.
  - apply StronglySorted_inv in Hs as [_ Hf]. by apply Forall_inv in Hf.
  - apply StronglySorted_inv in Hs as [Hs _]. by apply IH.
Qed.

(** C28 (functional).  [getAllPosts] writes nothing and replies 200 with
    every stored post exactly once, and any two neighbours [a], [b] of the
    reply are in the order the code asks MongoDB for: with
    [sort=mostVoted] ([{ upVotes: -1, downVotes: 1 }]) [a] has at least
    as many upvotes as [b], and at most as many downvotes when the
    upvotes tie; otherwise ([{ lastUpdated: -1 }]) [a] was updated no
    earlier than [b], and a post without a date comes after every dated
    one. *)
Theorem getAllPosts_sorted (sort : option string) (w : World) :
  exists l, run (getAllPosts sort) w = (w, json 200 (BPosts l))
    /\ l ≡ₚ map_to_list (posts w)
    /\ forall l1 l2 a b, l = l1 ++ a :: b :: l2 ->
         if bool_decide (sort = Some "mostVoted") then
           (Post.upVotes b.2 <= Post.upVotes a.2)%Z
           /\ (Post.upVotes a.2 = Post.upVotes b.2 -> (Post.downVotes a.2 <= Post.downVotes b.2)%Z)
         else
           Post.lastUpdated b.2 = None
           \/ exists x y, Post.lastUpdated a.2 = Some x /\ Post.lastUpdated b.2 = Some y /\ (y <= x)%Z.
Proof.
  unfold run, run_handler, getAllPosts. case_bool_decide.
  - destruct (mongo_sort_spec most_voted (map_to_list (posts w))) as [Hp Hs].
    eexists. split_and!; [done|exact Hp|]. intros l1 l2 a b Hl. rewrite Hl in Hs.
    apply StronglySorted_adjacent in Hs. unfold most_voted in Hs. lia.
  - destruct (mongo_sort_spec updated_after (map_to_list (posts w))) as [Hp Hs].
    eexists. split_and!; [done|exact Hp|]. intros l1 l2 a b Hl. rewrite Hl in Hs.
    apply StronglySorted_adjacent in Hs. unfold updated_after in Hs.
    destruct (Post.lastUpdated a.2), (Post.lastUpdated b.2); naive_solver.
Qed.

(** C29 (functional).  For a well-formed user id: no such user replies 404
    "User not found"; a user without posts replies 404 "No posts found for
    this user"; otherwise the reply is 200 with exactly the posts whose
    author is that user.  Nothing is written. *)
Theorem getAllPostsByUser_spec (uid : oid) (w : World) :
  (uid < oid_bound)%N ->
  let '(w', r) := run (getAllPostsByUser (toHexString uid)) w in
  w' = w
  /\ (users w !! uid = None -> r = message 404 "User not found")
  /\ (is_Some (users w !! uid) -> posts_by uid w = [] ->
      r = message 404 "No posts found for this user")
  /\ (is_Some (users w !! uid) -> posts_by uid w <> [] ->
      exists ps, r = json 200 (BPosts ps)
        /\ forall i p, (i, p) ∈ ps <-> posts w !! i = Some p /\ Post.author p = Some uid).
Proof.
  intros Hu. unfold getAllPostsByUser.
  rewrite bool_decide_eq_false_2 by (intros Hs; pose proof (length_hex_n 24 uid) as Hl;
    unfold toHexString in Hs; rewrite Hs in Hl; discriminate).
  unfold run, run_handler, bind, cast_or_throw, ret. rewrite toHexString_cast by done.
  destruct (users w !! uid) as [usr|] eqn:Hus; simpl.
  - destruct (posts_by uid w) as [|ip ps] eqn:Hps; simpl.
    + split_and!; try done.
    + split_and!; try done. intros _ _. eexists. split; [done|].
      intros i p. rewrite <- Hps. unfold posts_by.
      rewrite list_elem_of_In, filter_In, <- list_elem_of_In, elem_of_map_to_list. simpl.
      rewrite bool_decide_eq_true. naive_solver.
  - split_and!; try done; intros [? [=]].
Qed.

(** [getPostById] on a well-formed id with no post replies 404; on a
    malformed id the cast throws and the reply is 500; nothing is written
    either way. *)
Theorem getPostById_errors (s : string) (w : World) :
  (forall pid, castObjectId s = Some pid -> posts w !! pid = None) ->
  run (getPostById s) w
  = (w, if castObjectId s then message 404 "Post not found" else error500).
Proof.
  intros Hnone. unfold getPostById; unfold_handler.
  destruct (castObjectId s) as [pid|] eqn:Hs; simpl; [|done].
  by rewrite (Hnone pid eq_refl).
Qed.

(** ** Witnesses *)

Lemma getAllPostsByUser_spec_witness :
  let w := mkWorld ∅ ∅ ∅ 0 0 in
  let '(w', r) := run (getAllPostsByUser (toHexString 7)) w in
  w' = w
  /\ (users w !! 7%N = None -> r = message 404 "User not found")
  /\ (is_Some (users w !! 7%N) -> posts_by 7 w = [] ->
      r = message 404 "No posts found for this user")
  /\ (is_Some (users w !! 7%N) -> posts_by 7 w <> [] ->
      exists ps, r = json 200 (BPosts ps)
        /\ forall i p, (i, p) ∈ ps <-> posts w !! i = Some p /\ Post.author p = Some 7%N).
Proof. apply getAllPostsByUser_spec. vm_compute. reflexivity. Defined.

Lemma getPostById_errors_witness :
  run (getPostById "xyz") (mkWorld ∅ ∅ ∅ 0 0) = (mkWorld ∅ ∅ ∅ 0 0, error500).
Proof. apply (getPostById_errors "xyz"). intros pid Hs. discriminate Hs. Defined.
