(* ===== verification/Users.v ===== *)
(** * Users: controllers/userController.ts

    [getSingleUser] (lines 4-18) reads the token's [user._id] inside its
    [try], looks the user up and replies it without its password;
    [getAllUsers] (lines 20-31) replies every user without password, or 404
    when there is none.  Both write nothing.  The theorem: what
    [getSingleUser] replies for the two kinds of token the server signs. *)

From S2P Require Import Prelude ObjectId Js Models Auth Guard.
From stdpp Require Import base list gmap strings.
From Stdlib Require Import ZArith.

(** getSingleUser. *)
Definition getSingleUser (decoded : jsval) : handler Response :=
  let* uid := token_user_id decoded in
  let* found := find_user_js uid in
  match found with
  | None => reply (message 404 "User not found")
  | Some (id, u) => ret (json 200 (BUser (public_user id u)))
  end.

(** getAllUsers. *)
Definition getAllUsers : handler Response :=
  fun w =>
    match map_to_list (users w) with
    | [] => (w, Reply (message 404 "No users found"))
    | us => (w, Cont (json 200 (BUsers (map (fun iu => public_user iu.1 iu.2) us))))
    end.

(** C31 (functional).  With a login token, [getSingleUser] replies 200
    with the token's own user (id, username, email, image; never the
    password hash) or 404 if that user is gone; with the token a
    registration sets it replies 500.  Nothing is written. *)
Theorem getSingleUser_spec `{JwtSecret} (t : Z) (id : oid) (u : User.t) (w : World) :
  (id < oid_bound)%N ->
  run (getSingleUser (jwt_claims (jwt_sign t (JObj [("user", user_rest id u)])))) w
    = (w, match users w !! id with
          | Some v => json 200 (BUser (public_user id v))
          | None => message 404 "User not found"
          end)
  /\ run (getSingleUser (jwt_claims (jwt_sign t (JObj [("user", JFun)])))) w = (w, error500).
Proof.
  intros Hid. split.
  - unfold getSingleUser, token_user_id, find_user_js. rewrite req_user_id_login.
    unfold_handler. rewrite toHexString_cast by done. simpl. by destruct (users w !! id).
  - unfold getSingleUser, token_user_id. by rewrite req_user_id_register.
Qed.

Lemma getSingleUser_spec_witness :
  run (getSingleUser (jwt_claims (@jwt_sign demo_secret 0 (JObj [("user", user_rest 1 alice)]))))
    auth_world
    = (auth_world, match users auth_world !! 1%N with
          | Some v => json 200 (BUser (public_user 1 v))
          | None => message 404 "User not found"
          end)
  /\ run (getSingleUser (jwt_claims (@jwt_sign demo_secret 0 (JObj [("user", JFun)]))))
       auth_world = (auth_world, error500).
Proof. apply getSingleUser_spec. vm_compute. reflexivity. Defined.
