(* ===== verification/Validation.v ===== *)
(** * Validation: middleware/validation.ts (express-validator)

    A validation chain [body(path)...] reads one field of [req.body], runs
    its validators on it in order and records one error per validator that
    fails (no [.bail()] is used, so every validator of a chain runs).
    [.withMessage(m)] names the error of the validator just before it;
    a validator without one reports ["Invalid value"].  [.optional()]
    skips the whole chain when the field is [undefined].  Sanitizers
    ([normalizeEmail]) write the field back.  [handleValidationErrors]
    (lines 4-14) replies 400 with [{ errors }] when any chain recorded an
    error and passes the sanitized body on otherwise.

    The standard validators look at [toString(value)] (express-validator's
    own, [to_string]); [isString] looks at the value's type.  [isEmail] and
    [normalizeEmail] are validator.js's, a large grammar the program only
    calls: they are the class [EmailRules].  Strings are byte strings, so
    [isLength] counts characters exactly on ASCII input.  JSON numbers are
    integers in [jsval]. *)

From S2P Require Import Prelude ObjectId Js Models.
From stdpp Require Import base list strings pretty.
From Stdlib Require Import ZArith Ascii Lia.

Class EmailRules := {
  isEmail : string -> bool;
  normalizeEmail : string -> string
}.

(** A JSON request body. *)
Abbreviation body := (list (string * jsval)) (only parsing).

(** [toString] of express-validator's utils. *)
Definition to_string (v : jsval) : string :=
  match v with
  | JUndefined | JNull | JFun => ""
  | JStr s => s
  | JNum z => pretty z
  | JBool b => if b then "true" else "false"
  | JOid o => toHexString o
  | JObj _ => "[object Object]"
  end.

(** [req.body[k] = v]. *)
Fixpoint set_field (k : string) (v : jsval) (fs : body) : body :=
  match fs with
  | [] => [(k, v)]
  | (k', x) :: fs' => if decide (k' = k) then (k', v) :: fs' else (k', x) :: set_field k v fs'
  end.

(** *** Validators *)

Definition isString (v : jsval) : bool := match v with JStr _ => true | _ => false end.

Definition notEmpty (v : jsval) : bool := negb (bool_decide (to_string v = "")).

Definition isLength_min (n : nat) (v : jsval) : bool := Nat.leb n (String.length (to_string v)).

Definition isIn (opts : list string) (v : jsval) : bool := bool_decide (to_string v ∈ opts).

Definition is_digit (c : ascii) : bool :=
  Nat.leb 48 (nat_of_ascii c) && Nat.leb (nat_of_ascii c) 57.

(** The value of a string of decimal digits read after [acc]. *)
Fixpoint digits_value (s : string) (acc : Z) : option Z :=
  match s with
  | EmptyString => Some acc
  | String c s' =>
      if is_digit c then digits_value s' (acc * 10 + Z.of_nat (nat_of_ascii c - 48))%Z else None
  end.

(** validator.js's [intLeadingZeroes], [/^[-+]?[0-9]+$/], and [Number(str)]. *)
Definition parse_int (s : string) : option Z :=
  let unsigned r := match r with EmptyString => None | _ => digits_value r 0 end in
  match s with
  | String "-" r => option_map Z.opp (unsigned r)
  | String "+" r => unsigned r
  | _ => unsigned s
  end.

(** [isInt({ min })]: the pattern, then [str >= min]. *)
Definition isInt_min (m : Z) (v : jsval) : bool :=
  match parse_int (to_string v) with
  | Some z => bool_decide (m <= z)%Z
  | None => false
  end.

(** *** Chains *)

Definition is_undefined (v : jsval) : bool := match v with JUndefined => true | _ => false end.

Record check := mkCheck { test : jsval -> bool; msg : string }.

Record chain := mkChain {
  path : string;
  optional : bool;
  checks : list check;
  sanitizer : option (jsval -> jsval)
}.

(** One chain on the body: its errors as [(path, msg)], and the body with
    the field sanitized. *)
Definition run_chain (c : chain) (b : body) : list (string * string) * body :=
  let v := field (path c) b in
  if optional c && is_undefined v then ([], b) else
  let errs := map (fun k => (path c, msg k)) (List.filter (fun k => negb (test k v)) (checks c)) in
  (errs, match sanitizer c with Some f => set_field (path c) (f v) b | None => b end).

Fixpoint run_chains (cs : list chain) (b : body) : list (string * string) * body :=
  match cs with
  | [] => ([], b)
  | c :: cs' =>
      let '(e1, b1) := run_chain c b in
      let '(e2, b2) := run_chains cs' b1 in
      (e1 ++ e2, b2)
  end.

(** What a middleware does: call [next()] with the request body, or reply. *)
Inductive mw_result :=
| Next (b : body)
| Stop (r : Response).

(** The chains, then handleValidationErrors. *)
Definition handleValidationErrors (cs : list chain) (b : body) : mw_result :=
  match run_chains cs b with
  | ([], b') => Next b'
  | (errs, _) => Stop (json 400 (BErrors errs))
  end.

Definition invalid_value : string := "Invalid value".

Section Chains.
Context `{EmailRules}.

Definition validateRegisterRequest : list chain := [
  mkChain "username" false
    [mkCheck isString invalid_value;
     mkCheck notEmpty "Username must be a string and cannot be empty"] None;
  mkChain "email" false
    [mkCheck (fun v => isEmail (to_string v)) "Must be a valid email"]
    (Some (fun v => JStr (normalizeEmail (to_string v))));
  mkChain "password" false
    [mkCheck isString invalid_value;
     mkCheck notEmpty "Password must be a string and cannot be empty";
     mkCheck (isLength_min 4) "Password must be at least 4 characters long"] None;
  mkChain "imageUrl" true [] None].
End Chains.

Definition validateLoginRequest : list chain := [
  mkChain "username" false
    [mkCheck isString invalid_value;
     mkCheck notEmpty "Username must be a string and cannot be empty"] None;
  mkChain "password" false
    [mkCheck isString invalid_value;
     mkCheck notEmpty "Password must be a string and cannot be empty";
     mkCheck (isLength_min 4) "Password must be at least 4 characters long"] None].

Definition post_categories : list string :=
  ["Kidney"; "Liver"; "Heart"; "Lungs"; "Diabetes"; "Cancer"; "Nutrition"; "Fitness"].

Definition validatePostRequest : list chain := [
  mkChain "title" false
    [mkCheck isString invalid_value;
     mkCheck notEmpty "Title must be a string and cannot be empty"] None;
  mkChain "content" false
    [mkCheck isString invalid_value;
     mkCheck notEmpty "Content must be a string and cannot be empty"] None;
  mkChain "category" false
    [mkCheck isString invalid_value;
     mkCheck notEmpty "Category must be a string and cannot be empty";
     mkCheck (isIn post_categories) "Category must be one of the predefined categories"] None;
  mkChain "upVotes" true [mkCheck (isInt_min 0) "UpVotes must be a non-negative integer"] None;
  mkChain "downVotes" true [mkCheck (isInt_min 0) "DownVotes must be a non-negative integer"] None].

(** ** Lemmas *)

Lemma if_same {A} (c : bool) (x : A) : (if c then x else x) = x.
Proof. by destruct c. Qed.


(** A chain passes on the value [v] of its field. *)
Definition chain_ok (c : chain) (v : jsval) : Prop :=
  optional c && is_undefined v = true \/ Forall (fun k => test k v = true) (checks c).

Lemma filter_nil_Forall {A} (f : A -> bool) (l : list A) :
  List.filter (fun x => negb (f x)) l = [] <-> Forall (fun x => f x = true) l.
Proof.
  induction l as [|x l IH]; simpl; [split; auto|].
  rewrite Forall_cons, <- IH. destruct (f x); simpl; naive_solver.
Qed.

Lemma run_chain_errors (c : chain) (b : body) :
  (run_chain c b).1 = [] <-> chain_ok c (field (path c) b).
Proof.
  unfold run_chain, chain_ok. destruct (optional c && is_undefined _); simpl; [naive_solver|].
  rewrite <- filter_nil_Forall. split; [intros ?%map_eq_nil; by right|].
  intros [?|Hf]; [discriminate|by rewrite Hf].
Qed.

Lemma run_chain_body (c : chain) (b : body) :
  sanitizer c = None -> (run_chain c b).2 = b.
Proof. unfold run_chain. intros ->. by destruct (_ && _). Qed.

Lemma run_chain_sanitized (c : chain) (f : jsval -> jsval) (b : body) :
  sanitizer c = Some f -> optional c = false ->
  (run_chain c b).2 = set_field (path c) (f (field (path c) b)) b.
Proof. unfold run_chain. by intros -> ->. Qed.

(** Chains without sanitizers leave the body and pass exactly when each
    passes on it. *)
Lemma run_chains_pure (cs : list chain) (b : body) :
  Forall (fun c => sanitizer c = None) cs ->
  (run_chains cs b).2 = b
  /\ ((run_chains cs b).1 = [] <-> Forall (fun c => chain_ok c (field (path c) b)) cs).
Proof.
  induction 1 as [|c cs Hc Hcs IH]; simpl; [split; [done|split; auto]|].
  destruct (run_chain c b) as [e1 b1] eqn:H1.
  pose proof (run_chain_body c b Hc) as Hb. rewrite H1 in Hb; simpl in Hb; subst b1.
  destruct (run_chains cs b) as [e2 b2]; simpl in *. destruct IH as [-> IH].
  split; [done|]. rewrite Forall_cons, <- IH, <- run_chain_errors, H1; simpl.
  split; [intros ?%app_eq_nil|intros [-> ->]]; naive_solver.
Qed.

Lemma run_chains_cons (c : chain) (cs : list chain) (b : body) :
  (run_chains (c :: cs) b).1 = []
  <-> (run_chain c b).1 = [] /\ (run_chains cs (run_chain c b).2).1 = [].
Proof.
  simpl. destruct (run_chain c b) as [e1 b1]; simpl. destruct (run_chains cs b1) as [e2 b2]; simpl.
  split; [intros ?%app_eq_nil|intros [-> ->]]; naive_solver.
Qed.

Lemma handleValidationErrors_Next (cs : list chain) (b b' : body) :
  handleValidationErrors cs b = Next b' <-> (run_chains cs b).1 = [] /\ (run_chains cs b).2 = b'.
Proof.
  unfold handleValidationErrors. destruct (run_chains cs b) as [[|e es] b1]; simpl; naive_solver.
Qed.

Lemma handleValidationErrors_Stop (cs : list chain) (b : body) (r : Response) :
  handleValidationErrors cs b = Stop r -> exists errs, errs <> [] /\ r = json 400 (BErrors errs).
Proof.
  unfold handleValidationErrors. destruct (run_chains cs b) as [[|e es] b1]; [done|].
  intros [= <-]. exists (e :: es). split; [discriminate|done].
Qed.

Lemma is_undefined_spec (v : jsval) : is_undefined v = true <-> v = JUndefined.
Proof. destruct v; naive_solver. Qed.

Lemma nonempty_string_spec (v : jsval) :
  isString v = true /\ notEmpty v = true <-> exists s, v = JStr s /\ s <> "".
Proof.
  unfold notEmpty. rewrite negb_true_iff, bool_decide_eq_false. destruct v; simpl; naive_solver.
Qed.

Lemma post_categories_spec (s : string) :
  s ∈ post_categories <-> is_Some (category_of_string s).
Proof.
  split.
  - unfold post_categories. rewrite !elem_of_cons, elem_of_nil.
    intros Hs. repeat destruct Hs as [->|Hs]; try done; by eexists.
  - intros [cat Hc]. unfold category_of_string in Hc.
    apply List.find_some in Hc as [_ Hc%bool_decide_eq_true]. subst s.
    destruct cat; decide_by_eval.
Qed.

Lemma category_check_spec (v : jsval) :
  isString v = true /\ notEmpty v = true /\ isIn post_categories v = true
  <-> exists s cat, v = JStr s /\ category_of_string s = Some cat.
Proof.
  unfold isIn. rewrite bool_decide_eq_true, post_categories_spec. split.
  - intros (Hs & Hne & [cat Hc]). destruct v; try done. eauto.
  - intros (s & cat & -> & Hc). split_and!; [done| |exists cat; exact Hc].
    apply negb_true_iff, bool_decide_eq_false. simpl. intros ->. discriminate Hc.
Qed.

Lemma field_set_field_eq (k : string) (v : jsval) (b : body) : field k (set_field k v b) = v.
Proof.
  induction b as [|[k' x] b IH]; simpl; [by rewrite decide_True|].
  destruct (decide (k' = k)); simpl; [by rewrite decide_True|by rewrite decide_False].
Qed.

Lemma field_set_field_ne (k k' : string) (v : jsval) (b : body) :
  k <> k' -> field k' (set_field k v b) = field k' b.
Proof.
  intros Hne. induction b as [|[j x] b IH]; simpl.
  - by rewrite decide_False.
  - destruct (decide (j = k)) as [->|]; simpl.
    + by rewrite !decide_False.
    + by destruct (decide (j = k')).
Qed.

(** A non-negative integer field, or one left out ([.optional().isInt({ min: 0 })]). *)
Definition count_field_ok (v : jsval) : Prop :=
  v = JUndefined \/ exists z, parse_int (to_string v) = Some z /\ (0 <= z)%Z.

Lemma count_chain_ok (p m : string) (v : jsval) :
  chain_ok (mkChain p true [mkCheck (isInt_min 0) m] None) v <-> count_field_ok v.
Proof.
  unfold chain_ok, count_field_ok; simpl. unfold isInt_min.
  rewrite is_undefined_spec, Forall_singleton; simpl.
  destruct (parse_int (to_string v)) as [z|].
  - rewrite bool_decide_eq_true. split; intros [H|H]; [by left|eauto|by left|].
    destruct H as (? & [= <-] & ?). by right.
  - split; intros [H|H]; [by left|discriminate H|by left|]. by destruct H as (? & ? & _).
Qed.

Lemma string_chain_ok (p m1 m2 : string) (v : jsval) :
  chain_ok (mkChain p false [mkCheck isString m1; mkCheck notEmpty m2] None) v
  <-> exists s, v = JStr s /\ s <> "".
Proof.
  unfold chain_ok; simpl. rewrite <- nonempty_string_spec, !Forall_cons, Forall_nil.
  naive_solver.
Qed.

Lemma category_chain_ok (p m1 m2 m3 : string) (v : jsval) :
  chain_ok (mkChain p false [mkCheck isString m1; mkCheck notEmpty m2;
                             mkCheck (isIn post_categories) m3] None) v
  <-> exists s cat, v = JStr s /\ category_of_string s = Some cat.
Proof.
  unfold chain_ok; simpl. rewrite <- category_check_spec, !Forall_cons, Forall_nil.
  naive_solver.
Qed.

Lemma password_chain_ok (p m1 m2 m3 : string) (v : jsval) :
  chain_ok (mkChain p false [mkCheck isString m1; mkCheck notEmpty m2;
                             mkCheck (isLength_min 4) m3] None) v
  <-> exists pw, v = JStr pw /\ (4 <= String.length pw)%nat.
Proof.
  unfold chain_ok; simpl. rewrite !Forall_cons, Forall_nil; simpl.
  unfold isLength_min, notEmpty. rewrite negb_true_iff, bool_decide_eq_false, Nat.leb_le.
  split.
  - intros [[=]|(Hs & _ & Hl & _)]. destruct v; try discriminate Hs. by eexists.
  - intros (pw & -> & Hl). right. simpl. split_and!; [done| |done|done].
    intros ->. simpl in Hl. lia.
Qed.

Lemma run_chains_cons_body (c : chain) (cs : list chain) (b : body) :
  (run_chains (c :: cs) b).2 = (run_chains cs (run_chain c b).2).2.
Proof. simpl. destruct (run_chain c b) as [e1 b1]; simpl. by destruct (run_chains cs b1). Qed.

(** ** Properties *)

(** C32 (functional).  [validatePostRequest] lets a request through
    exactly when its title and content are non-empty strings, its category
    is one of the schema's categories, and [upVotes], [downVotes] are each
    absent or a non-negative integer; it then passes the body unchanged. *)
Theorem validatePostRequest_spec (b : body) :
  handleValidationErrors validatePostRequest b = Next b
  <-> (exists t, field "title" b = JStr t /\ t <> "")
   /\ (exists c, field "content" b = JStr c /\ c <> "")
   /\ (exists s cat, field "category" b = JStr s /\ category_of_string s = Some cat)
   /\ count_field_ok (field "upVotes" b) /\ count_field_ok (field "downVotes" b).
Proof.
  destruct (run_chains_pure validatePostRequest b) as [Hb Herr]; [repeat constructor|].
  rewrite handleValidationErrors_Next, Hb, Herr.
  unfold validatePostRequest. rewrite !Forall_cons, Forall_nil. cbn -[chain_ok].
  rewrite !string_chain_ok, category_chain_ok, !count_chain_ok. naive_solver.
Qed.

(** C33 (functional).  A registration that passes [validateRegisterRequest]
    has a non-empty string username, an email [isEmail] accepts and a
    string password of at least 4 characters; the controller then sees the
    username and password unchanged and the email normalized. *)
Theorem validateRegisterRequest_sound `{EmailRules} (b b' : body) :
  handleValidationErrors validateRegisterRequest b = Next b' ->
  (exists n, field "username" b = JStr n /\ n <> "")
  /\ isEmail (to_string (field "email" b)) = true
  /\ (exists pw, field "password" b = JStr pw /\ (4 <= String.length pw)%nat)
  /\ field "username" b' = field "username" b
  /\ field "password" b' = field "password" b
  /\ field "email" b' = JStr (normalizeEmail (to_string (field "email" b))).
Proof.
  intros Hv. unfold handleValidationErrors, validateRegisterRequest in Hv. simpl in Hv.
  unfold run_chain in Hv; simpl in Hv.
  rewrite !field_set_field_ne in Hv by done.
  rewrite (if_same (is_undefined (field "imageUrl" b))) in Hv.
  destruct (isString (field "username" b)) eqn:E1, (notEmpty (field "username" b)) eqn:E2,
    (isEmail _) eqn:E3, (isString (field "password" b)) eqn:E4,
    (notEmpty (field "password" b)) eqn:E5, (isLength_min 4 (field "password" b)) eqn:E6;
    simpl in Hv; try discriminate Hv.
  injection Hv as <-.
  pose proof (proj1 (nonempty_string_spec (field "username" b)) (conj E1 E2)) as Hn.
  pose proof (proj1 (password_chain_ok "" "" "" "" (field "password" b))) as Hp.
  unfold chain_ok in Hp; simpl in Hp. rewrite !Forall_cons, Forall_nil in Hp; simpl in Hp.
  split_and!; [done|done|apply Hp; right; split_and!; done| | |apply field_set_field_eq];
    by apply field_set_field_ne.
Qed.

(** ** Witnesses *)

Definition demo_email : EmailRules :=
  {| isEmail := fun s => bool_decide (String.index 0 "@" s <> None);
     normalizeEmail := fun s => s |}.

Lemma validateRegisterRequest_sound_witness :
  let b := [("username", JStr "carol"); ("email", JStr "carol@example.com");
            ("password", JStr "pass-carol")] in
  let b' := set_field "email" (JStr "carol@example.com") b in
  (exists n, field "username" b = JStr n /\ n <> "")
  /\ @isEmail demo_email (to_string (field "email" b)) = true
  /\ (exists pw, field "password" b = JStr pw /\ (4 <= String.length pw)%nat)
  /\ field "username" b' = field "username" b
  /\ field "password" b' = field "password" b
  /\ field "email" b' = JStr (@normalizeEmail demo_email (to_string (field "email" b))).
Proof. apply (@validateRegisterRequest_sound demo_email). vm_compute. reflexivity. Defined.
