(* ===== verification/Router.v ===== *)
(** * Router: index.ts, routes/*.ts and middleware/auth.ts wired together

    A request goes through the application middleware of index.ts in order:
    [express.json()] and [cookieParser()] (their result is the request's
    [rq_body] and [rq_cookie]), then [cors(corsOptions)] (lines 22-40),
    then the routes in the order they are registered: [GET /] (line 42),
    then the routers mounted at [/api/my/user], [/api/posts],
    [/api/post/comment] and [/api/users] (lines 45-48).  Express tries the
    routes in order; a route matches on its method and its path, a
    literal segment case-insensitively and a [:param] segment on any
    segment.  A route runs its middleware in the order it lists them:
    [verifyToken], a validation chain, multer's [upload.single], and the
    controller.  No route matching gives finalhandler's 404.

    Controllers are [async] and Express 4 does not look at the promise
    they return: a [TypeError] thrown before a controller's [try]
    (the [req.user.user._id] of upvotePost, downvotePost and editPost) is
    an unhandled rejection, which ends the Node process.  [serve] returns
    [Crashed] for it.  An error passed to [next] by the CORS callback or by
    multer reaches Express's default error handler: a 500.

    The request's path is given as its decoded segments; its file is the
    part multer's memory storage keeps, and [rq_cloudinary] is what the
    Cloudinary upload answers for a data URI.  [EmailRules],
    [PasswordHasher] and [JwtSecret] are the libraries' behaviour, and
    [frontend_uri] is [process.env.FRONTEND_URI], a section variable. *)

From S2P Require Import Prelude ObjectId Js Models Votes Auth Guard Upload Comments Queries Users Validation.
From stdpp Require Import base list gmap strings.
From Stdlib Require Import ZArith Ascii.

Inductive Method := GET | POST | PUT | DELETE.

#[export] Instance Method_eq_dec : EqDecision Method.
Proof. solve_decision. Defined.

(** A segment of a route's path. *)
Inductive seg :=
| Lit (s : string)
| Param (name : string).

(** The handlers routes end in. *)
Inductive Endpoint :=
| Hello
| Register | Login | Logout
| NewPost | AllPosts | PostById | PostsByUser | Upvote | Downvote | EditPost | DeletePost
| CreateComment | CommentsForPost | CreateReply | RepliesForComment
| AllUsers | SingleUser.

#[export] Instance Endpoint_eq_dec : EqDecision Endpoint.
Proof. solve_decision. Defined.

Record route := mkRoute {
  r_method : Method;
  r_path : list seg;
  r_endpoint : Endpoint
}.

(** routes/auth.ts. *)
Definition authRoutes : list route := [
  mkRoute POST [Lit "register"] Register;
  mkRoute POST [Lit "login"] Login;
  mkRoute POST [Lit "logout"] Logout].

(** routes/post.ts. *)
Definition postRoutes : list route := [
  mkRoute POST [Lit "new-post"] NewPost;
  mkRoute GET [] AllPosts;
  mkRoute GET [Param "id"] PostById;
  mkRoute GET [Lit "user"; Param "userId"] PostsByUser;
  mkRoute POST [Param "postId"; Lit "upvote"] Upvote;
  mkRoute POST [Param "postId"; Lit "downvote"] Downvote;
  mkRoute PUT [Param "postId"] EditPost;
  mkRoute DELETE [Param "id"] DeletePost].

(** routes/comment.ts. *)
Definition commentRoutes : list route := [
  mkRoute POST [] CreateComment;
  mkRoute GET [Param "postId"] CommentsForPost;
  mkRoute POST [Lit "reply"] CreateReply;
  mkRoute GET [Lit "replies"; Param "commentId"] RepliesForComment].

(** routes/user.ts. *)
Definition userRoutes : list route := [
  mkRoute GET [] AllUsers;
  mkRoute GET [Lit "single"] SingleUser].

(** [app.use(prefix, router)]. *)
Definition mount (prefix : list string) (rs : list route) : list route :=
  map (fun r => mkRoute (r_method r) (map Lit prefix ++ r_path r) (r_endpoint r)) rs.

(** The application's routes in registration order. *)
Definition app_routes : list route :=
  mkRoute GET [] Hello
  :: mount ["api"; "my"; "user"] authRoutes
  ++ mount ["api"; "posts"] postRoutes
  ++ mount ["api"; "post"; "comment"] commentRoutes
  ++ mount ["api"; "users"] userRoutes.

(** *** Matching *)

Definition ascii_lower (c : ascii) : ascii :=
  let n := nat_of_ascii c in
  if Nat.leb 65 n && Nat.leb n 90 then ascii_of_nat (n + 32) else c.

Fixpoint lower (s : string) : string :=
  match s with
  | EmptyString => EmptyString
  | String c s' => String (ascii_lower c) (lower s')
  end.

(** The route parameters of a path that matches the pattern. *)
Fixpoint match_path (pat : list seg) (p : list string) : option (list (string * string)) :=
  match pat, p with
  | [], [] => Some []
  | Lit l :: pat', s :: p' =>
      if bool_decide (lower l = lower s) then match_path pat' p' else None
  | Param x :: pat', s :: p' =>
      if bool_decide (s = "") then None else option_map (cons (x, s)) (match_path pat' p')
  | _, _ => None
  end.

Definition match_route (r : route) (m : Method) (p : list string)
  : option (list (string * string)) :=
  if bool_decide (r_method r = m) then match_path (r_path r) p else None.

(** The first route that matches, as Express finds it. *)
Fixpoint find_route (rs : list route) (m : Method) (p : list string)
  : option (Endpoint * list (string * string)) :=
  match rs with
  | [] => None
  | r :: rs' =>
      match match_route r m p with
      | Some ps => Some (r_endpoint r, ps)
      | None => find_route rs' m p
      end
  end.

(** [req.params[x]]. *)
Definition param (x : string) (ps : list (string * string)) : string :=
  default "" (option_map snd (List.find (fun kv => bool_decide (kv.1 = x)) ps)).

(** *** Requests *)

Record Request := mkRequest {
  rq_method : Method;
  rq_path : list string;
  rq_origin : option string;          (** the Origin header *)
  rq_sort : option string;            (** [req.query.sort] *)
  rq_body : list (string * jsval);     (** the scalar fields of [req.body] *)
  rq_ids : list string * list string * list string;
    (** the array fields [upVotedBy], [downVotedBy], [comments] *)
  rq_cookie : option Jwt;             (** [req.cookies.access_token] *)
  rq_file : option MulterFile;        (** the [imageFile] part, when sent *)
  rq_cloudinary : string -> option string;
    (** what [cloudinary.v2.uploader.upload] gives this request's data URI *)
  rq_salt : N                         (** the salt [bcrypt.hash] draws *)
}.

(** What the server does with a request. *)
Inductive served :=
| Served (r : Response)
| Crashed (e : exn).

Definition not_found : Response := mkResponse 404 BStatusText KeepCookie.
Definition express_error : Response := mkResponse 500 BStatusText KeepCookie.
Definition hello : Response := mkResponse 200 (BText "Hello World!") KeepCookie.

(** A string field of the body as Mongoose casts it into a [String] path:
    [undefined] and [null] leave it unset; a value with no string form
    fails the schema check at [save()], as the empty string does. *)
Definition cast_string (v : jsval) : option string :=
  match v with
  | JUndefined | JNull => None
  | JStr s => Some s
  | JNum _ | JBool _ | JOid _ => Some (to_string v)
  | JFun | JObj _ => Some ""
  end.

(** The [PostBody] createPost and editPost read. *)
Definition post_body (rq : Request) : PostBody :=
  let '(ups, downs, cs) := rq_ids rq in
  mkPostBody (cast_string (field "title" (rq_body rq))) (cast_string (field "content" (rq_body rq)))
    (cast_string (field "category" (rq_body rq))) (cast_string (field "imageUrl" (rq_body rq)))
    ups downs cs.

(** [Comment.findById(commentId)] of createReply: [undefined] and [null]
    find nothing. *)
Definition createReply_body (commentId : jsval) (content : string) (decoded : jsval)
  : handler Response :=
  match commentId with
  | JUndefined | JNull => reply (message 404 "Comment not found")
  | v => createReply (to_string v) content decoded
  end.

(** [origin: (origin, callback) => ...] of corsOptions. *)
Definition cors_allows (frontend_uri : option string) (origin : option string) : bool :=
  match origin with
  | None => true
  | Some o => bool_decide (frontend_uri = Some o)
  end.

Section Serve.
Context `{PasswordHasher} `{JwtSecret} `{EmailRules} (frontend_uri : option string).

Definition handle (h : handler Response) (w : World) : World * served :=
  let '(w', r) := run h w in (w', Served r).

(** [verifyToken]: 401, or the controller with [req.user]. *)
Definition with_token (rq : Request) (k : jsval -> World -> World * served) (w : World)
  : World * served :=
  match verifyToken (rq_cookie rq) with
  | Unauthorized => (w, Served unauthorized)
  | Authenticated d => k d w
  end.

(** A validation array: 400, or the rest with the sanitized body. *)
Definition with_validation (cs : list chain) (rq : Request)
    (k : list (string * jsval) -> World -> World * served) (w : World) : World * served :=
  match handleValidationErrors cs (rq_body rq) with
  | Stop r => (w, Served r)
  | Next b => k b w
  end.

(** [const userId = req.user.user._id] outside the controller's [try]. *)
Definition with_user_id (d : jsval) (k : jsval -> World -> World * served) (w : World)
  : World * served :=
  match req_user_id d with
  | None => (w, Crashed TypeError)
  | Some v => k v w
  end.

(** [upload.single("imageFile")] with [limits.fileSize] 5 MB. *)
Definition with_multer (rq : Request) (k : World -> World * served) (w : World)
  : World * served :=
  match rq_file rq with
  | None => k w
  | Some f => if bool_decide (5 * 1024 * 1024 < N.of_nat (length (buffer f)))%N then (w, Served express_error) else k w
  end.

Definition dispatch (e : Endpoint) (ps : list (string * string)) (rq : Request)
  : World -> World * served :=
  let b := rq_body rq in
  match e with
  | Hello => fun w => (w, Served hello)
  | Register => with_validation validateRegisterRequest rq (fun b' =>
      handle (registerUser (to_string (field "username" b')) (to_string (field "email" b'))
                (to_string (field "password" b')) (rq_salt rq)))
  | Login => with_validation validateLoginRequest rq (fun b' =>
      handle (loginUser (to_string (field "username" b')) (to_string (field "password" b'))))
  | Logout => handle logoutUser
  | NewPost => with_multer rq (with_validation validatePostRequest rq (fun _ =>
      with_token rq (fun d =>
        handle (createPost d (post_body rq) (file_upload (rq_cloudinary rq) (rq_file rq))))))
  | AllPosts => handle (getAllPosts (rq_sort rq))
  | PostById => handle (getPostById (param "id" ps))
  | PostsByUser => with_token rq (fun _ => handle (getAllPostsByUser (param "userId" ps)))
  | Upvote => with_token rq (fun d => with_user_id d (fun v =>
      handle (upvotePost (param "postId" ps) (to_string v))))
  | Downvote => with_token rq (fun d => with_user_id d (fun v =>
      handle (downvotePost (param "postId" ps) (to_string v))))
  | EditPost => with_token rq (fun d => with_user_id d (fun v =>
      handle (editPost (param "postId" ps) (post_body rq) v NoFile)))
  | DeletePost => with_token rq (fun d => handle (deletePost (param "id" ps) d))
  | CreateComment => with_token rq (fun d =>
      handle (createComment (cast_string (field "postId" b))
                (to_string (field "content" b)) d))
  | CommentsForPost => handle (getCommentsForPost (param "postId" ps))
  | CreateReply => with_token rq (fun d =>
      handle (createReply_body (field "commentId" b) (to_string (field "content" b)) d))
  | RepliesForComment => handle (getRepliesForComment (param "commentId" ps))
  | AllUsers => with_token rq (fun _ => handle getAllUsers)
  | SingleUser => with_token rq (fun d => handle (getSingleUser d))
  end.

(** One request through the application. *)
Definition serve (rq : Request) (w : World) : World * served :=
  if negb (cors_allows frontend_uri (rq_origin rq)) then (w, Served express_error) else
  match find_route app_routes (rq_method rq) (rq_path rq) with
  | None => (w, Served not_found)
  | Some (e, ps) => dispatch e ps rq w
  end.
End Serve.

(** The routes registered behind [verifyToken]. *)
Definition protected (e : Endpoint) : bool :=
  match e with
  | NewPost | PostsByUser | Upvote | Downvote | EditPost | DeletePost
  | CreateComment | CreateReply | AllUsers | SingleUser => true
  | _ => false
  end.

(** ** Overlap of routes, decided *)

(** Can some path match both patterns? *)
Fixpoint seg_overlap (p q : list seg) : bool :=
  match p, q with
  | [], [] => true
  | Lit a :: p', Lit b :: q' => bool_decide (lower a = lower b) && seg_overlap p' q'
  | _ :: p', _ :: q' => seg_overlap p' q'
  | _, _ => false
  end.

Definition overlap (r1 r2 : route) : bool :=
  bool_decide (r_method r1 = r_method r2) && seg_overlap (r_path r1) (r_path r2).

Fixpoint pairwise_disjoint (rs : list route) : bool :=
  match rs with
  | [] => true
  | r :: rs' => forallb (fun r' => negb (overlap r r')) rs' && pairwise_disjoint rs'
  end.

Lemma match_path_overlap (p q : list seg) (s : list string) ps qs :
  match_path p s = Some ps -> match_path q s = Some qs -> seg_overlap p q = true.
Proof.
  revert q s ps qs. induction p as [|[a|x] p IH]; intros [|[b|y] q] [|c s] ps qs; simpl;
    try congruence; intros H1 H2;
    repeat (case_bool_decide; try done; try congruence);
    destruct (match_path p s) eqn:?, (match_path q s) eqn:?; simpl in *; try done; eauto.
Qed.

Lemma match_route_overlap (r1 r2 : route) (m : Method) (p : list string) ps1 ps2 :
  match_route r1 m p = Some ps1 -> match_route r2 m p = Some ps2 -> overlap r1 r2 = true.
Proof.
  unfold match_route, overlap. repeat case_bool_decide; try congruence.
  intros M1 M2. eapply match_path_overlap; eauto.
Qed.

(** In a table without overlapping routes at most one route matches. *)
Lemma match_route_unique (rs : list route) (m : Method) (p : list string) r1 r2 ps1 ps2 :
  pairwise_disjoint rs = true -> r1 ∈ rs -> r2 ∈ rs ->
  match_route r1 m p = Some ps1 -> match_route r2 m p = Some ps2 -> r1 = r2.
Proof.
  induction rs as [|r rs IH]; simpl; [by intros _ ?%elem_of_nil|].
  rewrite andb_true_iff, forallb_forall. intros [Hr Hrs] H1 H2 M1 M2.
  apply elem_of_cons in H1 as [->|I1]; apply elem_of_cons in H2 as [->|I2]; [done| | |eauto].
  - apply list_elem_of_In, Hr in I2. by rewrite (match_route_overlap _ _ _ _ _ _ M1 M2) in I2.
  - apply list_elem_of_In, Hr in I1. by rewrite (match_route_overlap _ _ _ _ _ _ M2 M1) in I1.
Qed.

Lemma find_route_Some (rs : list route) (m : Method) (p : list string) e ps :
  find_route rs m p = Some (e, ps) ->
  exists r, r ∈ rs /\ r_endpoint r = e /\ match_route r m p = Some ps.
Proof.
  induction rs as [|r rs IH]; simpl; [done|].
  destruct (match_route r m p) eqn:Hm.
  - intros [= <- <-]. exists r. split_and!; [left|done|done].
  - intros (r' & ? & ? & ?)%IH. exists r'. split_and!; [by right|done|done].
Qed.

Lemma find_route_None (rs : list route) (m : Method) (p : list string) r :
  find_route rs m p = None -> r ∈ rs -> match_route r m p = None.
Proof.
  induction rs as [|r' rs IH]; simpl; [by intros _ ?%elem_of_nil|].
  destruct (match_route r' m p) eqn:Hm; [done|]. intros Hn [->|?]%elem_of_cons; auto.
Qed.

Lemma app_routes_disjoint : pairwise_disjoint app_routes = true.
Proof. vm_compute. reflexivity. Qed.

#[export] Instance seg_eq_dec : EqDecision seg.
Proof. solve_decision. Defined.

#[export] Instance route_eq_dec : EqDecision route.
Proof. solve_decision. Defined.

(** ** Properties *)

(** C34 (functional).  No two routes of the application overlap, so the
    order in which index.ts and the routers register them does not matter:
    any reordering of the route table dispatches every request to the same
    endpoint with the same parameters. *)
Theorem app_routes_order_irrelevant (rs : list route) (m : Method) (p : list string) :
  rs ≡ₚ app_routes -> find_route rs m p = find_route app_routes m p.
Proof.
  intros Hperm. pose proof app_routes_disjoint as Hd.
  destruct (find_route app_routes m p) as [[e ps]|] eqn:Ha,
    (find_route rs m p) as [[e' ps']|] eqn:Hr; try done.
  - apply find_route_Some in Ha as (r & Hin & <- & Hm).
    apply find_route_Some in Hr as (r' & Hin' & <- & Hm'). rewrite Hperm in Hin'.
    pose proof (match_route_unique _ _ _ _ _ _ _ Hd Hin Hin' Hm Hm') as <-. congruence.
  - apply find_route_Some in Ha as (r & Hin & _ & Hm). rewrite <- Hperm in Hin.
    by rewrite (find_route_None _ _ _ _ Hr Hin) in Hm.
  - apply find_route_Some in Hr as (r & Hin & _ & Hm). rewrite Hperm in Hin.
    by rewrite (find_route_None _ _ _ _ Ha Hin) in Hm.
Qed.

(** C35 (safety).  A request whose cookie does not verify, to any route
    registered behind [verifyToken], writes nothing and is answered 401;
    the one exception is [/api/posts/new-post], whose multer and validation
    middleware run before [verifyToken], so it can instead be answered 500
    (file too large) or 400 with the validation errors. *)
Theorem protected_routes_need_token `{PasswordHasher} `{JwtSecret} `{EmailRules}
    (fu : option string) (rq : Request) (w : World) (e : Endpoint) ps :
  cors_allows fu (rq_origin rq) = true ->
  verifyToken (rq_cookie rq) = Unauthorized ->
  find_route app_routes (rq_method rq) (rq_path rq) = Some (e, ps) -> protected e = true ->
  serve fu rq w = (w, Served unauthorized)
  \/ (e = NewPost /\ (serve fu rq w = (w, Served express_error)
       \/ exists errs, errs <> [] /\ serve fu rq w = (w, Served (json 400 (BErrors errs))))).
Proof.
  intros Hc Hv Hr Hp. unfold serve. rewrite Hc, Hr; simpl.
  destruct e; try discriminate Hp; unfold dispatch, with_token; rewrite ?Hv; auto.
  unfold with_multer, with_validation.
  destruct (handleValidationErrors validatePostRequest (rq_body rq)) as [b|r] eqn:Hval.
  - destruct (rq_file rq); [case_bool_decide; auto|by left].
  - apply handleValidationErrors_Stop in Hval as (errs & Hne & ->). right. split; [done|].
    destruct (rq_file rq); [case_bool_decide; auto; right; eauto|by right; eauto].
Qed.

(** C30 (safety).  A request takes the server down exactly when the CORS
    check lets it through to upvote, downvote or edit, and its cookie
    verifies to a payload without [user]: the three controllers that read
    [req.user.user._id] before their [try].  Every other request is
    answered. *)
Theorem serve_crash_iff `{PasswordHasher} `{JwtSecret} `{EmailRules}
    (fu : option string) (rq : Request) (w : World) :
  (exists w' e, serve fu rq w = (w', Crashed e))
  <-> cors_allows fu (rq_origin rq) = true
      /\ exists ep ps d, find_route app_routes (rq_method rq) (rq_path rq) = Some (ep, ps)
         /\ ep ∈ [Upvote; Downvote; EditPost]
         /\ verifyToken (rq_cookie rq) = Authenticated d /\ req_user_id d = None.
Proof.
  unfold serve. split.
  - intros (w' & e & Hs). destruct (cors_allows fu (rq_origin rq)); [|simpl in Hs; congruence].
    destruct (find_route _ _ _) as [[ep ps]|] eqn:Hr; [|simpl in Hs; congruence]. split; [done|].
    exists ep, ps. destruct ep; simpl in Hs;
      unfold with_token, with_user_id, with_validation, with_multer, handle in Hs;
      repeat case_match; simplify_eq; eexists; split_and!; eauto; set_solver.
  - intros (-> & ep & ps & d & Hr & Hep & Hv & Hu). rewrite Hr.
    apply elem_of_cons in Hep as [->|Hep]; [|apply elem_of_cons in Hep as [->|Hep];
      [|apply elem_of_cons in Hep as [->|Hep%elem_of_nil]; [|done]]];
      simpl; unfold with_token, with_user_id; rewrite Hv, Hu; eauto.
Qed.

(** ** Witnesses *)

Definition demo_request (m : Method) (p : list string) (b : list (string * jsval)) : Request :=
  mkRequest m p None None b ([], [], []) None None (fun _ => None) 0.

Lemma app_routes_order_irrelevant_witness :
  find_route (rev app_routes) POST ["api"; "posts"; "p1"; "upvote"]
  = find_route app_routes POST ["api"; "posts"; "p1"; "upvote"].
Proof. apply app_routes_order_irrelevant. decide_by_eval. Defined.

Lemma protected_routes_need_token_witness :
  let rq := demo_request DELETE ["api"; "posts"; "p1"] [] in
  let w := mkWorld ∅ ∅ ∅ 0 0 in
  @serve demo_hasher demo_secret demo_email None rq w = (w, Served unauthorized)
  \/ (DeletePost = NewPost /\ (@serve demo_hasher demo_secret demo_email None rq w
         = (w, Served express_error)
       \/ exists errs, errs <> [] /\ @serve demo_hasher demo_secret demo_email None rq w
                                       = (w, Served (json 400 (BErrors errs))))).
Proof.
  apply (@protected_routes_need_token demo_hasher demo_secret demo_email None _ _ DeletePost
           [("id", "p1")]); reflexivity.
Defined.

(** [/api/posts/new-post] without a cookie and with an empty body: the
    validation errors, not the 401 of [verifyToken]. *)
Example new_post_validates_before_token :
  exists errs, @serve demo_hasher demo_secret demo_email None
    (demo_request POST ["api"; "posts"; "new-post"] []) (mkWorld ∅ ∅ ∅ 0 0)
  = (mkWorld ∅ ∅ ∅ 0 0, Served (json 400 (BErrors errs))) /\ length errs = 7.
Proof. eexists. split; [reflexivity|vm_compute; reflexivity]. Qed.
