(* ===== verification/Server.v ===== *)
(** * Server: the running application as a state machine

    The server is [Up w] while its process runs, with [w] the database, and
    [Down] once a request has crashed it ([Crashed] of Router.v: a
    [TypeError] outside a controller's [try] under Express 4).  Each request
    is one [server_step]; [reachable_by P] is the set of servers a sequence
    of requests satisfying [P] leads to, and [reachable] allows any
    request.  Two invariants hold in every reachable state:
    [authors_registered] (every post's author is a user of the database;
    no save checks it, createPost's [if (!user)] keeps it), and
    [world_votes_wf] (the vote invariant of Votes.v on every post) over
    the requests of [clean_request].  Each handler is walked with the [wp] rules of Wp.v;
    [with_token_inv] and the other middleware lemmas lift a handler's
    preservation to [serve], and [reachable_by_inv] to sequences.
    The evaluated scenario [register_then_upvote_crashes] is the crash:
    the token a registration sets has no [user], and an upvote with it
    ends the process. *)

From S2P Require Import Prelude ObjectId Js Models Votes Auth Guard Comments Wp Queries Users Validation Router.
From stdpp Require Import base list gmap strings.
From Stdlib Require Import ZArith.

Inductive server :=
| Up (w : World)
| Down.

Section Steps.
Context `{PasswordHasher} `{JwtSecret} `{EmailRules} (frontend_uri : option string).

(** One request: the database it leaves, or the process gone. *)
Definition server_step (rq : Request) (s : server) : server :=
  match s with
  | Down => Down
  | Up w =>
      match serve frontend_uri rq w with
      | (w', Served _) => Up w'
      | (_, Crashed _) => Down
      end
  end.

(** The servers a sequence of requests, each satisfying [P], reaches from
    [Up w0]. *)
Inductive reachable_by (P : Request -> Prop) (w0 : World) : server -> Prop :=
| reach_init : reachable_by P w0 (Up w0)
| reach_step s rq : P rq -> reachable_by P w0 s -> reachable_by P w0 (server_step rq s).

(** Any sequence of requests. *)
Definition reachable (w0 : World) : server -> Prop := reachable_by (fun _ => True) w0.
End Steps.

(** ** Invariants of the database through the middleware *)

Section Middleware.
Context `{PasswordHasher} `{JwtSecret} `{EmailRules} (frontend_uri : option string).
Variable I : World -> Prop.

Lemma handle_inv (h : handler Response) (w : World) :
  preserves I h -> I w -> I (handle h w).1.
Proof.
  intros Hh Hw. pose proof (run_handler_wp error500 h I w (Hh w Hw)) as Hr.
  unfold handle, run in *. by destruct (run_handler error500 h w).
Qed.

Lemma with_token_inv rq k (w : World) :
  (forall d, verifyToken (rq_cookie rq) = Authenticated d -> I (k d w).1) -> I w ->
  I (with_token rq k w).1.
Proof. unfold with_token. destruct (verifyToken _); auto. Qed.

Lemma with_validation_inv cs rq k (w : World) :
  (forall b, I (k b w).1) -> I w -> I (with_validation cs rq k w).1.
Proof. unfold with_validation. by destruct (handleValidationErrors _ _). Qed.

Lemma with_user_id_inv d k (w : World) :
  (forall v, req_user_id d = Some v -> I (k v w).1) -> I w -> I (with_user_id d k w).1.
Proof. unfold with_user_id. destruct (req_user_id d); auto. Qed.

Lemma with_multer_inv rq k (w : World) :
  I (k w).1 -> I w -> I (with_multer rq k w).1.
Proof. unfold with_multer. destruct (rq_file rq); try case_bool_decide; done. Qed.

(** A property every request satisfying [P] keeps holds on every server
    such requests reach. *)
Lemma reachable_by_inv (P : Request -> Prop) (w0 : World) (s : server) :
  (forall rq w, P rq -> I w -> I (serve frontend_uri rq w).1) -> I w0 ->
  reachable_by frontend_uri P w0 s -> match s with Up w => I w | Down => True end.
Proof.
  intros Hstep Hw0 Hr. induction Hr as [|s rq HP Hr IH]; [done|].
  destruct s as [w|]; simpl in *; [|done].
  pose proof (Hstep rq w HP IH) as Hs. by destruct (serve frontend_uri rq w) as [w' []].
Qed.
End Middleware.

Create HintDb authors discriminated.
Create HintDb votes discriminated.

(** Go through a route's middleware down to its controller. *)
Ltac middleware :=
  repeat first
    [ apply with_multer_inv
    | apply with_validation_inv; [intros ?|]
    | apply with_token_inv; [intros ? ?|]
    | apply with_user_id_inv; [intros ? ?|]
    | apply handle_inv ].

(** Walk a handler: every composite handler and helper unfolded, every
    statement stepped with the [wp] rules. *)
Ltac walk_handler :=
  intros ?w ?Hw;
  unfold createReply_body, getSingleUser, getAllUsers, createPost, editPost, deletePost,
    createComment, getCommentsForPost, createReply, getRepliesForComment, getAllPosts,
    getPostById, getAllPostsByUser, upvotePost, downvotePost, registerUser, loginUser,
    logoutUser;
  unfold token_user_id, find_user_js, js_oid, apply_upload, find_post_opt;
  wp_run.

(** ** Posts by registered users *)

(** The post's author, when it has one, is a user of the database. *)
Definition post_authored (w : World) (p : Post.t) : Prop :=
  match Post.author p with
  | Some a => is_Some (users w !! a)
  | None => True
  end.

(** Every stored post is by a registered user. *)
Definition authors_registered (w : World) : Prop :=
  map_Forall (fun _ p => post_authored w p) (posts w).

Lemma authors_set_post (w : World) (i : oid) (p : Post.t) :
  authors_registered w -> post_authored w p ->
  authors_registered (set_posts (<[i := p]> (posts w)) w).
Proof. intros Hw Hp. by apply map_Forall_insert_2. Qed.

Lemma authors_delete (w : World) (i : oid) :
  authors_registered w -> authors_registered (set_posts (delete i (posts w)) w).
Proof. apply map_Forall_delete. Qed.

Lemma authors_counters (w : World) (n : oid) (t : Z) :
  authors_registered w -> authors_registered (mkWorld (users w) (posts w) (comments w) n t).
Proof. done. Qed.

Lemma authors_set_comments (w : World) (cs : gmap oid Comment.t) :
  authors_registered w -> authors_registered (set_comments cs w).
Proof. done. Qed.

(** Users are only ever added, so an author stays registered. *)
Lemma authors_set_users (w : World) (i : oid) (u : User.t) :
  authors_registered w -> authors_registered (set_users (<[i := u]> (users w)) w).
Proof.
  intros Hw j p Hj. specialize (Hw j p Hj). revert Hw. unfold post_authored; simpl.
  destruct (Post.author p) as [a|]; [|done]. intros [v Hv].
  destruct (decide (i = a)) as [->|]; [rewrite lookup_insert_eq|rewrite lookup_insert_ne]; eauto.
Qed.

Lemma authors_lookup (w : World) (i : oid) (p : Post.t) :
  authors_registered w -> posts w !! i = Some p -> post_authored w p.
Proof. intros Hw Hi. exact (Hw i p Hi). Qed.

Lemma post_authored_same (w : World) (p p' : Post.t) :
  post_authored w p -> Post.author p' = Post.author p -> post_authored w p'.
Proof. unfold post_authored. by intros ? ->. Qed.

(** A new post by the user [findById] found. *)
Lemma post_authored_new (w : World) (a : oid) (u : User.t) (p : Post.t) :
  users w !! a = Some u -> Post.author p = Some a -> post_authored w p.
Proof. unfold post_authored. intros ? ->. eauto. Qed.

Lemma upvote_core_author (u : string) (p p' : Post.t) :
  upvote_core u p = Voted p' -> Post.author p' = Post.author p.
Proof. unfold upvote_core. repeat case_match; intros; simplify_eq; done. Qed.

Lemma downvote_core_author (u : string) (p p' : Post.t) :
  downvote_core u p = Voted p' -> Post.author p' = Post.author p.
Proof. unfold downvote_core. repeat case_match; intros; simplify_eq; done. Qed.

#[export] Hint Resolve authors_set_post authors_delete authors_counters authors_set_comments
  authors_set_users authors_lookup post_authored_same post_authored_new
  upvote_core_author downvote_core_author : authors.

Section AuthorHandlers.
Context `{PasswordHasher} `{JwtSecret}.

Lemma registerUser_authors n e pw salt : preserves authors_registered (registerUser n e pw salt).
Proof. walk_handler; eauto with authors. Qed.
Lemma loginUser_authors n pw : preserves authors_registered (loginUser n pw).
Proof. walk_handler; eauto with authors. Qed.
Lemma logoutUser_authors : preserves authors_registered logoutUser.
Proof. walk_handler; eauto with authors. Qed.
Lemma createPost_authors d b up : preserves authors_registered (createPost d b up).
Proof. walk_handler; eauto 6 with authors. Qed.
Lemma getAllPosts_authors srt : preserves authors_registered (getAllPosts srt).
Proof. walk_handler; eauto with authors. Qed.
Lemma getPostById_authors id : preserves authors_registered (getPostById id).
Proof. walk_handler; eauto with authors. Qed.
Lemma getAllPostsByUser_authors id : preserves authors_registered (getAllPostsByUser id).
Proof. walk_handler; eauto with authors. Qed.
Lemma upvotePost_authors pid u : preserves authors_registered (upvotePost pid u).
Proof. walk_handler; eauto 6 with authors. Qed.
Lemma downvotePost_authors pid u : preserves authors_registered (downvotePost pid u).
Proof. walk_handler; eauto 6 with authors. Qed.
Lemma editPost_authors pid b v up : preserves authors_registered (editPost pid b v up).
Proof. walk_handler; eauto 6 with authors. Qed.
Lemma deletePost_authors id d : preserves authors_registered (deletePost id d).
Proof. walk_handler; eauto with authors. Qed.
Lemma createComment_authors pid c d : preserves authors_registered (createComment pid c d).
Proof. walk_handler; eauto 6 with authors. Qed.
Lemma getCommentsForPost_authors pid : preserves authors_registered (getCommentsForPost pid).
Proof. walk_handler; eauto with authors. Qed.
Lemma createReply_body_authors cid c d : preserves authors_registered (createReply_body cid c d).
Proof. walk_handler; eauto with authors. Qed.
Lemma getRepliesForComment_authors cid : preserves authors_registered (getRepliesForComment cid).
Proof. walk_handler; eauto with authors. Qed.
Lemma getAllUsers_authors : preserves authors_registered getAllUsers.
Proof. walk_handler; eauto with authors. Qed.
Lemma getSingleUser_authors d : preserves authors_registered (getSingleUser d).
Proof. walk_handler; eauto with authors. Qed.
End AuthorHandlers.

#[export] Hint Resolve registerUser_authors loginUser_authors logoutUser_authors
  createPost_authors getAllPosts_authors getPostById_authors getAllPostsByUser_authors
  upvotePost_authors downvotePost_authors editPost_authors deletePost_authors
  createComment_authors getCommentsForPost_authors createReply_body_authors
  getRepliesForComment_authors getAllUsers_authors getSingleUser_authors : authors.

Lemma serve_authors `{PasswordHasher} `{JwtSecret} `{EmailRules} fu rq (w : World) :
  authors_registered w -> authors_registered (serve fu rq w).1.
Proof.
  intros Hw. unfold serve. destruct (negb _); [done|].
  destruct (find_route _ _ _) as [[e ps]|]; [|done].
  destruct e; simpl; middleware; eauto with authors.
Qed.

(** ** Well-formed votes *)


Lemma votes_set_post (w : World) (i : oid) (p : Post.t) :
  world_votes_wf w -> vote_wf p -> world_votes_wf (set_posts (<[i := p]> (posts w)) w).
Proof. intros Hw Hp. by apply map_Forall_insert_2. Qed.

Lemma votes_delete (w : World) (i : oid) :
  world_votes_wf w -> world_votes_wf (set_posts (delete i (posts w)) w).
Proof. intros Hw. by apply map_Forall_delete. Qed.

Lemma votes_counters (w : World) (n : oid) (t : Z) :
  world_votes_wf w -> world_votes_wf (mkWorld (users w) (posts w) (comments w) n t).
Proof. done. Qed.

Lemma votes_set_comments (w : World) (cs : gmap oid Comment.t) :
  world_votes_wf w -> world_votes_wf (set_comments cs w).
Proof. done. Qed.

Lemma votes_set_users (w : World) (us : gmap oid User.t) :
  world_votes_wf w -> world_votes_wf (set_users us w).
Proof. done. Qed.

Lemma votes_lookup (w : World) (i : oid) (p : Post.t) :
  world_votes_wf w -> posts w !! i = Some p -> vote_wf p.
Proof. intros Hw Hp. exact (Hw i p Hp). Qed.

Lemma vote_wf_edit_fields (b : PostBody) (p : Post.t) img t :
  vote_wf p -> vote_wf (edit_fields b p img t).
Proof. intros H. exact H. Qed.

Lemma vote_wf_push_comment (c : oid) (p : Post.t) : vote_wf p -> vote_wf (push_comment c p).
Proof. intros H. exact H. Qed.

(** The post createPost builds from a body without vote arrays. *)
Lemma vote_wf_new a t c cat img cs lu :
  vote_wf (Post.mk a t c cat 0 0 [] [] img cs lu).
Proof. unfold vote_wf; simpl. split_and!; by constructor. Qed.

Lemma vote_core_wf (d : Dir) (u : oid) (p p' : Post.t) :
  (u < oid_bound)%N -> vote_wf p -> vote_core d (toHexString u) p = Voted p' -> vote_wf p'.
Proof.
  intros Hu Hwf. rewrite vote_core_hex by done.
  destruct (cast (vstate p u) d) eqn:Hc; intros [= <-]. apply vote_ids_wf; congruence.
Qed.

Lemma upvote_core_wf (u : oid) (p p' : Post.t) :
  (u < oid_bound)%N -> vote_wf p -> upvote_core (toHexString u) p = Voted p' -> vote_wf p'.
Proof. exact (vote_core_wf Votes.Up u p p'). Qed.

Lemma downvote_core_wf (u : oid) (p p' : Post.t) :
  (u < oid_bound)%N -> vote_wf p -> downvote_core (toHexString u) p = Voted p' -> vote_wf p'.
Proof. exact (vote_core_wf Votes.Down u p p'). Qed.

#[export] Hint Resolve votes_set_post votes_delete votes_counters votes_set_comments
  votes_set_users votes_lookup vote_wf_edit_fields vote_wf_push_comment vote_wf_new
  upvote_core_wf downvote_core_wf : votes.

Section VoteHandlers.
Context `{PasswordHasher} `{JwtSecret}.

Lemma registerUser_votes n e pw salt : preserves world_votes_wf (registerUser n e pw salt).
Proof. walk_handler; eauto 6 with votes. Qed.
Lemma loginUser_votes n pw : preserves world_votes_wf (loginUser n pw).
Proof. walk_handler; eauto 6 with votes. Qed.
Lemma logoutUser_votes : preserves world_votes_wf logoutUser.
Proof. walk_handler; eauto 6 with votes. Qed.
Lemma createPost_votes d t c cat img cs up :
  preserves world_votes_wf (createPost d (mkPostBody t c cat img [] [] cs) up).
Proof.
  walk_handler;
    repeat match goal with
    | H : cast_ids (b_upVotedBy _) = Some _ |- _ => simpl in H; injection H as <-
    | H : cast_ids (b_downVotedBy _) = Some _ |- _ => simpl in H; injection H as <-
    end;
    eauto 6 with votes.
Qed.
Lemma getAllPosts_votes srt : preserves world_votes_wf (getAllPosts srt).
Proof. walk_handler; eauto 6 with votes. Qed.
Lemma getPostById_votes id : preserves world_votes_wf (getPostById id).
Proof. walk_handler; eauto 6 with votes. Qed.
Lemma getAllPostsByUser_votes id : preserves world_votes_wf (getAllPostsByUser id).
Proof. walk_handler; eauto 6 with votes. Qed.
Lemma upvotePost_votes pid u :
  (u < oid_bound)%N -> preserves world_votes_wf (upvotePost pid (toHexString u)).
Proof. intros Hu. walk_handler; eauto 6 with votes. Qed.
Lemma downvotePost_votes pid u :
  (u < oid_bound)%N -> preserves world_votes_wf (downvotePost pid (toHexString u)).
Proof. intros Hu. walk_handler; eauto 6 with votes. Qed.
Lemma editPost_votes pid b v up : preserves world_votes_wf (editPost pid b v up).
Proof. walk_handler; eauto 6 with votes. Qed.
Lemma deletePost_votes id d : preserves world_votes_wf (deletePost id d).
Proof. walk_handler; eauto 6 with votes. Qed.
Lemma createComment_votes pid c d : preserves world_votes_wf (createComment pid c d).
Proof. walk_handler; eauto 6 with votes. Qed.
Lemma getCommentsForPost_votes pid : preserves world_votes_wf (getCommentsForPost pid).
Proof. walk_handler; eauto 6 with votes. Qed.
Lemma createReply_body_votes cid c d : preserves world_votes_wf (createReply_body cid c d).
Proof. walk_handler; eauto 6 with votes. Qed.
Lemma getRepliesForComment_votes cid : preserves world_votes_wf (getRepliesForComment cid).
Proof. walk_handler; eauto 6 with votes. Qed.
Lemma getAllUsers_votes : preserves world_votes_wf getAllUsers.
Proof. walk_handler; eauto 6 with votes. Qed.
Lemma getSingleUser_votes d : preserves world_votes_wf (getSingleUser d).
Proof. walk_handler; eauto 6 with votes. Qed.
End VoteHandlers.

#[export] Hint Resolve registerUser_votes loginUser_votes logoutUser_votes getAllPosts_votes
  getPostById_votes getAllPostsByUser_votes editPost_votes deletePost_votes createComment_votes
  getCommentsForPost_votes createReply_body_votes getRepliesForComment_votes getAllUsers_votes
  getSingleUser_votes : votes.

(** The requests of clients that use the API as the server issues it: the
    JSON body carries no [upVotedBy]/[downVotedBy] arrays, and a cookie that
    verifies names its user, if at all, by the string of a 96-bit id, as
    the tokens loginUser signs do (a registration token names none). *)
Definition clean_request `{JwtSecret} (rq : Request) : Prop :=
  (rq_ids rq).1.1 = [] /\ (rq_ids rq).1.2 = []
  /\ forall d v, verifyToken (rq_cookie rq) = Authenticated d -> req_user_id d = Some v ->
       exists u, (u < oid_bound)%N /\ v = JStr (toHexString u).

Lemma serve_votes `{PasswordHasher} `{JwtSecret} `{EmailRules} fu rq (w : World) :
  clean_request rq -> world_votes_wf w -> world_votes_wf (serve fu rq w).1.
Proof.
  intros (Hup & Hdown & Htok) Hw. unfold serve. destruct (negb _); [done|].
  destruct (find_route _ _ _) as [[e ps]|]; [|done].
  destruct e; simpl; try solve [middleware; eauto with votes].
  - apply with_multer_inv; [|done]. apply with_validation_inv; [|done]. intros b.
    apply with_token_inv; [|done]. intros d _. apply handle_inv; [|done].
    unfold post_body. destruct (rq_ids rq) as [[ups downs] cs]; simpl in Hup, Hdown; subst.
    apply createPost_votes.
  - apply with_token_inv; [|done]. intros d Hd. apply with_user_id_inv; [|done]. intros v Hv.
    destruct (Htok d v Hd Hv) as (u & Hu & ->). apply handle_inv; [|done].
    by apply upvotePost_votes.
  - apply with_token_inv; [|done]. intros d Hd. apply with_user_id_inv; [|done]. intros v Hv.
    destruct (Htok d v Hd Hv) as (u & Hu & ->). apply handle_inv; [|done].
    by apply downvotePost_votes.
Qed.

(** The invariant of a server: its database's while it runs. *)
Definition server_inv (s : server) : Prop :=
  match s with Up w => authors_registered w | Down => True end.

(** ** Properties *)

(** C5 (invariant).  From a database whose posts all satisfy [vote_wf], the
    requests of clients that use the API as issued (no vote arrays in a
    post body, the tokens the server signs) lead only to databases whose
    posts all still satisfy it: no user both up- and downvotes a post, no
    one votes twice, and each counter equals its list's length, so it is
    never negative. *)
Theorem reachable_votes_wf `{PasswordHasher} `{JwtSecret} `{EmailRules}
    (fu : option string) (w0 w : World) :
  world_votes_wf w0 -> reachable_by fu clean_request w0 (Up w) -> world_votes_wf w.
Proof.
  intros Hw0 Hr.
  exact (reachable_by_inv fu world_votes_wf clean_request w0 (Up w)
           (fun rq w' Hc => serve_votes fu rq w' Hc) Hw0 Hr).
Qed.

(** C6 (invariant).  From a database whose posts are all by registered
    users, every sequence of requests, whatever their order, outcome or
    crash, and whatever token they carry, leads to a server whose posts
    are all still by registered users.  No save checks a post's author:
    createPost's [if (!user)] on [User.findById(req.user.user._id)]
    (lines 45-49) is what keeps a post by an id that names no user out of
    the database; votes, edits and comments keep the author, and users are
    never deleted. *)
Theorem reachable_authors_registered `{PasswordHasher} `{JwtSecret} `{EmailRules}
    (fu : option string) (w0 : World) (s : server) :
  authors_registered w0 -> reachable fu w0 s -> server_inv s.
Proof.
  intros Hw0 Hr.
  exact (reachable_by_inv fu authors_registered (fun _ => True) w0 s
           (fun rq w _ => serve_authors fu rq w) Hw0 Hr).
Qed.

(** ** Scenarios *)

Definition register_request : Request :=
  mkRequest POST ["api"; "my"; "user"; "register"] None None
    [("username", JStr "bob"); ("email", JStr "bob@example.com"); ("password", JStr "pw-bob")]
    ([], [], []) None None (fun _ => None) 7.

Definition upvote_request (t : Jwt) : Request :=
  mkRequest POST ["api"; "posts"; toHexString 1; "upvote"] None None [] ([], [], [])
    (Some t) None (fun _ => None) 0.

(** A registration that succeeds, then an upvote with the
    cookie it set, takes the server down: the registration token's [user]
    is a function that JSON drops, and upvotePost reads
    [req.user.user._id] before its [try]. *)
Example register_then_upvote_crashes :
  match @serve demo_hasher demo_secret demo_email None register_request auth_world with
  | (w1, Served r) =>
      status r = 201%Z /\
      exists t, cookie r = SetCookie t
        /\ @server_step demo_hasher demo_secret demo_email None (upvote_request t) (Up w1) = Down
  | (_, Crashed _) => False
  end.
Proof. vm_compute. split; [reflexivity|]. eexists. split; reflexivity. Qed.

(** ** Witnesses *)

#[export] Instance post_authored_dec (w : World) (p : Post.t) : Decision (post_authored w p).
Proof. unfold post_authored. case_match; apply _. Defined.

#[export] Instance authors_registered_dec (w : World) : Decision (authors_registered w).
Proof. unfold authors_registered. apply _. Defined.

#[local] Instance world_votes_wf_decision (w : World) : Decision (world_votes_wf w).
Proof. unfold world_votes_wf. apply _. Defined.

(** The database after the registration of [register_request]. *)
Definition registered_world : World :=
  fst (@serve demo_hasher demo_secret demo_email None register_request auth_world).

Lemma registered_step :
  @server_step demo_hasher demo_secret demo_email None register_request (Up auth_world)
  = Up registered_world.
Proof. vm_compute. reflexivity. Qed.

Lemma reachable_votes_wf_witness :
  world_votes_wf auth_world
  /\ world_votes_wf registered_world.
Proof.
  split; [decide_by_eval|].
  apply (@reachable_votes_wf demo_hasher demo_secret demo_email None auth_world).
  - decide_by_eval.
  - rewrite <- registered_step. apply reach_step; [|apply reach_init].
    split_and!; [reflexivity|reflexivity|]. intros d v Hd. discriminate Hd.
Defined.

Lemma reachable_authors_registered_witness :
  server_inv (@server_step demo_hasher demo_secret demo_email None register_request
                (Up auth_world)).
Proof.
  apply (@reachable_authors_registered demo_hasher demo_secret demo_email None auth_world).
  - decide_by_eval.
  - apply reach_step; [done|apply reach_init].
Defined.
